(** * Race-strategy engine: simulation and optimisation

    A shallow embedding of [strategy_engine.py] (the stint simulator
    [simulate_strategy], the fixed-menu optimiser [optimize_strategy] and
    [get_weather]), of what [data_prep.py] writes to
    the model files the engine loads (the constants, and the table built
    by [prepare_data]), and of what the dashboard [app.py] computes from
    the optimiser's result.

    Conventions of the embedding.
    - Python [dict]s are association lists in insertion order (the order
      in which Python iterates them); a key is bound at most once.
    - Lap times are Python floats.  They are idealised as exact rationals
      ([Q]): rounding is not modelled, everything else is.  Equalities
      between times that are computed along different paths are therefore
      stated with [==] (equality of rationals), never with bit patterns.
      Where rounding decides a statement, the stint loop is replayed in
      binary64 ([Module Binary64]), operation by operation.
    - The lap split of the optimiser, [int(0.3 * total_laps)], truncates a
      float product to an integer, where rounding decides the result.  It
      is computed with binary64 floats, exactly as Python does.
    - Exceptions are values of [exn]; a call returns [inl e] when it raises
      [e] and [inr v] when it returns [v].
    - [deg_models] is a module-level mutable object: every function that
      can write to it takes the table and returns the table it leaves
      behind.
    - What comes from outside the program is an argument: the reply of the
      weather service and the key in the environment for [get_weather],
      the sessions and the fits of the timing library for
      [prepare_data]. *)

From Stdlib Require Import ZArith QArith String List Bool Lia Lqa.
From Stdlib Require Import Floats Uint63.
Import ListNotations.

#[local] Set Warnings "-inexact-float".

(* ================================================================== *)
(** ** Python values *)

(** The exceptions the engine can raise. *)
Inductive exn : Type :=
| KeyError (key : string)
| ValueError (got expected : Z)
| ZeroDivisionError.

(** Python dictionaries with string keys. *)
Module Dict.

Definition t (V : Type) : Type := list (string * V).

Fixpoint get {V : Type} (d : t V) (k : string) : option V :=
  match d with
  | [] => None
  | (k', v) :: rest => if String.eqb k k' then Some v else get rest k
  end.

(** [k in d] *)
Definition mem {V : Type} (d : t V) (k : string) : bool :=
  match get d k with Some _ => true | None => false end.

(** [d[k] = v]: overwrite in place, or append a new key at the end. *)
Fixpoint set {V : Type} (d : t V) (k : string) (v : V) : t V :=
  match d with
  | [] => [(k, v)]
  | (k', v') :: rest =>
      if String.eqb k k' then (k, v) :: rest else (k', v') :: set rest k v
  end.

Definition values {V : Type} (d : t V) : list V := map snd d.

End Dict.

(** [range(n)] *)
Definition py_range (n : Z) : list Z := map Z.of_nat (seq 0 (Z.to_nat n)).

(** [sum(xs)] over floats: a left fold starting from [0]. *)
Definition py_sum (xs : list Q) : Q := fold_left Qplus xs 0%Q.

(** [np.mean(xs)] for a non-empty list: sum over count. *)
Definition np_mean (xs : list Q) : Q :=
  (py_sum xs / inject_Z (Z.of_nat (length xs)))%Q.

(** [max(0, x)] *)
Definition py_max0 (x : Q) : Q := if Qle_bool x 0 then 0%Q else x.

(** [x > y] on floats *)
Definition Qgtb (x y : Q) : bool := negb (Qle_bool x y).

(** [float(n)] in binary64, for [|n| < 2^63] (exact below [2^53], rounded
    to nearest above, as Python does). *)
Definition py_float (n : Z) : float :=
  if (n <? 0)%Z
  then PrimFloat.opp (PrimFloat.of_uint63 (Uint63.of_Z (- n)))
  else PrimFloat.of_uint63 (Uint63.of_Z n).

(** [int(f)]: truncation towards zero of a finite float ([m * 2^e] with
    the sign [s]).  Python raises on infinities and NaN, which a product of
    two finite values of this size never is. *)
Definition py_int (f : float) : Z :=
  match Prim2SF f with
  | S754_finite s m e =>
      let v := Z.shiftl (Zpos m) e in if s then (- v)%Z else v
  | _ => 0%Z
  end.

(** [int(c * n)] for a float constant [c] and an integer [n]. *)
Definition int_mul (c : float) (n : Z) : Z :=
  py_int (PrimFloat.mul c (py_float n)).

(* ================================================================== *)
(** ** Data model *)

(** [{'base': b, 'slope': s}] *)
Record DegEntry : Type := mkEntry { base : Q; slope : Q }.

(** compound -> entry, team -> compounds, track -> teams *)
Definition TeamData : Type := Dict.t DegEntry.
Definition TrackData : Type := Dict.t TeamData.
Definition DegModels : Type := Dict.t TrackData.

(** [{'track_temp': t, 'rain_prob': p}] *)
Record Weather : Type := mkWeather { track_temp : Q; rain_prob : Q }.

(** A stint is [(compound, laps)]; a strategy is a list of stints. *)
Definition Stint : Type := (string * Z)%type.
Definition Strategy : Type := list Stint.

(** The analytics dictionary returned by the simulator. *)
Record Analytics : Type := mkAnalytics {
  stint_times : list Q;
  deg_penalties : list Q;
  avg_lap_times : list Q;
  cum_times : list Q;
  total_time : Q
}.

(* ================================================================== *)
(** ** Model files written by [data_prep.py] *)

(** [TRACK_LAPS], dumped to [models/track_laps.pkl]. *)
Definition TRACK_LAPS : Dict.t Z :=
  [ ("Bahrain", 57); ("Saudi Arabia", 50); ("Australia", 58); ("Japan", 53);
    ("China", 56); ("Miami", 57); ("Imola", 63); ("Monaco", 78);
    ("Canada", 70); ("Spain", 66); ("Austria", 71); ("Silverstone", 52);
    ("Hungary", 70); ("Belgium", 44); ("Netherlands", 72); ("Monza", 53);
    ("Azerbaijan", 51); ("Singapore", 62); ("USA", 56); ("Mexico", 71);
    ("Brazil", 71); ("Las Vegas", 50); ("Qatar", 57); ("Abu Dhabi", 58)
  ]%string%Z.

(** [track_laps_dict = joblib.load('models/track_laps.pkl')] *)
Definition track_laps_dict : Dict.t Z := TRACK_LAPS.

(** [pit_time_avg = 22.0], dumped to [models/pit_time.pkl] and loaded as
    [pit_time]. *)
Definition pit_time : Q := 22.

(** The dry compounds both fallbacks range over. *)
Definition DRY : list string := ["SOFT"; "MEDIUM"; "HARD"]%string.

(* ================================================================== *)
(** ** The degradation table and its fallbacks *)

Open Scope Q_scope.

(** The entries for [comp] found in [teams], in iteration order: what the
    loops of both fallbacks append to [all_bases[comp]] and
    [all_slopes[comp]]. *)
Definition entries_for (teams : list TeamData) (comp : string)
  : list DegEntry :=
  flat_map (fun td => match Dict.get td comp with
                      | Some e => [e]
                      | None => []
                      end) teams.

(** [{comp: {'base': np.mean(all_bases[comp]),
             'slope': np.mean(all_slopes[comp])}
      for comp in all_bases if all_bases[comp]}] *)
Definition averaged (teams : list TeamData) : TeamData :=
  flat_map (fun comp =>
              match entries_for teams comp with
              | [] => []
              | es => [(comp, mkEntry (np_mean (map base es))
                                      (np_mean (map slope es)))]
              end) DRY.

(** Every [deg_models[t][tm]], for [t] in the table and [tm] under [t]. *)
Definition all_teams (deg_models : DegModels) : list TeamData :=
  flat_map (fun t => Dict.values (snd t)) deg_models.

(** Track fallback: [track_data = {'Other': fallback}], a new dictionary. *)
Definition track_fallback (deg_models : DegModels) : TrackData :=
  [("Other"%string, averaged (all_teams deg_models))].

(** Team fallback: [if team not in track_data: track_data[team] = ...]. *)
Definition team_fallback (track_data : TrackData) (team : string)
  : TrackData :=
  if Dict.mem track_data team then track_data
  else Dict.set track_data team (averaged (Dict.values track_data)).

(** The binding of [track_data] and the two fallbacks.  When the track is
    in the table, [track_data] is the very object [deg_models[track]], so
    the assignment of the team fallback is a write into the table; when it
    is not, [track_data] is a new dictionary and the table is left alone.
    Returns the table after the assignment, and [track_data]. *)
Definition resolve_track_data (deg_models : DegModels) (track team : string)
  : DegModels * TrackData :=
  match Dict.get deg_models track with
  | None => (deg_models, team_fallback (track_fallback deg_models) team)
  | Some track_data =>
      let track_data' := team_fallback track_data team in
      if Dict.mem track_data team then (deg_models, track_data')
      else (Dict.set deg_models track track_data', track_data')
  end.

(** [(base, slope)] of one stint.  INTERMEDIATE is derived from the HARD
    entry of [track_data[team]]; any other compound is read from it. *)
Definition stint_params (track_data : TrackData) (team comp : string)
  : exn + (Q * Q) :=
  match Dict.get track_data team with
  | None => inl (KeyError team)
  | Some team_data =>
      if String.eqb comp "INTERMEDIATE" then
        inr (match Dict.get team_data "HARD" with
             | Some hard => base hard + 3.0
             | None => 95.0
             end,
             match Dict.get team_data "HARD" with
             | Some hard => slope hard * 1.5
             | None => 0.03
             end)
      else
        match Dict.get team_data comp with
        | Some e => inr (base e, slope e)
        | None => inl (KeyError comp)
        end
  end.

(* ================================================================== *)
(** ** The stint simulator *)

(** The local variables of the loop over the stints, and the lists of the
    [analytics] dictionary. *)
Record SimState : Type := mkState {
  s_total_time : Q;
  s_stint_times : list Q;
  s_deg_penalties : list Q;
  s_avg_lap_times : list Q;
  s_cum_times : list Q;
  current_cum : Q;
  prev_comp : option string;
  current_lap : Z
}.

Definition init_state : SimState :=
  mkState 0 [] [] [] [0] 0 None 0%Z.

(** [sum(st[1] for st in strategy)] *)
Definition sum_laps (strategy : Strategy) : Z :=
  fold_left (fun acc st => (acc + snd st)%Z) strategy 0%Z.

(** The values appended to [cum_times] by
    [for lap_time in stint_times: current_cum += lap_time; append]. *)
Fixpoint cum_append (current_cum : Q) (lap_times : list Q) : list Q :=
  match lap_times with
  | [] => []
  | lap_time :: rest =>
      (current_cum + lap_time) :: cum_append (current_cum + lap_time) rest
  end.

(** [xs[-1] += d] *)
Fixpoint add_to_last (xs : list Q) (d : Q) : list Q :=
  match xs with
  | [] => []
  | [x] => [x + d]
  | x :: rest => x :: add_to_last rest d
  end.

(** [if is_wet and comp != 'INTERMEDIATE': comp = 'INTERMEDIATE'] *)
Definition effective_comp (is_wet : bool) (orig_comp : string) : string :=
  if is_wet && negb (String.eqb orig_comp "INTERMEDIATE")
  then "INTERMEDIATE"%string else orig_comp.

(** [[base + j * adjusted_slope for j in range(stint_laps)]] *)
Definition lap_times_of (base adjusted_slope : Q) (stint_laps : Z)
  : list Q :=
  map (fun j => base + inject_Z j * adjusted_slope) (py_range stint_laps).

(** One iteration of [for comp, stint_laps in strategy]. *)
Definition stint_step (track_data : TrackData) (team : string)
    (is_wet : bool) (temp_factor : Q) (s : SimState) (st : Stint)
  : exn + SimState :=
  let orig_comp := fst st in
  let stint_laps := snd st in
  let comp := effective_comp is_wet orig_comp in
  match stint_params track_data team comp with
  | inl e => inl e
  | inr (base, slope) =>
      let adjusted_slope := slope * temp_factor in
      let lap_times := lap_times_of base adjusted_slope stint_laps in
      let stint_time := py_sum lap_times in
      let deg_penalty :=
        py_sum (map (fun j => inject_Z j * slope) (py_range stint_laps)) in
      if (stint_laps =? 0)%Z then inl ZeroDivisionError
      else
        let avg_lap := stint_time / inject_Z stint_laps in
        let cum1 := s_cum_times s ++ cum_append (current_cum s) lap_times in
        let current_cum1 := fold_left Qplus lap_times (current_cum s) in
        match prev_comp s with
        | None =>
            inr (mkState
                   (s_total_time s + stint_time)
                   (s_stint_times s ++ [stint_time])
                   (s_deg_penalties s ++ [deg_penalty])
                   (s_avg_lap_times s ++ [avg_lap])
                   cum1
                   current_cum1
                   (Some orig_comp)
                   (current_lap s + Z.of_nat (length lap_times))%Z)
        | Some _ =>
            inr (mkState
                   (s_total_time s + stint_time + pit_time)
                   (s_stint_times s ++ [stint_time])
                   (s_deg_penalties s ++ [deg_penalty])
                   (s_avg_lap_times s ++ [avg_lap])
                   (add_to_last cum1 pit_time)
                   (current_cum1 + pit_time)
                   (Some orig_comp)
                   (current_lap s + Z.of_nat (length lap_times))%Z)
        end
  end.

(** The loop over the stints; it stops at the first exception. *)
Fixpoint run_stints (track_data : TrackData) (team : string)
    (is_wet : bool) (temp_factor : Q) (strategy : Strategy) (s : SimState)
  : exn + SimState :=
  match strategy with
  | [] => inr s
  | st :: rest =>
      match stint_step track_data team is_wet temp_factor s st with
      | inl e => inl e
      | inr s' => run_stints track_data team is_wet temp_factor rest s'
      end
  end.

(** [is_wet = rain_prob > 0.3] *)
Definition is_wet_of (weather : Weather) : bool :=
  Qgtb (rain_prob weather) 0.3.

(** [temp_factor = 1 + max(0, (temp - 30) / 100)] *)
Definition temp_factor_of (weather : Weather) : Q :=
  1 + py_max0 ((track_temp weather - 30) / 100).

(** [if is_wet: total_time *= 1.1], then the returned dictionary. *)
Definition finish (is_wet : bool) (s : SimState) : Analytics :=
  mkAnalytics (s_stint_times s) (s_deg_penalties s) (s_avg_lap_times s)
              (s_cum_times s)
              (if is_wet then s_total_time s * 1.1 else s_total_time s).

(** [simulate_strategy(track, team, weather, strategy)], with the table
    before the call as argument and the table after it as first result. *)
Definition simulate_strategy (deg_models : DegModels) (track team : string)
    (weather : Weather) (strategy : Strategy)
  : DegModels * (exn + Analytics) :=
  match Dict.get track_laps_dict track with
  | None => (deg_models, inl (KeyError track))
  | Some total_laps =>
      if negb (sum_laps strategy =? total_laps)%Z
      then (deg_models, inl (ValueError (sum_laps strategy) total_laps))
      else
        let is_wet := is_wet_of weather in
        let temp_factor := temp_factor_of weather in
        let '(deg_models', track_data) :=
          resolve_track_data deg_models track team in
        (deg_models',
         match run_stints track_data team is_wet temp_factor strategy
                          init_state with
         | inl e => inl e
         | inr s => inr (finish is_wet s)
         end)
  end.

(* ================================================================== *)
(** ** The optimiser *)

(** The fixed menu of [optimize_strategy]. *)
Definition candidates (total_laps : Z) : list Strategy :=
  let s1 := Z.max 10 (Z.min (int_mul 0.3 total_laps) (total_laps - 10)) in
  let s2 := Z.max 10 (Z.min (int_mul 0.5 total_laps) (total_laps - 10)) in
  let s3 := Z.max 10 (Z.min (int_mul 0.25 total_laps) (total_laps - 20)) in
  let s4 :=
    Z.max 10 (Z.min (int_mul 0.35 total_laps) (total_laps - s3 - 10)) in
  let s5 := (total_laps - s3 - s4)%Z in
  let s6 := Z.max 10 (Z.min (int_mul 0.3 total_laps) (total_laps - 20)) in
  let s7 :=
    Z.max 10 (Z.min (int_mul 0.4 total_laps) (total_laps - s6 - 10)) in
  let s8 := (total_laps - s6 - s7)%Z in
  let s9 := Z.max 10 (Z.min (int_mul 0.3 total_laps) (total_laps - 20)) in
  let s10 :=
    Z.max 10 (Z.min (int_mul 0.3 total_laps) (total_laps - s9 - 10)) in
  let s11 := (total_laps - s9 - s10)%Z in
  let s12 := Z.max 10 (Z.min (int_mul 0.2 total_laps) (total_laps - 20)) in
  let s13 :=
    Z.max 10 (Z.min (int_mul 0.3 total_laps) (total_laps - s12 - 10)) in
  let s14 := (total_laps - s12 - s13)%Z in
  [ [("SOFT", s1); ("HARD", total_laps - s1)];
    [("MEDIUM", s2); ("HARD", total_laps - s2)];
    [("SOFT", s3); ("MEDIUM", s4); ("HARD", s5)];
    [("SOFT", s6); ("HARD", s7); ("HARD", s8)];
    [("MEDIUM", s9); ("SOFT", s10); ("HARD", s11)];
    [("SOFT", s12); ("SOFT", s13); ("HARD", s14)] ]%string%Z.

(** [best_strat], [best_time] and [best_analytics]; [None] is the initial
    [best_strat = None] with [best_time = inf]. *)
Definition Best : Type := option (Strategy * Q * Analytics).

(** The loop over the candidates: a candidate whose simulation raises is
    skipped, one that is strictly faster replaces the best so far. *)
Fixpoint try_candidates (deg_models : DegModels) (track team : string)
    (weather : Weather) (cands : list Strategy) (best : Best)
  : DegModels * Best :=
  match cands with
  | [] => (deg_models, best)
  | strat :: rest =>
      let '(deg_models', r) :=
        simulate_strategy deg_models track team weather strat in
      let best' :=
        match r with
        | inl _ => best
        | inr sim_result =>
            let time := total_time sim_result in
            match best with
            | None => Some (strat, time, sim_result)
            | Some (_, best_time, _) =>
                if Qgtb best_time time then Some (strat, time, sim_result)
                else best
            end
        end in
      try_candidates deg_models' track team weather rest best'
  end.

(** [[sum(s[1] for s in best_strat[:i]) for i in range(1, len(best_strat))]] *)
Definition pit_laps_of (best_strat : Strategy) : list Z :=
  map (fun i => sum_laps (firstn i best_strat))
      (seq 1 (length best_strat - 1)).

(** [optimize_strategy(track, team, weather)] for a weather record given
    by the caller (the branch [weather is None] asks the network). *)
Definition optimize_strategy (deg_models : DegModels) (track team : string)
    (weather : Weather)
  : DegModels * (exn + (Strategy * Q * list Z * Analytics)) :=
  match Dict.get track_laps_dict track with
  | None => (deg_models, inl (KeyError track))
  | Some total_laps =>
      match try_candidates deg_models track team weather
                           (candidates total_laps) None with
      | (deg_models', Some (best_strat, best_time, best_analytics)) =>
          (deg_models',
           inr (best_strat, best_time, pit_laps_of best_strat,
                best_analytics))
      | (deg_models', None) =>
          let best_strat := [("MEDIUM"%string, total_laps)] in
          match simulate_strategy deg_models' track team weather
                                  best_strat with
          | (deg_models'', inl e) => (deg_models'', inl e)
          | (deg_models'', inr best_analytics) =>
              (deg_models'',
               inr (best_strat, total_time best_analytics,
                    pit_laps_of best_strat, best_analytics))
          end
      end
  end.

(* ================================================================== *)
(** ** Vocabulary of the statements *)

(** *** Plans *)

(** A plan sums to [total] and none of its stints is shorter than ten laps. *)
Definition well_split (total : Z) (strat : Strategy) : Prop :=
  sum_laps strat = total /\ Forall (fun st => (10 <= snd st)%Z) strat.

(** The plan with every compound replaced by INTERMEDIATE. *)
Definition all_intermediate (strategy : Strategy) : Strategy :=
  map (fun st => ("INTERMEDIATE"%string, snd st)) strategy.

(** *** Lookups *)

(** The average of a list of entries, as both fallbacks build it. *)
Definition mean_entry (es : list DegEntry) : DegEntry :=
  mkEntry (np_mean (map base es)) (np_mean (map slope es)).

(** [track_data[team]] once both fallbacks have run. *)
Definition resolved_team (deg_models : DegModels) (track team : string)
  : TeamData :=
  match Dict.get deg_models track with
  | Some track_data =>
      match Dict.get track_data team with
      | Some team_data => team_data
      | None => averaged (Dict.values track_data)
      end
  | None =>
      match Dict.get (track_fallback deg_models) team with
      | Some other => other
      | None => averaged (Dict.values (track_fallback deg_models))
      end
  end.

(** The parameters of INTERMEDIATE, from the HARD entry of a team. *)
Definition from_hard (team_data : TeamData) : Q * Q :=
  (match Dict.get team_data "HARD" with
   | Some hard => base hard + 3.0
   | None => 95.0
   end,
   match Dict.get team_data "HARD" with
   | Some hard => slope hard * 1.5
   | None => 0.03
   end).

(** What the lookup of a dry compound does, case by case. *)
Definition dry_lookup_spec (deg_models : DegModels)
    (track team comp : string) (lookup : exn + (Q * Q)) : Prop :=
  match Dict.get deg_models track with
  | None =>
      match entries_for (all_teams deg_models) comp with
      | [] => lookup = inl (KeyError comp)
      | es => exists b s, lookup = inr (b, s)
                          /\ b == np_mean (map base es)
                          /\ s == np_mean (map slope es)
      end
  | Some track_data =>
      match Dict.get track_data team with
      | Some team_data =>
          match Dict.get team_data comp with
          | Some e => lookup = inr (base e, slope e)
          | None => lookup = inl (KeyError comp)
          end
      | None =>
          match entries_for (Dict.values track_data) comp with
          | [] => lookup = inl (KeyError comp)
          | es => lookup = inr (np_mean (map base es),
                                np_mean (map slope es))
          end
      end
  end.

(** The parameters a stint resolves to are not negative. *)
Definition nonneg_params (track_data : TrackData) (team : string)
    (is_wet : bool) (st : Stint) : Prop :=
  forall b sl,
    stint_params track_data team (effective_comp is_wet (fst st))
    = inr (b, sl) ->
    0 <= b /\ 0 <= sl.

(** *** Stints *)

(** A stint is simulated when its compound resolves and it has laps. *)
Definition stint_runs (track_data : TrackData) (team : string)
    (is_wet : bool) (st : Stint) : Prop :=
  (exists p, stint_params track_data team
                          (effective_comp is_wet (fst st)) = inr p)
  /\ snd st <> 0%Z.

(** The lap times of one stint, from the parameters it resolves to. *)
Definition stint_laps_of (track_data : TrackData) (team : string)
    (is_wet : bool) (temp_factor : Q) (st : Stint) : list Q :=
  match stint_params track_data team (effective_comp is_wet (fst st)) with
  | inr (b, sl) => lap_times_of b (sl * temp_factor) (snd st)
  | inl _ => []
  end.

(** The time of one stint. *)
Definition stint_time_of (track_data : TrackData) (team : string)
    (is_wet : bool) (temp_factor : Q) (st : Stint) : Q :=
  py_sum (stint_laps_of track_data team is_wet temp_factor st).

(** *** Runs of the simulator *)

(** The simulator past the validation of the plan. *)
Definition simulate_valid (deg_models : DegModels) (track team : string)
    (weather : Weather) (strategy : Strategy)
  : DegModels * (exn + Analytics) :=
  (fst (resolve_track_data deg_models track team),
   match run_stints (snd (resolve_track_data deg_models track team)) team
                    (is_wet_of weather) (temp_factor_of weather)
                    strategy init_state with
   | inl e => inl e
   | inr s => inr (finish (is_wet_of weather) s)
   end).

(** The tables a call can leave: the one it was given, or the one with the
    team fallback written in. *)
Definition table_of (deg_models : DegModels) (track team : string)
    (t : DegModels) : Prop :=
  t = deg_models \/ t = fst (resolve_track_data deg_models track team).

(** [prev_comp is not None] *)
Definition pitted (s : SimState) : bool :=
  match prev_comp s with Some _ => true | None => false end.

(** The loop only tests [prev_comp] against [None]: two states that differ
    in the compound it holds, and in nothing else, are not told apart. *)
Definition erase_prev (s : SimState) : SimState :=
  mkState (s_total_time s) (s_stint_times s) (s_deg_penalties s)
          (s_avg_lap_times s) (s_cum_times s) (current_cum s)
          (match prev_comp s with
           | Some _ => Some EmptyString
           | None => None
           end)
          (current_lap s).

Definition same_outcome (r1 r2 : exn + SimState) : Prop :=
  match r1, r2 with
  | inl e1, inl e2 => e1 = e2
  | inr s1, inr s2 => erase_prev s1 = erase_prev s2
  | _, _ => False
  end.

(** The analytics of a run, with [total_time] multiplied by 1.1. *)
Definition scaled_total (a : Analytics) : Analytics :=
  mkAnalytics (stint_times a) (deg_penalties a) (avg_lap_times a)
              (cum_times a) (total_time a * 1.1).

(** *** The cumulative series *)

(** A list of times that never goes down. *)
Fixpoint nondecreasing_from (x : Q) (l : list Q) : Prop :=
  match l with
  | [] => True
  | y :: rest => x <= y /\ nondecreasing_from y rest
  end.

Definition nondecreasing (l : list Q) : Prop :=
  match l with
  | [] => True
  | x :: rest => nondecreasing_from x rest
  end.

(** The shape of [cum_times] that every iteration keeps: one value per lap
    after the initial 0, the last one being [current_cum], which is also
    the running [total_time]. *)
Record cum_shape (s : SimState) (laps_done : Z) : Prop := mkShape {
  shape_done : (0 <= laps_done)%Z;
  shape_length : length (s_cum_times s) = S (Z.to_nat laps_done);
  shape_head : nth 0 (s_cum_times s) 0 = 0;
  shape_last : last (s_cum_times s) 0 = current_cum s;
  shape_total : current_cum s == s_total_time s
}.

(* ================================================================== *)
(** ** Example tables and plans *)

(** Monza, stored for Ferrari and Mercedes and for nobody else. *)
Definition monza_table (ferrari mercedes : TeamData) : DegModels :=
  [("Monza"%string,
    [("Ferrari"%string, ferrari); ("Mercedes"%string, mercedes)])].

Definition ferrari_soft_hard : TeamData :=
  [("SOFT"%string, mkEntry 80 0.5); ("HARD"%string, mkEntry 82 0.25)].

Definition mercedes_soft : TeamData := [("SOFT"%string, mkEntry 84 1.5)].

Definition monza_two_teams : DegModels :=
  monza_table ferrari_soft_hard mercedes_soft.

(** Monza with Ferrari only. *)
Definition monza_ferrari : DegModels :=
  [("Monza"%string, [("Ferrari"%string, ferrari_soft_hard)])].

(** Monza with a Ferrari that has no MEDIUM and no HARD data, and a
    Mercedes that has both. *)
Definition sparse_monza : DegModels :=
  [("Monza"%string,
    [("Ferrari"%string, [("SOFT"%string, mkEntry 80 0.5)]);
     ("Mercedes"%string,
      [("SOFT"%string, mkEntry 84 1.5);
       ("MEDIUM"%string, mkEntry 85 0.5);
       ("HARD"%string, mkEntry 82 0.25)])])].

(** A Monza table whose Ferrari entry even stores an INTERMEDIATE key. *)
Definition monza_with_inter : DegModels :=
  [("Monza"%string,
    [("Ferrari"%string,
      [("HARD"%string, mkEntry 82 0.25);
       ("INTERMEDIATE"%string, mkEntry 70 0)])])].

(** Monza with flat curves: SOFT laps take 80 s, HARD laps 82 s. *)
Definition flat_monza : DegModels :=
  [("Monza"%string,
    [("Ferrari"%string,
      [("SOFT"%string, mkEntry 80 0); ("HARD"%string, mkEntry 82 0)])])].

(** Two stored tracks with flat SOFT curves; Qatar is not stored. *)
Definition two_tracks : DegModels :=
  [("Monza"%string,
    [("Ferrari"%string, [("SOFT"%string, mkEntry 80 0)]);
     ("Mercedes"%string, [("SOFT"%string, mkEntry 84 0)])]);
   ("Belgium"%string,
    [("Ferrari"%string, [("SOFT"%string, mkEntry 90 0)])])].

(** 30 degrees on the track and no rain; the same with rain. *)
Definition dry_30 : Weather := mkWeather 30 0.
Definition wet_30 : Weather := mkWeather 30 0.5.

(** One stop at Monza: 20 laps on SOFT, 33 on HARD. *)
Definition soft20_hard33 : Strategy :=
  [("SOFT"%string, 20%Z); ("HARD"%string, 33%Z)].

(* ================================================================== *)
(** ** The rest of the engine, and what its callers compute *)

(** [range(a, b)] *)
Definition py_range_from (a b : Z) : list Z :=
  map (fun k => (a + Z.of_nat k)%Z) (seq 0 (Z.to_nat (b - a))).

(** *** [get_weather] *)

(** [TRACK_COORDS]: latitude and longitude of the circuits. *)
Definition TRACK_COORDS : Dict.t (Q * Q) :=
  [ ("Bahrain", (26.0325, 50.5106)); ("Saudi Arabia", (26.8528, 43.9719));
    ("Australia", (- 37.8497, 144.8430)); ("Japan", (34.8431, 139.3275));
    ("China", (31.2862, 121.1825)); ("Miami", (25.9581, - 80.2389));
    ("Imola", (44.3439, 11.7131)); ("Monaco", (43.7419, 7.4251));
    ("Canada", (45.5007, - 73.5224)); ("Spain", (41.5700, 2.2611));
    ("Austria", (47.2194, 14.7964)); ("Silverstone", (52.0754, - 0.8480));
    ("Hungary", (47.5786, 19.2523)); ("Belgium", (50.4381, 5.9717));
    ("Netherlands", (52.3914, 4.5411)); ("Monza", (45.6156, 9.2852));
    ("Azerbaijan", (40.3725, 49.8533)); ("Singapore", (1.2914, 103.8642));
    ("USA", (30.1328, - 97.6413)); ("Mexico", (19.4042, - 99.0907));
    ("Brazil", (- 23.7006, - 46.6944)); ("Las Vegas", (36.1169, - 115.1833));
    ("Qatar", (25.1497, 51.5111)); ("Abu Dhabi", (24.4672, 54.6031))
  ]%string.

(** What the request to the weather service comes back with.  [Raised]
    stands for any exception raised inside the [try] block (the request,
    the decoding of the body, a missing or ill-typed field); [Json] is a
    decoded body: whether its [cod] is 200, [main.temp] when it is there,
    and [rain.1h] when it is there. *)
Inductive Reply : Type :=
| Raised
| Json (cod_200 : bool) (main_temp : option Q) (rain_1h : option Q).

(** [ValueError("Unknown track")] *)
Inductive weather_exn : Type := UnknownTrack.

(** [{'track_temp': 30.0, 'rain_prob': 0.1}], returned without a key and on
    every failure. *)
Definition default_weather : Weather := mkWeather 30.0 0.1.

(** [not api_key or api_key == 'demo'] *)
Definition no_api_key (api_key : option string) : bool :=
  match api_key with
  | None => true
  | Some k => String.eqb k "" || String.eqb k "demo"
  end.

(** [min(1.0, x)] *)
Definition py_min1 (x : Q) : Q := if Qgtb 1.0 x then x else 1.0.

(** [get_weather(track)], given the key found in the environment and the
    reply of the service (consulted only when there is a key). *)
Definition get_weather (api_key : option string) (reply : Reply)
    (track : string) : weather_exn + Weather :=
  match Dict.get TRACK_COORDS track with
  | None => inl UnknownTrack
  | Some _ =>
      if no_api_key api_key then inr default_weather
      else
        match reply with
        | Raised => inr default_weather
        | Json cod_200 main_temp rain_1h =>
            if negb cod_200 then inr default_weather
            else
              match main_temp with
              | None => inr default_weather
              | Some temp =>
                  let track_temp := temp + 10 in
                  let rain := match rain_1h with
                              | Some r => r
                              | None => 0
                              end in
                  let rain_prob := py_min1 (rain / 5) in
                  inr (mkWeather track_temp rain_prob)
              end
        end
  end.

(** [optimize_strategy(track, team, weather=None)]: the registry is read
    first, and the weather is fetched when the caller gives none. *)
Definition optimize_strategy_default (deg_models : DegModels)
    (track team : string) (weather : option Weather)
    (api_key : option string) (reply : Reply)
  : DegModels
    * ((weather_exn + exn) + (Strategy * Q * list Z * Analytics)) :=
  match Dict.get track_laps_dict track with
  | None => (deg_models, inl (inr (KeyError track)))
  | Some _ =>
      match match weather with
            | Some w => inr w
            | None => get_weather api_key reply track
            end with
      | inl e => (deg_models, inl (inl e))
      | inr w =>
          match optimize_strategy deg_models track team w with
          | (deg_models', inl e) => (deg_models', inl (inr e))
          | (deg_models', inr r) => (deg_models', inr r)
          end
      end
  end.

(** *** The dashboard ([app.py]) *)

(** [max(a, x)] and [min(a, x)] for a constant [a] given first. *)
Definition py_max (a x : Q) : Q := if Qgtb x a then x else a.
Definition py_min (a x : Q) : Q := if Qgtb a x then x else a.

(** The "Win Probability" metric:
    [historical_avg_min = 90 * track_laps_dict[track] / 60],
    [speed_up_pct = (historical_avg_min - total_time / 60)
                    / historical_avg_min * 100],
    [win_prob = min(95, max(20, 50 + speed_up_pct * 2))].
    The divisor is never 0: no race of the registry has 0 laps. *)
Definition win_prob (track : string) (total_time : Q) : exn + Q :=
  match Dict.get track_laps_dict track with
  | None => inl (KeyError track)
  | Some laps =>
      let historical_avg_min := 90 * inject_Z laps / 60 in
      let speed_up_pct :=
        (historical_avg_min - total_time / 60) / historical_avg_min * 100 in
      inr (py_min 95 (py_max 20 (50 + speed_up_pct * 2)))
  end.

(** One row of the "Tire Strategy Breakdown" table, before its numbers are
    formatted: stint number, compound, first and last lap, pit lap, and the
    three analytics of the stint. *)
Record Row : Type := mkRow {
  row_stint : Z;
  row_tires : string;
  row_start_lap : Z;
  row_end_lap : Z;
  row_pit_lap : option Z;
  row_avg_lap : Q;
  row_stint_time : Q;
  row_deg_penalty : Q
}.

(** The loop [for i, (comp, stints) in enumerate(strategy)] that fills
    [df_data], from stint [i] on with [cum_lap] laps behind.  [None] is an
    [IndexError] of one of the four subscripts. *)
Fixpoint breakdown_from (i : nat) (cum_lap : Z) (strategy : Strategy)
    (pit_laps : list Z) (analytics : Analytics) : option (list Row) :=
  match strategy with
  | [] => Some []
  | (comp, stints) :: rest =>
      let start_lap := (cum_lap + 1)%Z in
      let end_lap := (cum_lap + stints)%Z in
      match match i with
            | O => Some None
            | S i' => option_map Some (nth_error pit_laps i')
            end,
            nth_error (stint_times analytics) i,
            nth_error (avg_lap_times analytics) i,
            nth_error (deg_penalties analytics) i with
      | Some pit_lap, Some stint_time, Some avg_lap, Some deg_pen =>
          match breakdown_from (S i) (cum_lap + stints)%Z rest pit_laps
                               analytics with
          | Some rows =>
              Some (mkRow (Z.of_nat i + 1) comp start_lap end_lap pit_lap
                          avg_lap stint_time deg_pen :: rows)
          | None => None
          end
      | _, _, _, _ => None
      end
  end.

Definition breakdown (strategy : Strategy) (pit_laps : list Z)
    (analytics : Analytics) : option (list Row) :=
  breakdown_from 0 0 strategy pit_laps analytics.

(** *** The table [data_prep.py] falls back on *)

(** [hardcoded], saved as the table when no race could be fitted. *)
Definition hardcoded : DegModels :=
  [ ("Bahrain",
     [("Other", [("SOFT", mkEntry 92.5 0.045); ("MEDIUM", mkEntry 93.8 0.025);
                 ("HARD", mkEntry 95.2 0.015)])]);
    ("China",
     [("Other", [("SOFT", mkEntry 94.0 0.040); ("MEDIUM", mkEntry 95.3 0.022);
                 ("HARD", mkEntry 96.7 0.012)])]);
    ("Monza",
     [("Other", [("SOFT", mkEntry 85.2 0.060); ("MEDIUM", mkEntry 86.5 0.035);
                 ("HARD", mkEntry 88.0 0.020)])]);
    ("Silverstone",
     [("Other", [("SOFT", mkEntry 89.1 0.055); ("MEDIUM", mkEntry 90.4 0.030);
                 ("HARD", mkEntry 91.8 0.018)])]);
    ("Monaco",
     [("Other", [("SOFT", mkEntry 81.2 0.035); ("MEDIUM", mkEntry 82.5 0.020);
                 ("HARD", mkEntry 84.0 0.010)])])
  ]%string.

(** *** [prepare_data] ([data_prep.py]) *)

Definition COMPOUNDS : list string :=
  ["SOFT"; "MEDIUM"; "HARD"; "INTERMEDIATE"]%string.

Definition TEAMS : list string :=
  ["Mercedes"; "Red Bull"; "Ferrari"; "McLaren"; "Aston Martin"]%string.

(** What a session gives for one of its top drivers:
    [session.get_driver(driver)['TeamName']], and for each compound what
    [fit_degradation(session, driver, comp)] returns, [None] standing for
    [(None, None)]. *)
Record Driver : Type := mkDriver {
  team_name : string;
  fit_degradation : string -> option (Q * Q)
}.

(** A race that gets as far as the loop over its drivers: the mean track
    temperature, and the top drivers the loop goes through (those before
    the one at which the race is abandoned, when an exception cuts the
    loop short). *)
Record Session : Type := mkSession {
  avg_temp : Q;
  top_drivers : list Driver
}.

(** [deg_data] while it is filled: track -> team -> compound ->
    [{'base': [...], 'slope': [...]}]. *)
Definition Fits : Type := Dict.t (Dict.t (Dict.t (list Q * list Q))).

(** [if k not in d: d[k] = v] *)
Definition setdefault {V : Type} (d : Dict.t V) (k : string) (v : V)
  : Dict.t V :=
  if Dict.mem d k then d else Dict.set d k v.

(** A change made through [d[k]] to the object stored there; [k] is in [d]
    wherever the code does this. *)
Definition update_at {V : Type} (d : Dict.t V) (k : string) (f : V -> V)
  : Dict.t V :=
  match Dict.get d k with
  | Some v => Dict.set d k (f v)
  | None => d
  end.

(** [if team not in TEAMS: team = 'Other'] *)
Definition py_team (team : string) : string :=
  if existsb (String.eqb team) TEAMS then team else "Other"%string.

(** The body of [for comp in COMPOUNDS[:-1]], given what the fit
    returned. *)
Definition add_fit (avg_temp : Q) (track team comp : string)
    (deg_data : Fits) (fit : option (Q * Q)) : Fits :=
  match fit with
  | None => deg_data
  | Some (base, slope) =>
      let temp_adjust := py_max0 ((avg_temp - 30) * 0.01) in
      let base := base + temp_adjust in
      update_at deg_data track (fun teams =>
        update_at teams team (fun comps =>
          update_at (setdefault comps comp ([], [])) comp (fun d =>
            (fst d ++ [base], snd d ++ [slope]))))
  end.

(** The body of [for driver in top_drivers]. *)
Definition process_driver (track : string) (avg_temp : Q)
    (deg_data : Fits) (driver : Driver) : Fits :=
  let team := py_team (team_name driver) in
  let deg_data := setdefault deg_data track [] in
  let deg_data :=
    update_at deg_data track (fun teams => setdefault teams team []) in
  fold_left (fun deg_data comp =>
               add_fit avg_temp track team comp deg_data
                       (fit_degradation driver comp))
            (removelast COMPOUNDS) deg_data.

(** The races, in the order of
    [for year in range(2021, 2025): for track in TRACK_LAPS]. *)
Definition races : list (Z * string) :=
  flat_map (fun year => map (fun t => (year, fst t)) TRACK_LAPS)
           (py_range_from 2021 2025).

(** The body of the loop over the races; [load year track] is [None] for
    a race that is skipped before its drivers are looked at (the session
    does not load, or the race was wet). *)
Definition process_race (load : Z -> string -> option Session)
    (deg_data : Fits) (race : Z * string) : Fits :=
  match load (fst race) (snd race) with
  | None => deg_data
  | Some session =>
      fold_left (process_driver (snd race) (avg_temp session))
                (top_drivers session) deg_data
  end.

(** The averaging loop: every list of fits is replaced by its mean, and an
    empty one is deleted. *)
Definition average_fits (deg_data : Fits) : DegModels :=
  map (fun t =>
         (fst t,
          map (fun tm =>
                 (fst tm,
                  flat_map (fun c =>
                              match fst (snd c) with
                              | [] => []
                              | _ :: _ =>
                                  [(fst c,
                                    mkEntry (np_mean (fst (snd c)))
                                            (np_mean (snd (snd c))))]
                              end) (snd tm)))
              (snd t)))
      deg_data.

(** [prepare_data()]: the table it dumps to [models/deg_models.pkl]. *)
Definition prepare_data (load : Z -> string -> option Session)
  : DegModels :=
  match average_fits (fold_left (process_race load) races []) with
  | [] => hardcoded
  | deg_data => deg_data
  end.

(** *** Example: one race fitted *)

(** Monza 2021 at a mean track temperature of 40 degrees, and no other
    race: two Ferrari drivers, the first fitted on SOFT and HARD, the
    second on SOFT only, and a driver of a team outside [TEAMS] for whom
    no fit succeeds. *)
Definition ferrari_first : Driver :=
  mkDriver "Ferrari"
           (fun comp =>
              if String.eqb comp "SOFT" then Some (80, 0.5)
              else if String.eqb comp "HARD" then Some (82, 0.25)
              else None).

Definition ferrari_second : Driver :=
  mkDriver "Ferrari"
           (fun comp =>
              if String.eqb comp "SOFT" then Some (82, 0.3) else None).

Definition unfitted_driver : Driver :=
  mkDriver "Haas F1 Team" (fun _ => None).

Definition monza_2021 (year : Z) (track : string) : option Session :=
  if (year =? 2021)%Z && String.eqb track "Monza"
  then Some (mkSession 40 [ferrari_first; ferrari_second; unfitted_driver])
  else None.

(* ================================================================== *)
(** ** Vocabulary of the further statements *)

(** The degradation penalty of one stint:
    [sum(j * slope for j in range(stint_laps))]. *)
Definition deg_penalty_of (track_data : TrackData) (team : string)
    (is_wet : bool) (st : Stint) : Q :=
  match stint_params track_data team (effective_comp is_wet (fst st)) with
  | inr (b, sl) => py_sum (map (fun j => inject_Z j * sl) (py_range (snd st)))
  | inl _ => 0
  end.

(** The average lap time of one stint: [stint_time / stint_laps]. *)
Definition avg_lap_of (track_data : TrackData) (team : string)
    (is_wet : bool) (temp_factor : Q) (st : Stint) : Q :=
  stint_time_of track_data team is_wet temp_factor st / inject_Z (snd st).

(** The laps a plan makes the simulator run: a stint with a negative lap
    count runs none. *)
Definition laps_run (strategy : Strategy) : nat :=
  fold_right (fun st n => (Z.to_nat (snd st) + n)%nat) 0%nat strategy.

(** The entry stored for a compound of a team at a track, if any. *)
Definition stored (deg_models : DegModels) (track team comp : string)
  : option DegEntry :=
  match Dict.get deg_models track with
  | None => None
  | Some track_data =>
      match Dict.get track_data team with
      | None => None
      | Some team_data => Dict.get team_data comp
      end
  end.

(** The outcome of simulating a plan. *)
Definition sim (deg_models : DegModels) (track team : string)
    (weather : Weather) (strat : Strategy) : exn + Analytics :=
  snd (simulate_strategy deg_models track team weather strat).

(** The table stores at least one track, every stored track at least one
    team, and every stored team an entry for [comp]. *)
Definition table_covers (deg_models : DegModels) (comp : string) : Prop :=
  deg_models <> []
  /\ Forall (fun t =>
               snd t <> []
               /\ Forall (fun tm => Dict.mem (snd tm) comp = true) (snd t))
            deg_models.

(** The drivers [prepare_data] goes through, in order, each with the track
    and the mean track temperature of the race. *)
Definition processed (load : Z -> string -> option Session)
  : list (string * Q * Driver) :=
  flat_map (fun race =>
              match load (fst race) (snd race) with
              | None => []
              | Some session =>
                  map (fun d => (snd race, avg_temp session, d))
                      (top_drivers session)
              end) races.

(** A driver of [team] (after renaming) was gone through at [track]. *)
Definition seen (evs : list (string * Q * Driver)) (track team : string)
  : bool :=
  existsb (fun ev =>
             String.eqb track (fst (fst ev))
             && String.eqb team (py_team (team_name (snd ev)))) evs.

(** The fits of [comp] that succeeded for the drivers of [team] at
    [track], in order: the base shifted by 0.01 s per degree of mean track
    temperature above 30, and the slope. *)
Definition fits_for (evs : list (string * Q * Driver))
    (track team comp : string) : list (Q * Q) :=
  flat_map (fun ev =>
              if String.eqb track (fst (fst ev))
                 && String.eqb team (py_team (team_name (snd ev)))
                 && existsb (String.eqb comp) DRY
              then
                match fit_degradation (snd ev) comp with
                | Some (b, sl) =>
                    [(b + py_max0 ((snd (fst ev) - 30) * 0.01), sl)]
                | None => []
                end
              else []) evs.

(** [deg_data[track][team]] and [deg_data[track][team][comp]] while the
    table is filled, when they are there. *)
Definition team_at (deg_data : Fits) (track team : string)
  : option (Dict.t (list Q * list Q)) :=
  match Dict.get deg_data track with
  | Some teams => Dict.get teams team
  | None => None
  end.

Definition fits_at (deg_data : Fits) (track team comp : string)
  : option (list Q * list Q) :=
  match team_at deg_data track team with
  | Some comps => Dict.get comps comp
  | None => None
  end.

(** The two lists a sequence of fits is stored as; no fit, no lists. *)
Definition lists_of (fs : list (Q * Q)) : option (list Q * list Q) :=
  match fs with
  | [] => None
  | _ :: _ => Some (map fst fs, map snd fs)
  end.

(** [deg_models[track][team]], when it is there. *)
Definition stored_team (deg_models : DegModels) (track team : string)
  : option TeamData :=
  match Dict.get deg_models track with
  | Some teams => Dict.get teams team
  | None => None
  end.

(** A property of every value of a dictionary. *)
Definition all_values {V : Type} (P : V -> Prop) (d : Dict.t V) : Prop :=
  Forall (fun kv => P (snd kv)) d.

(** No list of fits in the table is empty. *)
Definition no_empty_fits (deg_data : Fits) : Prop :=
  all_values (all_values (all_values (fun e => fst e <> []))) deg_data.

(** The table is up to date with the drivers gone through so far. *)
Definition filled_from (evs : list (string * Q * Driver)) (deg_data : Fits)
  : Prop :=
  (forall track team,
      match team_at deg_data track team with
      | Some _ => true
      | None => false
      end = seen evs track team)
  /\ (forall track team comp,
         fits_at deg_data track team comp
         = lists_of (fits_for evs track team comp))
  /\ no_empty_fits deg_data.

(* ================================================================== *)
(** ** The stint loop in binary64 *)

(** The loop of [simulate_strategy] once more, on the floats Python
    computes with instead of rationals: every sum and product below is one
    binary64 operation, in the order in which the source performs it.  It
    is used where rounding decides a statement. *)
Module Binary64.

Local Open Scope float_scope.

Record DegEntry : Type := mkEntry { base : float; slope : float }.

Definition TeamData : Type := Dict.t DegEntry.
Definition TrackData : Type := Dict.t TeamData.
Definition DegModels : Type := Dict.t TrackData.

Record Weather : Type := mkWeather { track_temp : float; rain_prob : float }.

Record Analytics : Type := mkAnalytics {
  stint_times : list float;
  deg_penalties : list float;
  avg_lap_times : list float;
  cum_times : list float;
  total_time : float
}.

(** [math.isfinite(c)] *)
Definition is_finite (c : float) : bool :=
  match Prim2SF c with
  | S754_zero _ | S754_finite _ _ _ => true
  | S754_infinity _ | S754_nan => false
  end.

(** One step of the compensated summation of CPython 3.12 and later:
    [t = f_result + x], then [c += (f_result - t) + x] when
    [fabs(f_result) >= fabs(x)] and [c += (x - t) + f_result] otherwise. *)
Definition neumaier_step (acc : float * float) (x : float) : float * float :=
  let '(f_result, c) := acc in
  let t := f_result + x in
  (t,
   if PrimFloat.leb (PrimFloat.abs x) (PrimFloat.abs f_result)
   then c + ((f_result - t) + x)
   else c + ((x - t) + f_result)).

(** [sum(xs)] for a list of floats.  The start value is the integer 0, to
    which the first item is added.  From there on the items are added from
    left to right: one by one ([compensated = false]: every CPython before
    3.12, and every version when the items are [numpy.float64], as the
    means of the fallbacks and of [data_prep.py] are), or with the
    compensation of CPython 3.12 and later for plain floats
    ([compensated = true]), which is added at the end when it is neither 0
    nor infinite nor NaN. *)
Definition py_sum (compensated : bool) (xs : list float) : float :=
  match xs with
  | [] => 0
  | x :: rest =>
      if compensated then
        let '(f_result, c) := fold_left neumaier_step rest (0 + x, 0) in
        if negb (PrimFloat.eqb c 0) && is_finite c then f_result + c
        else f_result
      else fold_left PrimFloat.add rest (0 + x)
  end.

(** [is_wet = rain_prob > 0.3] *)
Definition is_wet_of (weather : Weather) : bool :=
  PrimFloat.ltb 0.3 (rain_prob weather).

(** [temp_factor = 1 + max(0, (temp - 30) / 100)]; [max(0, x)] is [x] when
    [x > 0] and [0] otherwise. *)
Definition temp_factor_of (weather : Weather) : float :=
  let x := (track_temp weather - 30) / 100 in
  1 + (if PrimFloat.ltb 0 x then x else 0).

(** [pit_time = joblib.load('models/pit_time.pkl')], which is [22.0]. *)
Definition pit_time : float := 22.

Record SimState : Type := mkState {
  s_total_time : float;
  s_stint_times : list float;
  s_deg_penalties : list float;
  s_avg_lap_times : list float;
  s_cum_times : list float;
  current_cum : float;
  prev_comp : option string;
  current_lap : Z
}.

(** [cum_times] starts as [[0]], the integer; it is the float 0 here. *)
Definition init_state : SimState :=
  mkState 0 [] [] [] [0] 0 None 0%Z.

Fixpoint cum_append (current_cum : float) (lap_times : list float)
  : list float :=
  match lap_times with
  | [] => []
  | lap_time :: rest =>
      (current_cum + lap_time) :: cum_append (current_cum + lap_time) rest
  end.

(** [xs[-1] += d] *)
Fixpoint add_to_last (xs : list float) (d : float) : list float :=
  match xs with
  | [] => []
  | [x] => [x + d]
  | x :: rest => x :: add_to_last rest d
  end.

Definition stint_params (track_data : TrackData) (team comp : string)
  : exn + (float * float) :=
  match Dict.get track_data team with
  | None => inl (KeyError team)
  | Some team_data =>
      if String.eqb comp "INTERMEDIATE" then
        inr (match Dict.get team_data "HARD" with
             | Some hard => base hard + 3.0
             | None => 95.0
             end,
             match Dict.get team_data "HARD" with
             | Some hard => slope hard * 1.5
             | None => 0.03
             end)
      else
        match Dict.get team_data comp with
        | Some e => inr (base e, slope e)
        | None => inl (KeyError comp)
        end
  end.

(** [[base + j * adjusted_slope for j in range(stint_laps)]] *)
Definition lap_times_of (base adjusted_slope : float) (stint_laps : Z)
  : list float :=
  map (fun j => base + py_float j * adjusted_slope) (py_range stint_laps).

(** One iteration of [for comp, stint_laps in strategy]. *)
Definition stint_step (compensated : bool) (track_data : TrackData)
    (team : string) (is_wet : bool) (temp_factor : float) (s : SimState)
    (st : Stint) : exn + SimState :=
  let orig_comp := fst st in
  let stint_laps := snd st in
  let comp := effective_comp is_wet orig_comp in
  match stint_params track_data team comp with
  | inl e => inl e
  | inr (base, slope) =>
      let adjusted_slope := slope * temp_factor in
      let lap_times := lap_times_of base adjusted_slope stint_laps in
      let stint_time := py_sum compensated lap_times in
      let deg_penalty :=
        py_sum compensated
               (map (fun j => py_float j * slope) (py_range stint_laps)) in
      if (stint_laps =? 0)%Z then inl ZeroDivisionError
      else
        let avg_lap := stint_time / py_float stint_laps in
        let cum1 := s_cum_times s ++ cum_append (current_cum s) lap_times in
        let current_cum1 :=
          fold_left PrimFloat.add lap_times (current_cum s) in
        match prev_comp s with
        | None =>
            inr (mkState
                   (s_total_time s + stint_time)
                   (s_stint_times s ++ [stint_time])
                   (s_deg_penalties s ++ [deg_penalty])
                   (s_avg_lap_times s ++ [avg_lap])
                   cum1
                   current_cum1
                   (Some orig_comp)
                   (current_lap s + Z.of_nat (length lap_times))%Z)
        | Some _ =>
            inr (mkState
                   (s_total_time s + stint_time + pit_time)
                   (s_stint_times s ++ [stint_time])
                   (s_deg_penalties s ++ [deg_penalty])
                   (s_avg_lap_times s ++ [avg_lap])
                   (add_to_last cum1 pit_time)
                   (current_cum1 + pit_time)
                   (Some orig_comp)
                   (current_lap s + Z.of_nat (length lap_times))%Z)
        end
  end.

Fixpoint run_stints (compensated : bool) (track_data : TrackData)
    (team : string) (is_wet : bool) (temp_factor : float)
    (strategy : Strategy) (s : SimState) : exn + SimState :=
  match strategy with
  | [] => inr s
  | st :: rest =>
      match stint_step compensated track_data team is_wet temp_factor s st
      with
      | inl e => inl e
      | inr s' =>
          run_stints compensated track_data team is_wet temp_factor rest s'
      end
  end.

(** [if is_wet: total_time *= 1.1], then the returned dictionary. *)
Definition finish (is_wet : bool) (s : SimState) : Analytics :=
  mkAnalytics (s_stint_times s) (s_deg_penalties s) (s_avg_lap_times s)
              (s_cum_times s)
              (if is_wet then s_total_time s * 1.1 else s_total_time s).

(** [simulate_strategy(track, team, weather, strategy)] for a team that is
    stored under its track, so that no fallback runs.  [None] stands for
    the calls that are not replayed here: those that need a fallback, whose
    means [numpy] computes. *)
Definition simulate_strategy (compensated : bool) (deg_models : DegModels)
    (track team : string) (weather : Weather) (strategy : Strategy)
  : option (exn + Analytics) :=
  match Dict.get track_laps_dict track with
  | None => Some (inl (KeyError track))
  | Some total_laps =>
      if negb (sum_laps strategy =? total_laps)%Z
      then Some (inl (ValueError (sum_laps strategy) total_laps))
      else
        let is_wet := is_wet_of weather in
        let temp_factor := temp_factor_of weather in
        match Dict.get deg_models track with
        | None => None
        | Some track_data =>
            if Dict.mem track_data team then
              Some match run_stints compensated track_data team is_wet
                                    temp_factor strategy init_state with
                   | inl e => inl e
                   | inr s => inr (finish is_wet s)
                   end
            else None
        end
  end.

(** *** Vocabulary *)

(** The lap times of one stint, from the parameters it resolves to. *)
Definition stint_laps_of (track_data : TrackData) (team : string)
    (is_wet : bool) (temp_factor : float) (st : Stint) : list float :=
  match stint_params track_data team (effective_comp is_wet (fst st)) with
  | inr (b, sl) => lap_times_of b (sl * temp_factor) (snd st)
  | inl _ => []
  end.



(** Monza with Ferrari only: SOFT (80.0, 0.5) and HARD (82.0, 0.25). *)
Definition monza_ferrari : DegModels :=
  [("Monza"%string,
    [("Ferrari"%string,
      [("SOFT"%string, mkEntry 80 0.5);
       ("HARD"%string, mkEntry 82 0.25)])])].

End Binary64.

(* ================================================================== *)
(** ** Dictionaries, sums and the registry *)

Section DictFacts.

Context {V : Type}.
Implicit Types (d : Dict.t V) (k : string) (v : V).

Lemma get_set_same d k v : Dict.get (Dict.set d k v) k = Some v.
Proof.
  induction d as [|[k' v'] d IH]; simpl.
  - now rewrite String.eqb_refl.
  - destruct (String.eqb k k') eqn:E; simpl.
    + now rewrite String.eqb_refl.
    + now rewrite E.
Qed.

Lemma get_set_other d k k' v :
  k' <> k -> Dict.get (Dict.set d k v) k' = Dict.get d k'.
Proof.
  intros Hne. induction d as [|[k0 v0] d IH]; simpl.
  - apply String.eqb_neq in Hne. now rewrite Hne.
  - destruct (String.eqb k k0) eqn:E; simpl.
    + apply String.eqb_eq in E. subst k0.
      apply String.eqb_neq in Hne. now rewrite Hne.
    + now rewrite IH.
Qed.

Lemma mem_true_get d k :
  Dict.mem d k = true <-> exists v, Dict.get d k = Some v.
Proof.
  unfold Dict.mem. destruct (Dict.get d k) as [v|].
  - split; eauto.
  - split; [discriminate | intros [v Hv]; discriminate].
Qed.

Lemma mem_false_get d k : Dict.mem d k = false <-> Dict.get d k = None.
Proof.
  unfold Dict.mem. destruct (Dict.get d k); split; congruence.
Qed.

(** Writing a key that is not bound changes the dictionary. *)
Lemma set_fresh_neq d k v : Dict.get d k = None -> Dict.set d k v <> d.
Proof.
  intros Hnone Heq.
  pose proof (get_set_same d k v) as Hs.
  rewrite Heq in Hs. congruence.
Qed.

End DictFacts.

Lemma sum_laps_from (strategy : Strategy) (acc : Z) :
  fold_left (fun a st => (a + snd st)%Z) strategy acc
  = (acc + sum_laps strategy)%Z.
Proof.
  unfold sum_laps. revert acc.
  induction strategy as [|st rest IH]; intros acc; simpl.
  - lia.
  - rewrite IH, (IH (snd st)). lia.
Qed.

Lemma sum_laps_cons (st : Stint) (rest : Strategy) :
  sum_laps (st :: rest) = (snd st + sum_laps rest)%Z.
Proof. unfold sum_laps at 1. simpl. now rewrite sum_laps_from. Qed.

Lemma sum_laps_nil : sum_laps [] = 0%Z.
Proof. reflexivity. Qed.

(** Every race of the registry has between 44 and 78 laps. *)
Lemma registry_bounds (track : string) (total_laps : Z) :
  Dict.get track_laps_dict track = Some total_laps ->
  (44 <= total_laps <= 78)%Z.
Proof.
  unfold track_laps_dict, TRACK_LAPS. simpl.
  repeat (destruct (String.eqb track _);
          [ intros H; injection H as <-; lia | ]).
  discriminate.
Qed.

(* ================================================================== *)
(** ** The candidate menu *)

(** The menu at Monza (53 laps).  The splits are those of Python:
    [int(0.3 * 53) = 15], [int(0.35 * 53) = 18], [int(0.4 * 53) = 21]. *)
Example candidates_monza :
  candidates 53
  = [ [("SOFT", 15); ("HARD", 38)];
      [("MEDIUM", 26); ("HARD", 27)];
      [("SOFT", 13); ("MEDIUM", 18); ("HARD", 22)];
      [("SOFT", 15); ("HARD", 21); ("HARD", 17)];
      [("MEDIUM", 15); ("SOFT", 15); ("HARD", 23)];
      [("SOFT", 10); ("SOFT", 15); ("HARD", 28)] ]%string%Z.
Proof. vm_compute. reflexivity. Qed.

(** Rounding decides the split: [0.35 * 180] is [62.99999999999999] in
    binary64, one lap short of the exact product. *)
Example int_mul_rounds : int_mul 0.35 180 = 62%Z.
Proof. vm_compute. reflexivity. Qed.

(** From thirty laps on, the clamps of the menu leave ten laps or more to
    every stint, whatever the proportional split evaluates to. *)
Lemma candidates_well_split (total_laps : Z) :
  (30 <= total_laps)%Z ->
  Forall (well_split total_laps) (candidates total_laps).
Proof.
  intros Hge. unfold candidates.
  generalize (int_mul 0.2 total_laps) (int_mul 0.25 total_laps)
             (int_mul 0.3 total_laps) (int_mul 0.35 total_laps)
             (int_mul 0.4 total_laps) (int_mul 0.5 total_laps).
  intros p20 p25 p30 p35 p40 p50. cbv zeta.
  repeat apply Forall_cons; try apply Forall_nil; split;
    repeat rewrite sum_laps_cons; try change (sum_laps []) with 0%Z;
    repeat apply Forall_cons; try apply Forall_nil;
    cbn [snd]; lia.
Qed.

(** C8.  For every track of the registry, each plan of the optimiser's
    menu has lap counts that add up to the track's total lap count, and
    each of its stints has at least ten laps. *)
Theorem candidates_sum_and_min_stint (track : string) (total_laps : Z) :
  Dict.get track_laps_dict track = Some total_laps ->
  Forall (fun strat =>
            sum_laps strat = total_laps
            /\ Forall (fun st => (10 <= snd st)%Z) strat)
         (candidates total_laps).
Proof.
  intros Hreg. apply registry_bounds in Hreg.
  apply candidates_well_split. lia.
Qed.

Lemma candidates_sum_and_min_stint_monza :
  Dict.get track_laps_dict "Monza" = Some 53%Z
  /\ Forall (fun strat =>
               sum_laps strat = 53%Z
               /\ Forall (fun st => (10 <= snd st)%Z) strat)
            (candidates 53).
Proof.
  split; [ reflexivity | ].
  apply (candidates_sum_and_min_stint "Monza" 53). reflexivity.
Defined.

(* ================================================================== *)
(** ** Resolution of [(base, slope)] *)

Lemma averaged_get (teams : list TeamData) (comp : string) :
  In comp DRY ->
  Dict.get (averaged teams) comp
  = match entries_for teams comp with
    | [] => None
    | es => Some (mean_entry es)
    end.
Proof.
  unfold DRY, averaged, mean_entry. simpl flat_map.
  intros [<- | [<- | [<- | []]]];
    destruct (entries_for teams "SOFT");
    destruct (entries_for teams "MEDIUM");
    destruct (entries_for teams "HARD"); reflexivity.
Qed.

Lemma team_fallback_get (track_data : TrackData) (team : string) :
  Dict.get (team_fallback track_data team) team
  = Some match Dict.get track_data team with
         | Some team_data => team_data
         | None => averaged (Dict.values track_data)
         end.
Proof.
  unfold team_fallback, Dict.mem.
  destruct (Dict.get track_data team) as [team_data|] eqn:E.
  - exact E.
  - apply get_set_same.
Qed.

Lemma resolve_get_team (deg_models : DegModels) (track team : string) :
  Dict.get (snd (resolve_track_data deg_models track team)) team
  = Some (resolved_team deg_models track team).
Proof.
  unfold resolve_track_data, resolved_team.
  destruct (Dict.get deg_models track) as [track_data|].
  - destruct (Dict.mem track_data team); apply team_fallback_get.
  - apply team_fallback_get.
Qed.

Lemma stint_params_dry (track_data : TrackData) (team comp : string)
    (team_data : TeamData) :
  Dict.get track_data team = Some team_data ->
  String.eqb comp "INTERMEDIATE" = false ->
  stint_params track_data team comp
  = match Dict.get team_data comp with
    | Some e => inr (base e, slope e)
    | None => inl (KeyError comp)
    end.
Proof. intros Ht Hc. unfold stint_params. now rewrite Ht, Hc. Qed.

Lemma stint_params_intermediate (track_data : TrackData) (team : string)
    (team_data : TeamData) :
  Dict.get track_data team = Some team_data ->
  stint_params track_data team "INTERMEDIATE"
  = inr (match Dict.get team_data "HARD" with
         | Some hard => base hard + 3.0
         | None => 95.0
         end,
         match Dict.get team_data "HARD" with
         | Some hard => slope hard * 1.5
         | None => 0.03
         end).
Proof. intros Ht. unfold stint_params. now rewrite Ht. Qed.

Lemma dry_not_intermediate (comp : string) :
  In comp DRY -> String.eqb comp "INTERMEDIATE" = false.
Proof. intros [<- | [<- | [<- | []]]]; reflexivity. Qed.

(** Monza stored for Ferrari and Mercedes only: McLaren's SOFT entry is the
    average of theirs. *)
Lemma monza_mclaren_soft (ferrari mercedes : TeamData) (f m : DegEntry) :
  Dict.get ferrari "SOFT" = Some f ->
  Dict.get mercedes "SOFT" = Some m ->
  stint_params
    (snd (resolve_track_data (monza_table ferrari mercedes)
                             "Monza" "McLaren"))
    "McLaren" "SOFT"
  = inr (np_mean [base f; base m], np_mean [slope f; slope m])
  /\ np_mean [base f; base m] == (base f + base m) / 2
  /\ np_mean [slope f; slope m] == (slope f + slope m) / 2.
Proof.
  intros Hf Hm. split; [ | split ].
  - rewrite (stint_params_dry _ _ "SOFT" _ (resolve_get_team _ _ _) eq_refl).
    change (resolved_team (monza_table ferrari mercedes) "Monza" "McLaren")
      with (averaged [ferrari; mercedes]).
    rewrite averaged_get by (simpl; auto).
    unfold entries_for. cbn [flat_map]. now rewrite Hf, Hm.
  - unfold np_mean, py_sum. simpl. field.
  - unfold np_mean, py_sum. simpl. field.
Qed.

(** C7.  When the track is in the table and the team is not under it, the
    entry resolved for a dry compound is the arithmetic mean of the bases
    and the arithmetic mean of the slopes of the teams of that track that
    have the compound.  (At Monza stored for Ferrari and Mercedes only,
    McLaren's SOFT is the average of their two SOFT entries: this is the
    instance below, and [monza_mclaren_soft] for any two entries.) *)
Theorem team_fallback_is_track_mean (deg_models : DegModels)
    (track team comp : string) (track_data : TrackData) :
  Dict.get deg_models track = Some track_data ->
  Dict.mem track_data team = false ->
  In comp DRY ->
  entries_for (Dict.values track_data) comp <> [] ->
  stint_params (snd (resolve_track_data deg_models track team)) team comp
  = inr (np_mean (map base (entries_for (Dict.values track_data) comp)),
         np_mean (map slope (entries_for (Dict.values track_data) comp))).
Proof.
  intros Htrack Hteam Hdry Hne.
  rewrite (stint_params_dry _ _ _ _ (resolve_get_team _ _ _)
                            (dry_not_intermediate _ Hdry)).
  unfold resolved_team. rewrite Htrack.
  apply mem_false_get in Hteam. rewrite Hteam.
  rewrite (averaged_get _ _ Hdry).
  destruct (entries_for (Dict.values track_data) comp) as [|e es];
    [ congruence | reflexivity ].
Qed.

Lemma team_fallback_is_track_mean_monza :
  stint_params
    (snd (resolve_track_data monza_two_teams "Monza" "McLaren"))
    "McLaren" "SOFT"
  = inr (np_mean [80; 84], np_mean [0.5; 1.5])
  /\ np_mean [80; 84] == 82 /\ np_mean [0.5; 1.5] == 1.
Proof.
  split; [ | split; reflexivity ].
  apply (team_fallback_is_track_mean
           monza_two_teams "Monza" "McLaren" "SOFT"
           [("Ferrari"%string, ferrari_soft_hard);
            ("Mercedes"%string, mercedes_soft)]).
  - reflexivity.
  - reflexivity.
  - simpl. auto.
  - discriminate.
Defined.

Lemma np_mean_single (x : Q) : np_mean [x] == x.
Proof. unfold np_mean, py_sum. simpl. field. Qed.

Lemma entries_for_single (team_data : TeamData) (comp : string) :
  entries_for [team_data] comp
  = match Dict.get team_data comp with Some e => [e] | None => [] end.
Proof.
  unfold entries_for. simpl. now rewrite app_nil_r.
Qed.


(* ================================================================== *)
(** ** When the simulator raises *)

Lemma stint_params_error (track_data : TrackData) (team comp : string)
    (e : exn) :
  stint_params track_data team comp = inl e -> exists k, e = KeyError k.
Proof.
  unfold stint_params.
  destruct (Dict.get track_data team) as [team_data|].
  - destruct (String.eqb comp "INTERMEDIATE"); [ discriminate | ].
    destruct (Dict.get team_data comp); [ discriminate | ].
    intros H. injection H as <-. eauto.
  - intros H. injection H as <-. eauto.
Qed.

Lemma stint_step_runs (track_data : TrackData) (team : string)
    (is_wet : bool) (temp_factor : Q) (s : SimState) (st : Stint) :
  (exists s', stint_step track_data team is_wet temp_factor s st = inr s')
  <-> stint_runs track_data team is_wet st.
Proof.
  unfold stint_step, stint_runs.
  destruct (stint_params track_data team (effective_comp is_wet (fst st)))
    as [e | [b sl]].
  - split; [ intros [s' H]; discriminate | intros [[p H] _]; discriminate ].
  - destruct (Z.eqb_spec (snd st) 0) as [Hz | Hnz].
    + split; [ intros [s' H]; discriminate | intros [_ H]; contradiction ].
    + split; [ intros _; split; eauto | intros _ ].
      destruct (prev_comp s); eauto.
Qed.

Lemma stint_step_error (track_data : TrackData) (team : string)
    (is_wet : bool) (temp_factor : Q) (s : SimState) (st : Stint) (e : exn) :
  stint_step track_data team is_wet temp_factor s st = inl e ->
  (exists k, e = KeyError k) \/ e = ZeroDivisionError.
Proof.
  unfold stint_step.
  destruct (stint_params track_data team (effective_comp is_wet (fst st)))
    as [e' | [b sl]] eqn:E.
  - intros H. injection H as <-. left.
    eapply stint_params_error; eassumption.
  - destruct (snd st =? 0)%Z.
    + intros H. injection H as <-. now right.
    + destruct (prev_comp s); discriminate.
Qed.

Lemma run_stints_runs (track_data : TrackData) (team : string)
    (is_wet : bool) (temp_factor : Q) (strategy : Strategy) (s : SimState) :
  (exists s', run_stints track_data team is_wet temp_factor strategy s
              = inr s')
  <-> Forall (stint_runs track_data team is_wet) strategy.
Proof.
  revert s. induction strategy as [|st rest IH]; intros s; simpl.
  - split; [ intros _; constructor | eauto ].
  - pose proof (stint_step_runs track_data team is_wet temp_factor s st)
      as Hstep.
    destruct (stint_step track_data team is_wet temp_factor s st)
      as [e | s1].
    + split.
      * intros [s' H]; discriminate.
      * intros HF. inversion HF as [|? ? Hst _]; subst.
        apply Hstep in Hst. destruct Hst as [s' H]. discriminate.
    + rewrite IH. split.
      * intros HF. constructor; [ apply Hstep; eauto | exact HF ].
      * intros HF. now inversion HF.
Qed.

Lemma run_stints_error (track_data : TrackData) (team : string)
    (is_wet : bool) (temp_factor : Q) (strategy : Strategy) (s : SimState)
    (e : exn) :
  run_stints track_data team is_wet temp_factor strategy s = inl e ->
  (exists k, e = KeyError k) \/ e = ZeroDivisionError.
Proof.
  revert s. induction strategy as [|st rest IH]; intros s; simpl.
  - discriminate.
  - destruct (stint_step track_data team is_wet temp_factor s st)
      as [e' | s1] eqn:E.
    + intros H. injection H as <-. eapply stint_step_error; eassumption.
    + apply IH.
Qed.

Lemma simulate_strategy_valid (deg_models : DegModels)
    (track team : string) (weather : Weather) (strategy : Strategy)
    (total_laps : Z) :
  Dict.get track_laps_dict track = Some total_laps ->
  sum_laps strategy = total_laps ->
  simulate_strategy deg_models track team weather strategy
  = simulate_valid deg_models track team weather strategy.
Proof.
  intros Hreg Hsum. unfold simulate_strategy, simulate_valid.
  rewrite Hreg, Hsum, Z.eqb_refl. simpl negb. cbv iota.
  destruct (resolve_track_data deg_models track team); reflexivity.
Qed.

Lemma simulate_strategy_invalid (deg_models : DegModels)
    (track team : string) (weather : Weather) (strategy : Strategy)
    (total_laps : Z) :
  Dict.get track_laps_dict track = Some total_laps ->
  sum_laps strategy <> total_laps ->
  simulate_strategy deg_models track team weather strategy
  = (deg_models, inl (ValueError (sum_laps strategy) total_laps)).
Proof.
  intros Hreg Hsum. unfold simulate_strategy. rewrite Hreg.
  apply Z.eqb_neq in Hsum. now rewrite Hsum.
Qed.

Lemma simulate_valid_error (deg_models : DegModels) (track team : string)
    (weather : Weather) (strategy : Strategy) (e : exn) :
  snd (simulate_valid deg_models track team weather strategy) = inl e ->
  (exists k, e = KeyError k) \/ e = ZeroDivisionError.
Proof.
  unfold simulate_valid. simpl.
  destruct (run_stints _ _ _ _ _ _) as [e' | s] eqn:E; [ | discriminate ].
  intros H. injection H as <-. eapply run_stints_error; eassumption.
Qed.

Lemma simulate_valid_runs (deg_models : DegModels) (track team : string)
    (weather : Weather) (strategy : Strategy) :
  (exists a,
      snd (simulate_valid deg_models track team weather strategy) = inr a)
  <-> Forall (stint_runs (snd (resolve_track_data deg_models track team))
                         team (is_wet_of weather)) strategy.
Proof.
  rewrite <- (run_stints_runs _ _ _ (temp_factor_of weather) _ init_state).
  unfold simulate_valid. simpl.
  destruct (run_stints _ _ _ _ _ _) as [e | s].
  - split; intros [x H]; discriminate.
  - split; eauto.
Qed.

(** C2.  For a track of the registry, the simulator raises the
    plan-validation error (Python's [ValueError], carrying the sum and the
    registered total) exactly when the lap counts of the plan do not add up
    to the registered total; when they do, anything it raises is a
    [KeyError] or a [ZeroDivisionError], never a validation error. *)
Theorem invalid_plan_iff_sum_mismatch (deg_models : DegModels)
    (track team : string) (weather : Weather) (strategy : Strategy)
    (total_laps : Z) :
  Dict.get track_laps_dict track = Some total_laps ->
  ((exists got expected,
       snd (simulate_strategy deg_models track team weather strategy)
       = inl (ValueError got expected))
   <-> sum_laps strategy <> total_laps)
  /\ (sum_laps strategy <> total_laps ->
      simulate_strategy deg_models track team weather strategy
      = (deg_models, inl (ValueError (sum_laps strategy) total_laps)))
  /\ (sum_laps strategy = total_laps ->
      forall e,
        snd (simulate_strategy deg_models track team weather strategy)
        = inl e ->
        (exists k, e = KeyError k) \/ e = ZeroDivisionError).
Proof.
  intros Hreg. split; [ | split ].
  - split.
    + intros [got [expected H]] Hsum.
      rewrite (simulate_strategy_valid _ _ _ _ _ _ Hreg Hsum) in H.
      apply simulate_valid_error in H.
      destruct H as [[k H] | H]; discriminate.
    + intros Hsum.
      rewrite (simulate_strategy_invalid _ _ _ _ _ _ Hreg Hsum).
      simpl. eauto.
  - apply simulate_strategy_invalid. exact Hreg.
  - intros Hsum e H.
    rewrite (simulate_strategy_valid _ _ _ _ _ _ Hreg Hsum) in H.
    eapply simulate_valid_error. eassumption.
Qed.

Lemma invalid_plan_iff_sum_mismatch_monza :
  snd (simulate_strategy [] "Monza" "Ferrari" dry_30
                         [("SOFT"%string, 20%Z); ("HARD"%string, 30%Z)])
  = inl (ValueError 50 53).
Proof.
  destruct (invalid_plan_iff_sum_mismatch
              [] "Monza" "Ferrari" dry_30
              [("SOFT"%string, 20%Z); ("HARD"%string, 30%Z)] 53 eq_refl)
    as [_ [H _]].
  rewrite H; [ reflexivity | ].
  vm_compute. discriminate.
Defined.

(* ================================================================== *)
(** ** INTERMEDIATE stints *)

Lemma stint_step_stint_times (track_data : TrackData) (team : string)
    (is_wet : bool) (temp_factor : Q) (s s' : SimState) (st : Stint) :
  stint_step track_data team is_wet temp_factor s st = inr s' ->
  s_stint_times s'
  = s_stint_times s ++ [stint_time_of track_data team is_wet temp_factor st].
Proof.
  unfold stint_step, stint_time_of, stint_laps_of.
  destruct (stint_params track_data team (effective_comp is_wet (fst st)))
    as [e | [b sl]]; [ discriminate | ].
  destruct (snd st =? 0)%Z; [ discriminate | ].
  destruct (prev_comp s); intros H; injection H as <-; reflexivity.
Qed.

Lemma run_stints_stint_times (track_data : TrackData) (team : string)
    (is_wet : bool) (temp_factor : Q) (strategy : Strategy)
    (s s' : SimState) :
  run_stints track_data team is_wet temp_factor strategy s = inr s' ->
  s_stint_times s'
  = s_stint_times s
    ++ map (stint_time_of track_data team is_wet temp_factor) strategy.
Proof.
  revert s. induction strategy as [|st rest IH]; intros s; simpl.
  - intros H. injection H as <-. now rewrite app_nil_r.
  - destruct (stint_step track_data team is_wet temp_factor s st)
      as [e | s1] eqn:E; [ discriminate | ].
    intros H. rewrite (IH _ H), (stint_step_stint_times _ _ _ _ _ _ _ E).
    now rewrite <- app_assoc.
Qed.

Lemma effective_comp_intermediate (is_wet : bool) :
  effective_comp is_wet "INTERMEDIATE" = "INTERMEDIATE"%string.
Proof. unfold effective_comp. simpl. now rewrite andb_false_r. Qed.

Lemma effective_comp_wet (orig_comp : string) :
  effective_comp true orig_comp = "INTERMEDIATE"%string.
Proof.
  unfold effective_comp. simpl.
  destruct (String.eqb_spec orig_comp "INTERMEDIATE"); simpl; auto.
Qed.

Lemma effective_comp_dry (orig_comp : string) :
  effective_comp false orig_comp = orig_comp.
Proof. reflexivity. Qed.

Lemma resolved_intermediate (deg_models : DegModels) (track team : string) :
  stint_params (snd (resolve_track_data deg_models track team)) team
               "INTERMEDIATE"
  = inr (from_hard (resolved_team deg_models track team)).
Proof.
  apply stint_params_intermediate, resolve_get_team.
Qed.

Lemma intermediate_stint_runs (deg_models : DegModels)
    (track team : string) (is_wet : bool) (st : Stint) :
  fst st = "INTERMEDIATE"%string -> snd st <> 0%Z ->
  stint_runs (snd (resolve_track_data deg_models track team)) team is_wet st.
Proof.
  intros Hc Hl. split; [ | exact Hl ].
  rewrite Hc, effective_comp_intermediate, resolved_intermediate. eauto.
Qed.

(** C10.  A stint that is INTERMEDIATE in the plan itself is never read
    from the table, in any weather: its parameters are those of the HARD
    entry of the resolved team, [base + 3.0] and [slope * 1.5], or
    [95.0] and [0.03] when that team has no HARD entry.  Such a stint is
    simulated, not rejected: a valid plan made of INTERMEDIATE stints
    returns its analytics, each stint timed with these parameters. *)
Theorem intermediate_stint_derived_from_hard (deg_models : DegModels)
    (track team : string) (weather : Weather) (strategy : Strategy)
    (total_laps : Z) :
  Dict.get track_laps_dict track = Some total_laps ->
  sum_laps strategy = total_laps ->
  Forall (fun st => fst st = "INTERMEDIATE"%string /\ snd st <> 0%Z)
         strategy ->
  let track_data := snd (resolve_track_data deg_models track team) in
  let p := from_hard (resolved_team deg_models track team) in
  stint_params track_data team "INTERMEDIATE" = inr p
  /\ (forall is_wet temp_factor s laps,
         laps <> 0%Z ->
         exists s',
           stint_step track_data team is_wet temp_factor s
                      ("INTERMEDIATE"%string, laps) = inr s'
           /\ s_stint_times s'
              = s_stint_times s
                ++ [py_sum (lap_times_of (fst p) (snd p * temp_factor) laps)])
  /\ (exists a,
         snd (simulate_strategy deg_models track team weather strategy)
         = inr a
         /\ stint_times a
            = map (fun st =>
                     py_sum (lap_times_of
                               (fst p) (snd p * temp_factor_of weather)
                               (snd st)))
                  strategy).
Proof.
  intros Hreg Hsum Hall track_data p.
  split; [ apply resolved_intermediate | split ].
  - intros is_wet temp_factor s laps Hl.
    destruct (proj2 (stint_step_runs track_data team is_wet temp_factor s
                                     ("INTERMEDIATE"%string, laps)))
      as [s' Hs'].
    { now apply intermediate_stint_runs. }
    exists s'. split; [ exact Hs' | ].
    rewrite (stint_step_stint_times _ _ _ _ _ _ _ Hs').
    unfold stint_time_of, stint_laps_of. cbn [fst snd].
    rewrite effective_comp_intermediate.
    unfold track_data. rewrite resolved_intermediate. reflexivity.
  - rewrite (simulate_strategy_valid _ _ _ _ _ _ Hreg Hsum).
    unfold simulate_valid. cbn [snd].
    destruct (proj2 (run_stints_runs track_data team (is_wet_of weather)
                       (temp_factor_of weather) strategy init_state))
      as [s' Hs'].
    { eapply Forall_impl; [ | exact Hall ].
      intros st [Hc Hl]. now apply intermediate_stint_runs. }
    fold track_data. rewrite Hs'. eexists. split; [ reflexivity | ].
    cbn [finish stint_times].
    rewrite (run_stints_stint_times _ _ _ _ _ _ _ Hs'). cbn [app init_state
      s_stint_times].
    apply map_ext_in. intros st Hin.
    rewrite Forall_forall in Hall. destruct (Hall st Hin) as [Hc _].
    unfold stint_time_of, stint_laps_of.
    rewrite Hc, effective_comp_intermediate.
    unfold track_data. rewrite resolved_intermediate. reflexivity.
Qed.

Lemma intermediate_stint_derived_from_hard_monza :
  is_wet_of (mkWeather 30 0.1) = false
  /\ stint_params
       (snd (resolve_track_data monza_with_inter "Monza" "Ferrari"))
       "Ferrari" "INTERMEDIATE"
     = inr (82 + 3.0, 0.25 * 1.5)
  /\ exists a,
      snd (simulate_strategy monza_with_inter "Monza" "Ferrari"
                             (mkWeather 30 0.1)
                             [("INTERMEDIATE"%string, 53%Z)]) = inr a.
Proof.
  assert (Hall : Forall (fun st : Stint =>
                           fst st = "INTERMEDIATE"%string /\ snd st <> 0%Z)
                        [("INTERMEDIATE"%string, 53%Z)]).
  { repeat constructor. discriminate. }
  destruct (intermediate_stint_derived_from_hard
              monza_with_inter "Monza" "Ferrari" (mkWeather 30 0.1)
              [("INTERMEDIATE"%string, 53%Z)] 53
              eq_refl eq_refl Hall) as [Hp [_ [a [Ha _]]]].
  split; [ reflexivity | split ].
  - exact Hp.
  - exists a. exact Ha.
Defined.

(* ================================================================== *)
(** ** Sparse tables *)

(** C1 (as amended).  The lookup of a dry compound, case by case.
    - Track and team stored: the team's own entry when it has the
      compound, [KeyError] when it has not.
    - Track stored, team not: the mean over the teams of the track that
      have the compound, [KeyError] when none has it.
    - Track not stored: the mean over every entry of the table for the
      compound (held under "Other", and averaged once more, over that
      single value, for another team), [KeyError] when the table has none.
    So the lookup fails exactly when the dictionary it ends up reading
    lacks the compound, whatever the rest of the table holds. *)
Theorem dry_lookup_resolution (deg_models : DegModels)
    (track team comp : string) :
  In comp DRY ->
  dry_lookup_spec deg_models track team comp
    (stint_params (snd (resolve_track_data deg_models track team))
                  team comp).
Proof.
  intros Hdry. unfold dry_lookup_spec.
  rewrite (stint_params_dry _ _ _ _ (resolve_get_team _ _ _)
                            (dry_not_intermediate _ Hdry)).
  unfold resolved_team.
  destruct (Dict.get deg_models track) as [track_data|].
  - destruct (Dict.get track_data team) as [team_data|].
    + destruct (Dict.get team_data comp); reflexivity.
    + rewrite (averaged_get _ _ Hdry).
      destruct (entries_for (Dict.values track_data) comp); reflexivity.
  - unfold track_fallback. simpl Dict.get.
    destruct (String.eqb team "Other").
    + rewrite (averaged_get _ _ Hdry).
      destruct (entries_for (all_teams deg_models) comp) as [|e es].
      * reflexivity.
      * eexists _, _. split; [ reflexivity | split; reflexivity ].
    + unfold Dict.values. simpl map.
      rewrite (averaged_get _ _ Hdry), entries_for_single.
      rewrite (averaged_get _ _ Hdry).
      destruct (entries_for (all_teams deg_models) comp) as [|e es].
      * reflexivity.
      * eexists _, _. split; [ reflexivity | ].
        split; apply np_mean_single.
Qed.

Lemma dry_lookup_resolution_monza :
  In "HARD"%string DRY
  /\ stint_params (snd (resolve_track_data sparse_monza "Monza" "McLaren"))
                  "McLaren" "HARD"
     = inr (np_mean [82], np_mean [0.25]).
Proof.
  assert (Hdry : In "HARD"%string DRY) by (simpl; auto).
  split; [ exact Hdry | ].
  exact (dry_lookup_resolution sparse_monza "Monza" "McLaren" "HARD" Hdry).
Defined.

(** The table holds HARD data (Mercedes'), yet the lookup for Ferrari, a
    stored team without HARD, raises, and so does the simulation of a
    valid dry plan that runs a HARD stint. *)
Lemma stored_team_without_compound_raises :
  In "HARD"%string DRY
  /\ entries_for (all_teams sparse_monza) "HARD" <> []
  /\ stint_params (snd (resolve_track_data sparse_monza "Monza" "Ferrari"))
                  "Ferrari" "HARD"
     = inl (KeyError "HARD")
  /\ snd (simulate_strategy sparse_monza "Monza" "Ferrari" dry_30
                            [("HARD"%string, 53%Z)])
     = inl (KeyError "HARD").
Proof.
  split; [ simpl; auto | ].
  split; [ discriminate | ].
  split; reflexivity.
Qed.

(** In dry weather a valid plan with laps in every stint is simulated
    exactly when each of its compounds resolves. *)
Lemma simulate_dry_returns_iff (deg_models : DegModels)
    (track team : string) (weather : Weather) (strategy : Strategy)
    (total_laps : Z) :
  Dict.get track_laps_dict track = Some total_laps ->
  sum_laps strategy = total_laps ->
  is_wet_of weather = false ->
  Forall (fun st => snd st <> 0%Z) strategy ->
  ((exists a,
       snd (simulate_strategy deg_models track team weather strategy)
       = inr a)
   <-> Forall (fun st =>
                 exists p,
                   stint_params
                     (snd (resolve_track_data deg_models track team))
                     team (fst st) = inr p) strategy).
Proof.
  intros Hreg Hsum Hdry Hlaps.
  rewrite (simulate_strategy_valid _ _ _ _ _ _ Hreg Hsum).
  rewrite simulate_valid_runs, Hdry.
  rewrite !Forall_forall in *. unfold stint_runs.
  split.
  - intros H st Hin. destruct (H st Hin) as [Hp _]. exact Hp.
  - intros H st Hin. split; [ exact (H st Hin) | exact (Hlaps st Hin) ].
Qed.

(* ================================================================== *)
(** ** The table after a simulation *)

Lemma simulate_table_after (deg_models : DegModels) (track team : string)
    (weather : Weather) (strategy : Strategy) (total_laps : Z) :
  Dict.get track_laps_dict track = Some total_laps ->
  sum_laps strategy = total_laps ->
  fst (simulate_strategy deg_models track team weather strategy)
  = fst (resolve_track_data deg_models track team).
Proof.
  intros Hreg Hsum.
  now rewrite (simulate_strategy_valid _ _ _ _ _ _ Hreg Hsum).
Qed.

(** The fallbacks leave the table alone exactly when the track is not
    stored or the team is stored under it; the team fallback of a stored
    track is written into the table. *)
Lemma resolve_table_unchanged_iff (deg_models : DegModels)
    (track team : string) :
  fst (resolve_track_data deg_models track team) = deg_models
  <-> match Dict.get deg_models track with
      | None => True
      | Some track_data => Dict.mem track_data team = true
      end.
Proof.
  unfold resolve_track_data.
  destruct (Dict.get deg_models track) as [track_data|] eqn:Htrack;
    [ | simpl; tauto ].
  destruct (Dict.mem track_data team) eqn:Hteam; [ simpl; tauto | ].
  cbn [fst]. split; [ | discriminate ].
  intros Heq.
  pose proof (get_set_same deg_models track
                           (team_fallback track_data team)) as Hget.
  rewrite Heq, Htrack in Hget. injection Hget as Hget.
  unfold team_fallback in Hget. rewrite Hteam in Hget.
  apply mem_false_get in Hteam.
  symmetry in Hget. now apply set_fresh_neq in Hget.
Qed.

(** C3 (the code at the failing input).  Simulating McLaren at Monza on a
    table that stores Monza for Ferrari and Mercedes only leaves a table
    that is not the one before the call: it now has a McLaren entry under
    Monza. *)
Theorem simulate_writes_team_fallback_into_table :
  Dict.get monza_two_teams "Monza"
  = Some [("Ferrari"%string, ferrari_soft_hard);
          ("Mercedes"%string, mercedes_soft)]
  /\ Dict.get (fst (simulate_strategy monza_two_teams "Monza" "McLaren"
                                      dry_30 [("SOFT"%string, 53%Z)]))
              "Monza"
     = Some [("Ferrari"%string, ferrari_soft_hard);
             ("Mercedes"%string, mercedes_soft);
             ("McLaren"%string,
              [("SOFT"%string, mkEntry (np_mean [80; 84])
                                       (np_mean [0.5; 1.5]));
               ("HARD"%string, mkEntry (np_mean [82]) (np_mean [0.25]))])]
  /\ fst (simulate_strategy monza_two_teams "Monza" "McLaren"
                            dry_30 [("SOFT"%string, 53%Z)])
     <> monza_two_teams.
Proof.
  split; [ reflexivity | split; [ reflexivity | ] ].
  intros Heq.
  assert (H : Dict.get (fst (simulate_strategy monza_two_teams "Monza"
                               "McLaren" dry_30 [("SOFT"%string, 53%Z)]))
                       "Monza"
              = Dict.get monza_two_teams "Monza")
    by now rewrite Heq.
  discriminate H.
Qed.

(** The write is seen by later calls.  Qatar is not stored, so its SOFT
    laps take the mean over the table: (80 + 84 + 90) / 3 s, 4826 s for the
    57 laps.  Once McLaren has been simulated at Monza, the table holds a
    fourth SOFT entry, McLaren's 82 s, the mean is 84 s and the same call
    returns 4788 s. *)
Lemma table_write_changes_later_simulation :
  exists first later,
    snd (simulate_strategy two_tracks "Qatar" "Other" dry_30
                           [("SOFT"%string, 57%Z)]) = inr first
    /\ snd (simulate_strategy
              (fst (simulate_strategy two_tracks "Monza" "McLaren" dry_30
                                      [("SOFT"%string, 53%Z)]))
              "Qatar" "Other" dry_30 [("SOFT"%string, 57%Z)]) = inr later
    /\ total_time first == 4826
    /\ total_time later == 4788.
Proof.
  eexists. eexists.
  split; [ vm_compute; reflexivity | ].
  split; [ vm_compute; reflexivity | ].
  split; reflexivity.
Qed.

(* ================================================================== *)
(** ** The optimiser on a sparse table *)

(** Running the fallbacks on the table they have left changes nothing and
    binds [track_data] to the same dictionary. *)
Lemma resolve_again (deg_models : DegModels) (track team : string) :
  resolve_track_data (fst (resolve_track_data deg_models track team))
                     track team
  = resolve_track_data deg_models track team.
Proof.
  unfold resolve_track_data at 2 3.
  destruct (Dict.get deg_models track) as [track_data|] eqn:Htrack.
  - destruct (Dict.mem track_data team) eqn:Hteam; cbn [fst].
    + unfold resolve_track_data. now rewrite Htrack, Hteam.
    + unfold resolve_track_data. rewrite get_set_same.
      assert (Hmem : Dict.mem (team_fallback track_data team) team = true).
      { apply mem_true_get. rewrite team_fallback_get. eauto. }
      rewrite Hmem. f_equal.
      unfold team_fallback at 1. now rewrite Hmem.
  - cbn [fst]. unfold resolve_track_data. now rewrite Htrack.
Qed.

Lemma table_of_resolve (deg_models t : DegModels) (track team : string) :
  table_of deg_models track team t ->
  fst (resolve_track_data t track team)
  = fst (resolve_track_data deg_models track team)
  /\ snd (resolve_track_data t track team)
     = snd (resolve_track_data deg_models track team).
Proof.
  intros [-> | ->]; [ split; reflexivity | ].
  now rewrite resolve_again.
Qed.

Lemma simulate_table_of (deg_models t : DegModels) (track team : string)
    (weather : Weather) (strategy : Strategy) :
  table_of deg_models track team t ->
  table_of deg_models track team
           (fst (simulate_strategy t track team weather strategy)).
Proof.
  intros Ht. unfold simulate_strategy.
  destruct (Dict.get track_laps_dict track) as [total_laps|];
    [ | exact Ht ].
  destruct (negb (sum_laps strategy =? total_laps)%Z); [ exact Ht | ].
  destruct (table_of_resolve _ _ _ _ Ht) as [Hfst _].
  destruct (resolve_track_data t track team) as [t' track_data].
  cbn [fst] in *. right. exact Hfst.
Qed.

Lemma try_candidates_table_of (deg_models t : DegModels)
    (track team : string) (weather : Weather) (cands : list Strategy)
    (best : Best) :
  table_of deg_models track team t ->
  table_of deg_models track team
           (fst (try_candidates t track team weather cands best)).
Proof.
  revert t best. induction cands as [|strat rest IH]; intros t best Ht.
  - exact Ht.
  - cbn [try_candidates].
    pose proof (simulate_table_of _ _ _ _ weather strat Ht) as Ht'.
    destruct (simulate_strategy t track team weather strat) as [t' r].
    apply IH. exact Ht'.
Qed.

(** The optimiser returns a plan whenever MEDIUM (INTERMEDIATE in a wet
    race) resolves for the team: the fallback plan is then simulated. *)
Lemma optimize_returns_when_medium_resolves (deg_models : DegModels)
    (track team : string) (weather : Weather) (total_laps : Z) :
  Dict.get track_laps_dict track = Some total_laps ->
  (exists p,
      stint_params (snd (resolve_track_data deg_models track team)) team
                   (effective_comp (is_wet_of weather) "MEDIUM") = inr p) ->
  exists r,
    snd (optimize_strategy deg_models track team weather) = inr r.
Proof.
  intros Hreg Hmedium. unfold optimize_strategy. rewrite Hreg.
  pose proof (try_candidates_table_of deg_models deg_models track team
                weather (candidates total_laps) None (or_introl eq_refl))
    as Ht.
  destruct (try_candidates deg_models track team weather
                           (candidates total_laps) None)
    as [t [[[best_strat best_time] best_analytics]|]].
  - cbn [snd]. eauto.
  - cbn [fst] in Ht.
    destruct (table_of_resolve _ _ _ _ Ht) as [_ Hsnd].
    assert (Hsum : sum_laps [("MEDIUM"%string, total_laps)] = total_laps).
    { unfold sum_laps. cbn [fold_left snd]. lia. }
    pose proof (simulate_strategy_valid t track team weather _ _ Hreg Hsum)
      as Hsim.
    destruct (proj2 (simulate_valid_runs t track team weather
                       [("MEDIUM"%string, total_laps)])) as [a Ha].
    { rewrite Hsnd. constructor; [ | constructor ].
      split; [ exact Hmedium | ].
      apply registry_bounds in Hreg. cbn [snd]. lia. }
    rewrite <- Hsim in Ha.
    destruct (simulate_strategy t track team weather
                                [("MEDIUM"%string, total_laps)])
      as [t' [e | a']]; [ discriminate Ha | ].
    cbn [snd]. eauto.
Qed.

(** In a wet race every stint runs on INTERMEDIATE, which always resolves:
    the optimiser returns a plan for every track of the registry. *)
Lemma optimize_returns_when_wet (deg_models : DegModels)
    (track team : string) (weather : Weather) (total_laps : Z) :
  Dict.get track_laps_dict track = Some total_laps ->
  is_wet_of weather = true ->
  exists r,
    snd (optimize_strategy deg_models track team weather) = inr r.
Proof.
  intros Hreg Hwet.
  apply (optimize_returns_when_medium_resolves _ _ _ _ _ Hreg).
  rewrite Hwet, effective_comp_wet, resolved_intermediate. eauto.
Qed.

(** C5 (the code at the failing input).  Ferrari is stored at Monza with
    SOFT data only.  In dry weather every plan of the menu ends on HARD
    and is skipped, and the all-MEDIUM fallback plan raises [KeyError]:
    the optimiser raises, although the table holds MEDIUM and HARD data
    (Mercedes'). *)
Theorem optimize_raises_on_sparse_team :
  Dict.get track_laps_dict "Monza" = Some 53%Z
  /\ optimize_strategy sparse_monza "Monza" "Ferrari" dry_30
     = (sparse_monza, inl (KeyError "MEDIUM")).
Proof. split; reflexivity. Qed.

(* ================================================================== *)
(** ** Wet races *)

Lemma stint_step_same_outcome (track_data : TrackData) (team : string)
    (temp_factor : Q) (w1 w2 : bool) (s1 s2 : SimState) (st1 st2 : Stint) :
  erase_prev s1 = erase_prev s2 ->
  effective_comp w1 (fst st1) = effective_comp w2 (fst st2) ->
  snd st1 = snd st2 ->
  same_outcome (stint_step track_data team w1 temp_factor s1 st1)
               (stint_step track_data team w2 temp_factor s2 st2).
Proof.
  intros Hs Hc Hl. unfold stint_step. rewrite Hc, Hl.
  destruct (stint_params track_data team (effective_comp w2 (fst st2)))
    as [e | [b sl]]; [ reflexivity | ].
  destruct (snd st2 =? 0)%Z; [ reflexivity | ].
  destruct s1 as [t1 a1 b1 c1 d1 e1 p1 l1], s2 as [t2 a2 b2 c2 d2 e2 p2 l2].
  unfold erase_prev in Hs. cbn in Hs.
  injection Hs as -> -> -> -> -> -> Hp ->.
  cbn. destruct p1, p2; try discriminate; reflexivity.
Qed.

Lemma run_stints_wet_as_intermediate (track_data : TrackData)
    (team : string) (temp_factor : Q) (strategy : Strategy)
    (s1 s2 : SimState) :
  erase_prev s1 = erase_prev s2 ->
  same_outcome
    (run_stints track_data team true temp_factor strategy s1)
    (run_stints track_data team false temp_factor
                (all_intermediate strategy) s2).
Proof.
  revert s1 s2. induction strategy as [|st rest IH]; intros s1 s2 Hs.
  - exact Hs.
  - cbn [all_intermediate map run_stints].
    pose proof (stint_step_same_outcome track_data team temp_factor
                  true false s1 s2 st ("INTERMEDIATE"%string, snd st) Hs)
      as Hstep.
    cbn [fst snd] in Hstep.
    rewrite effective_comp_wet, effective_comp_dry in Hstep.
    specialize (Hstep eq_refl eq_refl).
    destruct (stint_step track_data team true temp_factor s1 st) as [e1|s1'];
      destruct (stint_step track_data team false temp_factor s2
                           ("INTERMEDIATE"%string, snd st)) as [e2|s2'];
      try contradiction.
    + exact Hstep.
    + apply IH. exact Hstep.
Qed.

Lemma sum_laps_all_intermediate (strategy : Strategy) :
  sum_laps (all_intermediate strategy) = sum_laps strategy.
Proof.
  induction strategy as [|st rest IH]; [ reflexivity | ].
  cbn [all_intermediate map]. rewrite !sum_laps_cons.
  fold (all_intermediate rest). now rewrite IH.
Qed.

Lemma simulate_wet_as_intermediate (deg_models : DegModels)
    (track team : string) (temp : Q) (strategy : Strategy) :
  simulate_strategy deg_models track team (mkWeather temp 0.5) strategy
  = (fst (simulate_strategy deg_models track team (mkWeather temp 0)
                            (all_intermediate strategy)),
     match snd (simulate_strategy deg_models track team (mkWeather temp 0)
                                  (all_intermediate strategy)) with
     | inl e => inl e
     | inr a => inr (scaled_total a)
     end).
Proof.
  unfold simulate_strategy. rewrite sum_laps_all_intermediate.
  destruct (Dict.get track_laps_dict track) as [total_laps|];
    [ | reflexivity ].
  destruct (negb (sum_laps strategy =? total_laps)%Z); [ reflexivity | ].
  change (is_wet_of (mkWeather temp 0.5)) with true.
  change (is_wet_of (mkWeather temp 0)) with false.
  change (temp_factor_of (mkWeather temp 0.5))
    with (temp_factor_of (mkWeather temp 0)).
  destruct (resolve_track_data deg_models track team)
    as [deg_models' track_data].
  cbn [fst snd].
  pose proof (run_stints_wet_as_intermediate track_data team
                (temp_factor_of (mkWeather temp 0)) strategy
                init_state init_state eq_refl) as H.
  destruct (run_stints track_data team true _ strategy init_state)
    as [e1|s1];
    destruct (run_stints track_data team false _
                         (all_intermediate strategy) init_state)
    as [e2|s2]; try contradiction.
  - cbn in H. now subst.
  - cbn in H. unfold erase_prev in H.
    destruct s1, s2. cbn in H.
    injection H as -> -> -> -> -> -> _ ->. reflexivity.
Qed.

(** C6 (as amended).  With [rain_prob = 0.5] every stint is simulated on
    INTERMEDIATE, whose parameters come from the HARD entry of the resolved
    team ([base + 3.0], [slope * 1.5]) or are [95.0] and [0.03] without
    one.  The wet simulation of a plan is the dry simulation
    ([rain_prob = 0]) of the plan with every compound replaced by
    INTERMEDIATE, with [total_time] multiplied by 1.1 and everything else,
    errors and the table included, the same. *)
Theorem wet_total_is_scaled_intermediate_total (deg_models : DegModels)
    (track team : string) (temp : Q) (strategy : Strategy) :
  is_wet_of (mkWeather temp 0.5) = true
  /\ is_wet_of (mkWeather temp 0) = false
  /\ (forall comp, effective_comp true comp = "INTERMEDIATE"%string)
  /\ stint_params (snd (resolve_track_data deg_models track team)) team
                  "INTERMEDIATE"
     = inr (from_hard (resolved_team deg_models track team))
  /\ simulate_strategy deg_models track team (mkWeather temp 0.5) strategy
     = (fst (simulate_strategy deg_models track team (mkWeather temp 0)
                               (all_intermediate strategy)),
        match snd (simulate_strategy deg_models track team
                                     (mkWeather temp 0)
                                     (all_intermediate strategy)) with
        | inl e => inl e
        | inr a => inr (scaled_total a)
        end).
Proof.
  split; [ reflexivity | split; [ reflexivity | split ] ].
  - exact effective_comp_wet.
  - split; [ apply resolved_intermediate | ].
    apply simulate_wet_as_intermediate.
Qed.

(** Dry, 53 SOFT laps take 53 * 80 = 4240 s.  Wet, the 53 laps are run on
    INTERMEDIATE at 82 + 3 = 85 s, and the total is 53 * 85 * 1.1 = 4955.5 s,
    not 1.1 * 4240 = 4664 s. *)
Lemma wet_total_is_not_scaled_dry_total :
  exists dry wet,
    snd (simulate_strategy flat_monza "Monza" "Ferrari" dry_30
                           [("SOFT"%string, 53%Z)]) = inr dry
    /\ snd (simulate_strategy flat_monza "Monza" "Ferrari" wet_30
                              [("SOFT"%string, 53%Z)]) = inr wet
    /\ total_time dry == 4240
    /\ total_time wet == 4955.5
    /\ ~ total_time wet == 1.1 * total_time dry.
Proof.
  eexists. eexists.
  split; [ vm_compute; reflexivity | ].
  split; [ vm_compute; reflexivity | ].
  split; [ reflexivity | ].
  split; [ reflexivity | ].
  unfold Qeq. vm_compute. discriminate.
Qed.

(* ================================================================== *)
(** ** Running sums *)

Lemma fold_left_Qplus (xs : list Q) (c : Q) :
  fold_left Qplus xs c == c + py_sum xs.
Proof.
  unfold py_sum. revert c.
  induction xs as [|x xs IH]; intros c; simpl.
  - ring.
  - rewrite IH, (IH (0 + x)). ring.
Qed.

Lemma py_sum_app (xs ys : list Q) :
  py_sum (xs ++ ys) == py_sum xs + py_sum ys.
Proof.
  unfold py_sum at 1. rewrite fold_left_app.
  fold (py_sum xs). apply fold_left_Qplus.
Qed.

Lemma cum_append_length (c : Q) (xs : list Q) :
  length (cum_append c xs) = length xs.
Proof.
  revert c. induction xs as [|x xs IH]; intros c; simpl; auto.
Qed.

Lemma last_default (l : list Q) (d d' : Q) :
  l <> [] -> last l d = last l d'.
Proof.
  induction l as [|x l IH]; [ contradiction | intros _ ].
  destruct l as [|y l]; [ reflexivity | ].
  change (last (y :: l) d = last (y :: l) d'). apply IH. discriminate.
Qed.

Lemma cum_append_last (c : Q) (xs : list Q) :
  last (cum_append c xs) c = fold_left Qplus xs c.
Proof.
  revert c. induction xs as [|x xs IH]; intros c; [ reflexivity | ].
  cbn [cum_append fold_left]. rewrite <- IH.
  destruct xs as [|y xs]; [ reflexivity | ].
  change (last (cum_append (c + x) (y :: xs)) c
          = last (cum_append (c + x) (y :: xs)) (c + x)).
  apply last_default. discriminate.
Qed.

(** Each appended value is the one before it plus the time of the lap. *)
Lemma cum_append_nth (c : Q) (xs : list Q) (j : nat) :
  (j < length xs)%nat ->
  nth j (cum_append c xs) 0
  = match j with
    | O => c
    | S j' => nth j' (cum_append c xs) 0
    end + nth j xs 0.
Proof.
  revert c j. induction xs as [|x xs IH]; intros c j Hj; simpl in Hj.
  - lia.
  - destruct j as [|j]; [ reflexivity | ].
    cbn [cum_append nth]. rewrite IH by lia.
    destruct j; reflexivity.
Qed.

Lemma add_to_last_app (l xs : list Q) (d : Q) :
  xs <> [] -> add_to_last (l ++ xs) d = l ++ add_to_last xs d.
Proof.
  intros Hne. induction l as [|y l IH]; [ reflexivity | ].
  cbn [app add_to_last]. rewrite IH.
  destruct (l ++ xs) eqn:E; [ | reflexivity ].
  apply app_eq_nil in E. destruct E. contradiction.
Qed.

Lemma add_to_last_length (xs : list Q) (d : Q) :
  length (add_to_last xs d) = length xs.
Proof.
  induction xs as [|x xs IH]; [ reflexivity | ].
  destruct xs as [|y xs]; [ reflexivity | ].
  cbn [add_to_last length] in *. now rewrite IH.
Qed.

Lemma add_to_last_last (xs : list Q) (d x0 : Q) :
  xs <> [] -> last (add_to_last xs d) x0 = last xs x0 + d.
Proof.
  intros Hne. induction xs as [|x xs IH]; [ contradiction | ].
  destruct xs as [|y xs]; [ reflexivity | ].
  change (add_to_last (x :: y :: xs) d) with (x :: add_to_last (y :: xs) d).
  change (last (x :: y :: xs) x0) with (last (y :: xs) x0).
  rewrite <- IH by discriminate.
  destruct (add_to_last (y :: xs) d) eqn:E; [ | reflexivity ].
  apply (f_equal (@length Q)) in E.
  rewrite add_to_last_length in E. discriminate.
Qed.

(** [add_to_last] changes the last position only. *)
Lemma add_to_last_nth (xs : list Q) (d : Q) (j : nat) :
  (j < length xs)%nat ->
  nth j (add_to_last xs d) 0
  = if (S j =? length xs)%nat then nth j xs 0 + d else nth j xs 0.
Proof.
  revert j. induction xs as [|x xs IH]; intros j Hj; simpl in Hj; [ lia | ].
  destruct xs as [|y xs].
  - destruct j; [ reflexivity | simpl in Hj; lia ].
  - change (add_to_last (x :: y :: xs) d)
      with (x :: add_to_last (y :: xs) d).
    destruct j as [|j]; [ reflexivity | ].
    cbn [nth]. rewrite IH by (simpl in *; lia). reflexivity.
Qed.

Lemma py_range_length (n : Z) : length (py_range n) = Z.to_nat n.
Proof. unfold py_range. now rewrite length_map, length_seq. Qed.

Lemma lap_times_of_length (b a : Q) (laps : Z) :
  length (lap_times_of b a laps) = Z.to_nat laps.
Proof. unfold lap_times_of. now rewrite length_map, py_range_length. Qed.

(** Lap [j] of a stint, counted from 0, takes [base + j * adjusted_slope]. *)
Lemma lap_times_of_nth (b a : Q) (laps : Z) (j : nat) :
  (j < Z.to_nat laps)%nat ->
  nth j (lap_times_of b a laps) 0 = b + inject_Z (Z.of_nat j) * a.
Proof.
  intros Hj. unfold lap_times_of, py_range.
  rewrite map_map.
  set (f := fun x : nat => b + inject_Z (Z.of_nat x) * a).
  change (nth j (map f (seq 0 (Z.to_nat laps))) 0 = f j).
  rewrite (nth_indep _ 0 (f O)) by now rewrite length_map, length_seq.
  rewrite (map_nth f), seq_nth by exact Hj. reflexivity.
Qed.

Lemma lap_times_of_nonneg (b a : Q) (laps : Z) :
  0 <= b -> 0 <= a -> Forall (fun t => 0 <= t) (lap_times_of b a laps).
Proof.
  intros Hb Ha. unfold lap_times_of, py_range.
  rewrite map_map. apply Forall_forall. intros t Hin.
  apply in_map_iff in Hin. destruct Hin as [n [<- _]].
  assert (0 <= inject_Z (Z.of_nat n)).
  { change 0 with (inject_Z 0). rewrite <- Zle_Qle. lia. }
  nra.
Qed.

Lemma nondecreasing_from_app (x : Q) (l1 l2 : list Q) :
  nondecreasing_from x (l1 ++ l2)
  <-> nondecreasing_from x l1 /\ nondecreasing_from (last l1 x) l2.
Proof.
  revert x. induction l1 as [|y l1 IH]; intros x.
  - simpl. tauto.
  - cbn [app nondecreasing_from]. rewrite IH.
    destruct l1 as [|z l1]; [ simpl; tauto | ].
    change (last (y :: z :: l1) x) with (last (z :: l1) x).
    rewrite (last_default (z :: l1) x y) by discriminate. tauto.
Qed.

Lemma nondecreasing_from_cum_append (c : Q) (xs : list Q) :
  Forall (fun t => 0 <= t) xs -> nondecreasing_from c (cum_append c xs).
Proof.
  revert c. induction xs as [|x xs IH]; intros c Hxs; [ exact I | ].
  inversion Hxs as [|? ? Hx Hrest]; subst.
  cbn [cum_append nondecreasing_from]. split; [ lra | now apply IH ].
Qed.

Lemma nondecreasing_from_add_to_last (x d : Q) (l : list Q) :
  0 <= d -> nondecreasing_from x l -> nondecreasing_from x (add_to_last l d).
Proof.
  intros Hd. revert x. induction l as [|y l IH]; intros x H; [ exact I | ].
  destruct l as [|z l].
  - simpl in *. split; [ lra | exact I ].
  - change (add_to_last (y :: z :: l) d) with (y :: add_to_last (z :: l) d).
    destruct H as [Hxy H]. split; [ exact Hxy | now apply IH ].
Qed.

(* ================================================================== *)
(** ** The state after a stint *)

(** What one iteration that does not raise leaves in the state. *)
Lemma stint_step_inr (track_data : TrackData) (team : string)
    (is_wet : bool) (temp_factor : Q) (s s' : SimState) (st : Stint) :
  stint_step track_data team is_wet temp_factor s st = inr s' ->
  let lap_times := stint_laps_of track_data team is_wet temp_factor st in
  let cum1 := s_cum_times s ++ cum_append (current_cum s) lap_times in
  snd st <> 0%Z
  /\ length lap_times = Z.to_nat (snd st)
  /\ prev_comp s' = Some (fst st)
  /\ match prev_comp s with
     | None =>
         s_cum_times s' = cum1
         /\ current_cum s' = fold_left Qplus lap_times (current_cum s)
         /\ s_total_time s' = s_total_time s + py_sum lap_times
     | Some _ =>
         s_cum_times s' = add_to_last cum1 pit_time
         /\ current_cum s'
            = fold_left Qplus lap_times (current_cum s) + pit_time
         /\ s_total_time s' = s_total_time s + py_sum lap_times + pit_time
     end.
Proof.
  unfold stint_step, stint_laps_of.
  destruct (stint_params track_data team (effective_comp is_wet (fst st)))
    as [e | [b sl]]; [ discriminate | ].
  destruct (Z.eqb_spec (snd st) 0) as [Hz | Hnz]; [ discriminate | ].
  rewrite lap_times_of_length.
  destruct (prev_comp s); intros H; injection H as <-; cbn;
    repeat split; auto.
Qed.

Lemma run_stints_app (track_data : TrackData) (team : string)
    (is_wet : bool) (temp_factor : Q) (done rest : Strategy)
    (s s' : SimState) :
  run_stints track_data team is_wet temp_factor (done ++ rest) s = inr s' ->
  exists s1,
    run_stints track_data team is_wet temp_factor done s = inr s1
    /\ run_stints track_data team is_wet temp_factor rest s1 = inr s'.
Proof.
  revert s. induction done as [|st done IH]; intros s; cbn [app run_stints].
  - eauto.
  - destruct (stint_step track_data team is_wet temp_factor s st)
      as [e | s0]; [ discriminate | apply IH ].
Qed.

(** [prev_comp] is [None] before the first stint only. *)
Lemma run_stints_prev_comp (track_data : TrackData) (team : string)
    (is_wet : bool) (temp_factor : Q) (strategy : Strategy)
    (s s' : SimState) :
  run_stints track_data team is_wet temp_factor strategy s = inr s' ->
  prev_comp s' = match rev strategy with
                 | [] => prev_comp s
                 | st :: _ => Some (fst st)
                 end.
Proof.
  revert s. induction strategy as [|st rest IH]; intros s; cbn [run_stints].
  - intros H. now injection H as <-.
  - destruct (stint_step track_data team is_wet temp_factor s st)
      as [e | s1] eqn:E; [ discriminate | ].
    intros H. rewrite (IH _ H). cbn [rev].
    destruct (stint_step_inr _ _ _ _ _ _ _ E) as [_ [_ [Hp _]]].
    destruct (rev rest) as [|x r]; [ exact Hp | reflexivity ].
Qed.

Lemma last_nth (l : list Q) (d : Q) :
  last l d = nth (length l - 1) l d.
Proof.
  induction l as [|x l IH]; [ reflexivity | ].
  destruct l as [|y l]; [ reflexivity | ].
  change (last (y :: l) d = nth (length l) (y :: l) d).
  rewrite IH. cbn [length].
  now replace (S (length l) - 1)%nat with (length l) by lia.
Qed.

Lemma cum_shape_init : cum_shape init_state 0.
Proof. constructor; try reflexivity. Qed.

Lemma app_nonempty_last (l xs : list Q) (d : Q) :
  xs <> [] -> last (l ++ xs) d = last xs d.
Proof.
  intros Hne. induction l as [|y l IH]; [ reflexivity | ].
  cbn [app]. destruct (l ++ xs) eqn:E.
  - apply app_eq_nil in E. destruct E. contradiction.
  - rewrite <- E, <- IH. rewrite E. reflexivity.
Qed.

Lemma cum_append_nonempty (c : Q) (xs : list Q) :
  xs <> [] -> cum_append c xs <> [].
Proof. destruct xs; [ contradiction | discriminate ]. Qed.

Lemma stint_step_shape (track_data : TrackData) (team : string)
    (is_wet : bool) (temp_factor : Q) (s s' : SimState) (st : Stint)
    (laps_done : Z) :
  (0 < snd st)%Z ->
  cum_shape s laps_done ->
  stint_step track_data team is_wet temp_factor s st = inr s' ->
  cum_shape s' (laps_done + snd st).
Proof.
  intros Hpos [Hdone Hlen Hhead Hlast Htotal] Hstep.
  apply stint_step_inr in Hstep. cbv zeta in Hstep.
  destruct Hstep as [_ [HL [_ Hrest]]].
  set (L := stint_laps_of track_data team is_wet temp_factor st) in *.
  assert (HLne : L <> []).
  { intros E. rewrite E in HL. simpl in HL. lia. }
  assert (HXne : cum_append (current_cum s) L <> [])
    by now apply cum_append_nonempty.
  assert (Hhead1 : forall xs, nth 0 (s_cum_times s ++ xs) 0 = 0).
  { intros xs. rewrite app_nth1 by lia. exact Hhead. }
  destruct (prev_comp s).
  - destruct Hrest as [Hc [Hcur Htot]].
    rewrite add_to_last_app in Hc by exact HXne.
    constructor.
    + lia.
    + rewrite Hc, length_app, add_to_last_length, cum_append_length.
      rewrite Hlen, HL. lia.
    + rewrite Hc. apply Hhead1.
    + rewrite Hc, Hcur.
      rewrite app_nonempty_last.
      * rewrite add_to_last_last by exact HXne.
        now rewrite (last_default _ 0 (current_cum s)), cum_append_last.
      * intros E. apply (f_equal (@length Q)) in E.
        rewrite add_to_last_length, cum_append_length in E.
        rewrite HL in E. simpl in E. lia.
    + rewrite Hcur, Htot, fold_left_Qplus, Htotal. reflexivity.
  - destruct Hrest as [Hc [Hcur Htot]].
    constructor.
    + lia.
    + rewrite Hc, length_app, cum_append_length, Hlen, HL. lia.
    + rewrite Hc. apply Hhead1.
    + rewrite Hc, Hcur, app_nonempty_last by exact HXne.
      now rewrite (last_default _ 0 (current_cum s)), cum_append_last.
    + rewrite Hcur, Htot, fold_left_Qplus, Htotal. reflexivity.
Qed.

Lemma run_stints_shape (track_data : TrackData) (team : string)
    (is_wet : bool) (temp_factor : Q) (strategy : Strategy)
    (s s' : SimState) (laps_done : Z) :
  Forall (fun st => (0 < snd st)%Z) strategy ->
  cum_shape s laps_done ->
  run_stints track_data team is_wet temp_factor strategy s = inr s' ->
  cum_shape s' (laps_done + sum_laps strategy).
Proof.
  revert s laps_done.
  induction strategy as [|st rest IH]; intros s laps_done Hpos Hs;
    cbn [run_stints].
  - intros H. injection H as <-. now rewrite sum_laps_nil, Z.add_0_r.
  - inversion Hpos as [|? ? Hst Hrest]; subst.
    destruct (stint_step track_data team is_wet temp_factor s st)
      as [e | s1] eqn:E; [ discriminate | ].
    intros H. rewrite sum_laps_cons, Z.add_assoc.
    apply (IH s1); try assumption.
    eapply stint_step_shape; eassumption.
Qed.

(* ================================================================== *)
(** ** The cumulative series *)

Lemma nondecreasing_from_nth (x : Q) (l : list Q) (j : nat) :
  nondecreasing_from x l -> (j < length l)%nat -> x <= nth j l 0.
Proof.
  revert x j. induction l as [|y l IH]; intros x j H Hj; simpl in Hj.
  - lia.
  - destruct H as [Hxy H]. destruct j as [|j]; [ exact Hxy | ].
    cbn [nth]. apply Qle_trans with y; [ exact Hxy | ].
    apply IH; [ exact H | lia ].
Qed.

Lemma nondecreasing_nth (l : list Q) (i j : nat) :
  nondecreasing l -> (i <= j < length l)%nat -> nth i l 0 <= nth j l 0.
Proof.
  revert i j. induction l as [|x l IH]; intros i j H Hij; simpl in Hij.
  - lia.
  - destruct i as [|i].
    + destruct j as [|j]; [ apply Qle_refl | ].
      cbn [nth]. apply nondecreasing_from_nth; [ exact H | lia ].
    + destruct j as [|j]; [ lia | ].
      cbn [nth]. apply IH; [ | lia ].
      destruct l as [|y l]; [ exact I | ]. now destruct H.
Qed.

Lemma last_cons (x d : Q) (l : list Q) : last (x :: l) d = last l x.
Proof.
  destruct l as [|y l]; [ reflexivity | ].
  change (last (y :: l) d = last (y :: l) x).
  apply last_default. discriminate.
Qed.

Lemma nondecreasing_app (l xs : list Q) :
  l <> [] ->
  (nondecreasing (l ++ xs)
   <-> nondecreasing l /\ nondecreasing_from (last l 0) xs).
Proof.
  destruct l as [|x l]; [ contradiction | intros _ ].
  cbn [app nondecreasing]. rewrite nondecreasing_from_app.
  now rewrite (last_cons x 0 l).
Qed.

Lemma pit_time_nonneg : 0 <= pit_time.
Proof. unfold pit_time. lra. Qed.

Lemma py_max0_nonneg (x : Q) : 0 <= py_max0 x.
Proof.
  unfold py_max0. destruct (Qle_bool x 0) eqn:E; [ lra | ].
  destruct (Qlt_le_dec 0 x) as [H | H]; [ lra | ].
  apply Qle_bool_iff in H. congruence.
Qed.

Lemma temp_factor_ge_1 (weather : Weather) : 1 <= temp_factor_of weather.
Proof.
  unfold temp_factor_of.
  pose proof (py_max0_nonneg ((track_temp weather - 30) / 100)). lra.
Qed.

Lemma stint_laps_of_nonneg (track_data : TrackData) (team : string)
    (is_wet : bool) (temp_factor : Q) (st : Stint) :
  0 <= temp_factor ->
  nonneg_params track_data team is_wet st ->
  Forall (fun t => 0 <= t)
         (stint_laps_of track_data team is_wet temp_factor st).
Proof.
  intros Htf Hnn. unfold stint_laps_of. unfold nonneg_params in Hnn.
  destruct (stint_params track_data team (effective_comp is_wet (fst st)))
    as [e | [b sl]]; [ constructor | ].
  destruct (Hnn b sl eq_refl) as [Hb Hsl].
  apply lap_times_of_nonneg; [ exact Hb | nra ].
Qed.

Lemma stint_step_sorted (track_data : TrackData) (team : string)
    (is_wet : bool) (temp_factor : Q) (s s' : SimState) (st : Stint)
    (laps_done : Z) :
  0 <= temp_factor ->
  (0 < snd st)%Z ->
  nonneg_params track_data team is_wet st ->
  cum_shape s laps_done ->
  nondecreasing (s_cum_times s) ->
  stint_step track_data team is_wet temp_factor s st = inr s' ->
  nondecreasing (s_cum_times s').
Proof.
  intros Htf Hpos Hnn [Hdone Hlen Hhead Hlast Htotal] Hsorted Hstep.
  apply stint_step_inr in Hstep. cbv zeta in Hstep.
  destruct Hstep as [_ [HL [_ Hrest]]].
  pose proof (stint_laps_of_nonneg track_data team is_wet temp_factor st
                                   Htf Hnn) as HLnn.
  set (L := stint_laps_of track_data team is_wet temp_factor st) in *.
  assert (HXne : cum_append (current_cum s) L <> []).
  { apply cum_append_nonempty. intros E. rewrite E in HL. simpl in HL. lia. }
  assert (Hcne : s_cum_times s <> []).
  { intros E. rewrite E in Hlen. discriminate. }
  assert (HX : nondecreasing_from (current_cum s)
                                  (cum_append (current_cum s) L))
    by now apply nondecreasing_from_cum_append.
  destruct (prev_comp s).
  - destruct Hrest as [Hc _]. rewrite Hc.
    rewrite add_to_last_app by exact HXne.
    apply nondecreasing_app; [ exact Hcne | ].
    split; [ exact Hsorted | ]. rewrite Hlast.
    apply nondecreasing_from_add_to_last; [ apply pit_time_nonneg | exact HX ].
  - destruct Hrest as [Hc _]. rewrite Hc.
    apply nondecreasing_app; [ exact Hcne | ].
    split; [ exact Hsorted | ]. now rewrite Hlast.
Qed.

Lemma run_stints_sorted (track_data : TrackData) (team : string)
    (is_wet : bool) (temp_factor : Q) (strategy : Strategy)
    (s s' : SimState) (laps_done : Z) :
  0 <= temp_factor ->
  Forall (fun st => (0 < snd st)%Z) strategy ->
  Forall (nonneg_params track_data team is_wet) strategy ->
  cum_shape s laps_done ->
  nondecreasing (s_cum_times s) ->
  run_stints track_data team is_wet temp_factor strategy s = inr s' ->
  nondecreasing (s_cum_times s').
Proof.
  intros Htf. revert s laps_done.
  induction strategy as [|st rest IH];
    intros s laps_done Hpos Hnn Hshape Hsorted; cbn [run_stints].
  - intros H. now injection H as <-.
  - inversion Hpos as [|? ? Hst Hrest]; subst.
    inversion Hnn as [|? ? Hnn1 Hnnrest]; subst.
    destruct (stint_step track_data team is_wet temp_factor s st)
      as [e | s1] eqn:E; [ discriminate | ].
    apply (IH s1 (laps_done + snd st)%Z); try assumption.
    + eapply stint_step_shape; eassumption.
    + eapply stint_step_sorted; eassumption.
Qed.

(** What a valid plan leaves in the state, in terms of its analytics. *)
Lemma simulate_strategy_inr (deg_models : DegModels) (track team : string)
    (weather : Weather) (strategy : Strategy) (total_laps : Z)
    (a : Analytics) :
  Dict.get track_laps_dict track = Some total_laps ->
  sum_laps strategy = total_laps ->
  snd (simulate_strategy deg_models track team weather strategy) = inr a ->
  exists s,
    run_stints (snd (resolve_track_data deg_models track team)) team
               (is_wet_of weather) (temp_factor_of weather)
               strategy init_state = inr s
    /\ a = finish (is_wet_of weather) s.
Proof.
  intros Hreg Hsum.
  rewrite (simulate_strategy_valid _ _ _ _ _ _ Hreg Hsum).
  unfold simulate_valid. cbn [snd].
  destruct (run_stints _ _ _ _ _ _) as [e | s]; [ discriminate | ].
  intros H. injection H as <-. eauto.
Qed.

(** The cumulative series in exact arithmetic.  For a valid plan whose
    stints have at least one lap and resolve to parameters that are not
    negative, the cumulative series has [total_laps + 1] values, starts at
    0, never decreases, and ends on the running total before the wet
    multiplier: [total_time] itself in a dry race, [total_time / 1.1] in a
    wet one. *)
Theorem cumulative_times_shape (deg_models : DegModels)
    (track team : string) (weather : Weather) (strategy : Strategy)
    (total_laps : Z) (a : Analytics) :
  Dict.get track_laps_dict track = Some total_laps ->
  sum_laps strategy = total_laps ->
  Forall (fun st => (0 < snd st)%Z) strategy ->
  Forall (nonneg_params (snd (resolve_track_data deg_models track team))
                        team (is_wet_of weather)) strategy ->
  snd (simulate_strategy deg_models track team weather strategy) = inr a ->
  length (cum_times a) = S (Z.to_nat total_laps)
  /\ nth 0 (cum_times a) 0 = 0
  /\ (forall i j, (i <= j < length (cum_times a))%nat ->
                  nth i (cum_times a) 0 <= nth j (cum_times a) 0)
  /\ (if is_wet_of weather
      then last (cum_times a) 0 == total_time a / 1.1
      else last (cum_times a) 0 == total_time a).
Proof.
  intros Hreg Hsum Hpos Hnn Ha.
  destruct (simulate_strategy_inr _ _ _ _ _ _ _ Hreg Hsum Ha)
    as [s [Hrun ->]].
  pose proof (run_stints_shape _ _ _ _ _ _ _ _ Hpos cum_shape_init Hrun)
    as [_ Hlen Hhead Hlast Htotal].
  assert (Htf : 0 <= temp_factor_of weather).
  { pose proof (temp_factor_ge_1 weather). lra. }
  pose proof (run_stints_sorted _ _ _ _ _ _ _ _ Htf Hpos Hnn
                                cum_shape_init I Hrun) as Hsorted.
  cbn [finish cum_times total_time].
  rewrite Z.add_0_l, Hsum in Hlen.
  split; [ exact Hlen | split; [ exact Hhead | split ] ].
  - intros i j Hij. now apply nondecreasing_nth.
  - rewrite Hlast. destruct (is_wet_of weather).
    + rewrite Htotal. field.
    + exact Htotal.
Qed.

Lemma cumulative_times_shape_monza :
  exists a,
    snd (simulate_strategy monza_ferrari "Monza" "Ferrari"
                           (mkWeather 35 0) soft20_hard33) = inr a
    /\ length (cum_times a) = 54%nat
    /\ nth 0 (cum_times a) 0 = 0
    /\ nth 20 (cum_times a) 0 <= nth 21 (cum_times a) 0
    /\ last (cum_times a) 0 == total_time a.
Proof.
  eexists.
  split; [ vm_compute; reflexivity | ].
  match goal with
  | |- length (cum_times ?a) = _ /\ _ =>
      destruct (cumulative_times_shape
                  monza_ferrari "Monza" "Ferrari" (mkWeather 35 0)
                  soft20_hard33 53 a)
        as [Hlen [Hhead [Hmono Hlast]]]
  end.
  - reflexivity.
  - reflexivity.
  - repeat constructor.
  - apply Forall_cons; [ | apply Forall_cons; [ | apply Forall_nil ] ];
      intros b sl H; vm_compute in H; injection H as <- <-;
      split; discriminate.
  - vm_compute. reflexivity.
  - split; [ exact Hlen | split; [ exact Hhead | split ] ].
    + apply Hmono. rewrite Hlen. lia.
    + exact Hlast.
Defined.

(* ================================================================== *)
(** ** Pit stops *)

(** Later stints only append to [cum_times]. *)
Lemma run_stints_extends (track_data : TrackData) (team : string)
    (is_wet : bool) (temp_factor : Q) (strategy : Strategy)
    (s s' : SimState) :
  Forall (fun st => (0 < snd st)%Z) strategy ->
  run_stints track_data team is_wet temp_factor strategy s = inr s' ->
  exists ext, s_cum_times s' = s_cum_times s ++ ext.
Proof.
  revert s. induction strategy as [|st rest IH]; intros s Hpos;
    cbn [run_stints].
  - intros H. injection H as <-. exists []. now rewrite app_nil_r.
  - inversion Hpos as [|? ? Hst Hrest]; subst.
    destruct (stint_step track_data team is_wet temp_factor s st)
      as [e | s1] eqn:E; [ discriminate | ].
    intros H. destruct (IH s1 Hrest H) as [ext Hext].
    apply stint_step_inr in E. cbv zeta in E.
    destruct E as [_ [HL [_ Hc]]].
    assert (HXne : cum_append (current_cum s)
                     (stint_laps_of track_data team is_wet temp_factor st)
                   <> []).
    { apply cum_append_nonempty. intros E. rewrite E in HL.
      simpl in HL. lia. }
    destruct (prev_comp s).
    + destruct Hc as [Hc _]. rewrite add_to_last_app in Hc by exact HXne.
      rewrite Hext, Hc, <- app_assoc. eauto.
    + destruct Hc as [Hc _]. rewrite Hext, Hc, <- app_assoc. eauto.
Qed.

(** The value recorded for a lap is the value recorded for the lap before
    it plus the time of the lap, and the pit-stop time on top when the lap
    is the last one of a stint that is not the first. *)
Lemma stint_step_entries (track_data : TrackData) (team : string)
    (is_wet : bool) (temp_factor : Q) (s s' : SimState) (st : Stint)
    (laps_done : Z) (j : nat) :
  (0 < snd st)%Z ->
  cum_shape s laps_done ->
  stint_step track_data team is_wet temp_factor s st = inr s' ->
  (j < Z.to_nat (snd st))%nat ->
  nth (Z.to_nat laps_done + j + 1) (s_cum_times s') 0
  = if pitted s && (S j =? Z.to_nat (snd st))%nat
    then nth (Z.to_nat laps_done + j) (s_cum_times s') 0
         + nth j (stint_laps_of track_data team is_wet temp_factor st) 0
         + pit_time
    else nth (Z.to_nat laps_done + j) (s_cum_times s') 0
         + nth j (stint_laps_of track_data team is_wet temp_factor st) 0.
Proof.
  intros Hpos [Hdone Hlen Hhead Hlast Htotal] Hstep Hj.
  apply stint_step_inr in Hstep. cbv zeta in Hstep.
  destruct Hstep as [_ [HL [_ Hrest]]].
  set (L := stint_laps_of track_data team is_wet temp_factor st) in *.
  set (c := current_cum s) in *.
  set (E := Z.to_nat laps_done) in *.
  assert (HXlen : length (cum_append c L) = Z.to_nat (snd st))
    by now rewrite cum_append_length.
  assert (HXne : cum_append c L <> []).
  { intros E0. rewrite E0 in HXlen. simpl in HXlen. lia. }
  assert (Hc : nth E (s_cum_times s) 0 = c).
  { rewrite <- Hlast, last_nth, Hlen. f_equal. lia. }
  assert (Hhere : forall xs,
             nth (E + j + 1) (s_cum_times s ++ xs) 0 = nth j xs 0).
  { intros xs. rewrite app_nth2 by lia. f_equal. lia. }
  assert (Hbefore : forall xs,
             nth (E + j) (s_cum_times s ++ xs) 0
             = match j with O => c | S j' => nth j' xs 0 end).
  { intros xs. destruct j as [|j'].
    - rewrite app_nth1 by lia. now rewrite Nat.add_0_r.
    - rewrite app_nth2 by lia. f_equal. lia. }
  unfold pitted. destruct (prev_comp s).
  - destruct Hrest as [-> _].
    rewrite add_to_last_app by exact HXne.
    rewrite Hhere, Hbefore. cbn [andb].
    rewrite add_to_last_nth by lia. rewrite HXlen.
    rewrite cum_append_nth by lia.
    assert (Hprev : match j with
                    | O => c
                    | S j' => nth j' (add_to_last (cum_append c L) pit_time) 0
                    end
                    = match j with
                      | O => c
                      | S j' => nth j' (cum_append c L) 0
                      end).
    { destruct j as [|j']; [ reflexivity | ].
      rewrite add_to_last_nth by lia. rewrite HXlen.
      destruct (Nat.eqb_spec (S j') (Z.to_nat (snd st))); [ lia | ].
      reflexivity. }
    rewrite Hprev. destruct (S j =? Z.to_nat (snd st))%nat; reflexivity.
  - destruct Hrest as [-> _].
    rewrite Hhere, Hbefore. cbn [andb].
    now rewrite cum_append_nth by lia.
Qed.

Lemma py_sum_cons (x : Q) (xs : list Q) : py_sum (x :: xs) == x + py_sum xs.
Proof.
  unfold py_sum at 1. cbn [fold_left]. rewrite fold_left_Qplus. ring.
Qed.

(** The running total: the stint times, and one pit stop for every stint
    that was not the first. *)
Lemma run_stints_total (track_data : TrackData) (team : string)
    (is_wet : bool) (temp_factor : Q) (strategy : Strategy)
    (s s' : SimState) :
  run_stints track_data team is_wet temp_factor strategy s = inr s' ->
  s_total_time s'
  == s_total_time s
     + py_sum (map (stint_time_of track_data team is_wet temp_factor)
                   strategy)
     + inject_Z (Z.of_nat (if pitted s then length strategy
                           else length strategy - 1)) * pit_time.
Proof.
  revert s. induction strategy as [|st rest IH]; intros s; cbn [run_stints].
  - intros H. injection H as <-.
    destruct (pitted s); cbn; ring.
  - destruct (stint_step track_data team is_wet temp_factor s st)
      as [e | s1] eqn:E; [ discriminate | ].
    intros H. rewrite (IH s1 H).
    apply stint_step_inr in E. cbv zeta in E.
    destruct E as [_ [_ [Hprev Htot]]].
    unfold pitted at 1. rewrite Hprev.
    cbn [map length]. rewrite py_sum_cons.
    fold (stint_time_of track_data team is_wet temp_factor st) in Htot.
    unfold pitted. destruct (prev_comp s).
    + destruct Htot as [_ [_ ->]].
      rewrite Nat2Z.inj_succ, <- Z.add_1_r, inject_Z_plus. ring.
    + destruct Htot as [_ [_ ->]].
      replace (S (length rest) - 1)%nat with (length rest) by lia. ring.
Qed.

Lemma run_stints_pitted (track_data : TrackData) (team : string)
    (is_wet : bool) (temp_factor : Q) (done : Strategy) (s1 : SimState) :
  run_stints track_data team is_wet temp_factor done init_state = inr s1 ->
  pitted s1 = match done with [] => false | _ :: _ => true end.
Proof.
  intros H. apply run_stints_prev_comp in H. unfold pitted. rewrite H.
  destruct done as [|st done]; [ reflexivity | ].
  cbn [rev]. destruct (rev done ++ [st]) eqn:E; [ | reflexivity ].
  apply app_eq_nil in E. destruct E. discriminate.
Qed.

(** Where the loop charges a pit stop.  For a valid plan whose stints have
    at least one lap:
    the cumulative series has one value per lap after the initial 0 and
    none for the pit stops; [total_time] is the sum of the stint times plus
    the pit-stop constant once per stint after the first (times 1.1 when
    wet); and the value recorded for a lap is the value recorded for the
    lap before it plus the time of the lap, plus the pit-stop constant
    exactly when the lap is the last lap of a stint after the first.  The
    constant of a pit stop is thus folded into the last lap of the stint
    that follows the stop, the stint being simulated when it is added. *)
Theorem pit_stop_folded_into_last_lap_of_stint (deg_models : DegModels)
    (track team : string) (weather : Weather) (strategy : Strategy)
    (total_laps : Z) (a : Analytics) :
  Dict.get track_laps_dict track = Some total_laps ->
  sum_laps strategy = total_laps ->
  Forall (fun st => (0 < snd st)%Z) strategy ->
  snd (simulate_strategy deg_models track team weather strategy) = inr a ->
  let track_data := snd (resolve_track_data deg_models track team) in
  let is_wet := is_wet_of weather in
  let temp_factor := temp_factor_of weather in
  length (cum_times a) = S (Z.to_nat total_laps)
  /\ total_time a
     == (py_sum (stint_times a)
         + inject_Z (Z.of_nat (length strategy - 1)) * pit_time)
        * (if is_wet then 1.1 else 1)
  /\ forall (done rest : Strategy) (st : Stint) (j : nat),
      strategy = done ++ st :: rest ->
      (j < Z.to_nat (snd st))%nat ->
      let lap := (Z.to_nat (sum_laps done) + j + 1)%nat in
      let lap_time :=
        nth j (stint_laps_of track_data team is_wet temp_factor st) 0 in
      nth lap (cum_times a) 0
      = if match done with [] => false | _ :: _ => true end
           && (S j =? Z.to_nat (snd st))%nat
        then nth (lap - 1) (cum_times a) 0 + lap_time + pit_time
        else nth (lap - 1) (cum_times a) 0 + lap_time.
Proof.
  intros Hreg Hsum Hpos Ha track_data is_wet temp_factor.
  destruct (simulate_strategy_inr _ _ _ _ _ _ _ Hreg Hsum Ha)
    as [s' [Hrun ->]].
  fold track_data is_wet temp_factor in Hrun.
  cbn [finish cum_times total_time stint_times].
  split; [ | split ].
  - pose proof (run_stints_shape _ _ _ _ _ _ _ _ Hpos cum_shape_init Hrun)
      as [_ Hlen _ _ _].
    now rewrite Z.add_0_l, Hsum in Hlen.
  - pose proof (run_stints_total _ _ _ _ _ _ _ Hrun) as Htot.
    rewrite (run_stints_stint_times _ _ _ _ _ _ _ Hrun).
    change (pitted init_state) with false in Htot.
    change (s_total_time init_state) with 0 in Htot.
    change (s_stint_times init_state) with (@nil Q). cbn [app].
    subst is_wet. destruct (is_wet_of weather); rewrite Htot; ring.
  - cbv zeta. intros done rest st j Hsplit Hj. subst strategy.
    apply Forall_app in Hpos. destruct Hpos as [Hpos_done Hpos_rest].
    inversion Hpos_rest as [|? ? Hpos_st Hpos_rest']; subst.
    destruct (run_stints_app _ _ _ _ _ _ _ _ Hrun) as [s1 [Hdone Hrest]].
    cbn [run_stints] in Hrest.
    destruct (stint_step track_data team is_wet temp_factor s1 st)
      as [e | s2] eqn:Hstep; [ discriminate | ].
    pose proof (run_stints_shape _ _ _ _ _ _ _ _ Hpos_done cum_shape_init
                                 Hdone) as Hshape1.
    rewrite Z.add_0_l in Hshape1.
    pose proof (stint_step_shape _ _ _ _ _ _ _ _ Hpos_st Hshape1 Hstep)
      as [Hdone2 Hlen2 _ _ _].
    pose proof (stint_step_entries _ _ _ _ _ _ _ _ j Hpos_st Hshape1 Hstep
                                   Hj) as Hentries.
    destruct (run_stints_extends _ _ _ _ _ _ _ Hpos_rest' Hrest)
      as [ext ->].
    rewrite (run_stints_pitted _ _ _ _ _ _ Hdone) in Hentries.
    destruct Hshape1 as [Hdone1 _ _ _ _].
    assert (Hin : (Z.to_nat (sum_laps done) + j + 1
                   < length (s_cum_times s2))%nat).
    { rewrite Hlen2, Z2Nat.inj_add by lia. lia. }
    rewrite Nat.add_sub, !app_nth1 by lia. exact Hentries.
Qed.

(** C4 (the code at the failing input).  Monza, 20 SOFT laps at 80 s and
    33 HARD laps at 82 s, one stop after lap 20.  The claim puts the
    pit-stop constant into the value recorded for lap 20, the last lap of
    the stint completed before the stop.  The code does not: that value is
    20 * 80 = 1600 s and holds no pit-stop time, lap 21 follows 82 s later,
    and the 22 s appear on lap 53, the last lap of the race: 4224 s after
    lap 52, 4224 + 82 + 22 = 4328 s after lap 53. *)
Lemma pit_stop_not_in_lap_before_stop :
  exists a,
    snd (simulate_strategy flat_monza "Monza" "Ferrari" dry_30
                           soft20_hard33)
    = inr a
    /\ nth 20 (cum_times a) 0 == 1600
    /\ ~ nth 20 (cum_times a) 0 == 1600 + pit_time
    /\ nth 21 (cum_times a) 0 == 1600 + 82
    /\ nth 52 (cum_times a) 0 == 4224
    /\ nth 53 (cum_times a) 0 == 4224 + 82 + pit_time
    /\ total_time a == 4328.
Proof.
  eexists. split; [ vm_compute; reflexivity | ].
  repeat split; try reflexivity.
  unfold Qeq. vm_compute. discriminate.
Qed.

Lemma pit_stop_folded_into_last_lap_of_stint_monza :
  exists a,
    snd (simulate_strategy flat_monza "Monza" "Ferrari" dry_30
                           soft20_hard33)
    = inr a
    /\ length (cum_times a) = 54%nat
    /\ nth 20 (cum_times a) 0 = nth 19 (cum_times a) 0 + 80
    /\ nth 53 (cum_times a) 0 = nth 52 (cum_times a) 0 + 82 + pit_time.
Proof.
  eexists. split; [ vm_compute; reflexivity | ].
  match goal with
  | |- length (cum_times ?a) = _ /\ _ =>
      destruct (pit_stop_folded_into_last_lap_of_stint
                  flat_monza "Monza" "Ferrari" dry_30 soft20_hard33 53 a)
        as [Hlen [_ Hlaps]]
  end.
  - reflexivity.
  - reflexivity.
  - repeat constructor.
  - vm_compute. reflexivity.
  - split; [ exact Hlen | split ].
    + exact (Hlaps [] [("HARD"%string, 33%Z)] ("SOFT"%string, 20%Z)
                   19%nat eq_refl ltac:(simpl; lia)).
    + exact (Hlaps [("SOFT"%string, 20%Z)] [] ("HARD"%string, 33%Z)
                   32%nat eq_refl ltac:(simpl; lia)).
Defined.

(* ================================================================== *)
(** ** The analytics of a stint *)

Lemma stint_step_lists (track_data : TrackData) (team : string)
    (is_wet : bool) (temp_factor : Q) (s s' : SimState) (st : Stint) :
  stint_step track_data team is_wet temp_factor s st = inr s' ->
  s_deg_penalties s'
  = s_deg_penalties s ++ [deg_penalty_of track_data team is_wet st]
  /\ s_avg_lap_times s'
     = s_avg_lap_times s
       ++ [avg_lap_of track_data team is_wet temp_factor st].
Proof.
  unfold stint_step, deg_penalty_of, avg_lap_of, stint_time_of,
    stint_laps_of.
  destruct (stint_params track_data team (effective_comp is_wet (fst st)))
    as [e | [b sl]]; [ discriminate | ].
  destruct (snd st =? 0)%Z; [ discriminate | ].
  destruct (prev_comp s); intros H; injection H as <-; split; reflexivity.
Qed.

Lemma run_stints_lists (track_data : TrackData) (team : string)
    (is_wet : bool) (temp_factor : Q) (strategy : Strategy)
    (s s' : SimState) :
  run_stints track_data team is_wet temp_factor strategy s = inr s' ->
  s_deg_penalties s'
  = s_deg_penalties s ++ map (deg_penalty_of track_data team is_wet) strategy
  /\ s_avg_lap_times s'
     = s_avg_lap_times s
       ++ map (avg_lap_of track_data team is_wet temp_factor) strategy.
Proof.
  revert s. induction strategy as [|st rest IH]; intros s; cbn [run_stints].
  - intros H. injection H as <-. now rewrite !app_nil_r.
  - destruct (stint_step track_data team is_wet temp_factor s st)
      as [e | s1] eqn:E; [ discriminate | ].
    intros H. destruct (IH _ H) as [Hd Ha].
    destruct (stint_step_lists _ _ _ _ _ _ _ E) as [Hd1 Ha1].
    rewrite Hd, Ha, Hd1, Ha1. cbn [map].
    now rewrite <- !app_assoc.
Qed.

Lemma simulate_lists (deg_models : DegModels) (track team : string)
    (weather : Weather) (strategy : Strategy) (total_laps : Z)
    (a : Analytics) :
  Dict.get track_laps_dict track = Some total_laps ->
  sum_laps strategy = total_laps ->
  snd (simulate_strategy deg_models track team weather strategy) = inr a ->
  let track_data := snd (resolve_track_data deg_models track team) in
  stint_times a
  = map (stint_time_of track_data team (is_wet_of weather)
                       (temp_factor_of weather)) strategy
  /\ deg_penalties a
     = map (deg_penalty_of track_data team (is_wet_of weather)) strategy
  /\ avg_lap_times a
     = map (avg_lap_of track_data team (is_wet_of weather)
                       (temp_factor_of weather)) strategy
  /\ Forall (stint_runs track_data team (is_wet_of weather)) strategy.
Proof.
  intros Hreg Hsum Ha track_data.
  destruct (simulate_strategy_inr _ _ _ _ _ _ _ Hreg Hsum Ha)
    as [s [Hrun ->]].
  fold track_data in Hrun. cbn [finish stint_times deg_penalties
    avg_lap_times].
  rewrite (run_stints_stint_times _ _ _ _ _ _ _ Hrun).
  destruct (run_stints_lists _ _ _ _ _ _ _ Hrun) as [-> ->].
  repeat split; try reflexivity.
  apply (run_stints_runs track_data team (is_wet_of weather)
                         (temp_factor_of weather) strategy init_state).
  eauto.
Qed.

(** X1.  The three per-stint lists of the analytics have one entry per
    stint of the plan. *)
Theorem analytics_one_entry_per_stint (deg_models : DegModels)
    (track team : string) (weather : Weather) (strategy : Strategy)
    (total_laps : Z) (a : Analytics) :
  Dict.get track_laps_dict track = Some total_laps ->
  sum_laps strategy = total_laps ->
  snd (simulate_strategy deg_models track team weather strategy) = inr a ->
  length (stint_times a) = length strategy
  /\ length (deg_penalties a) = length strategy
  /\ length (avg_lap_times a) = length strategy.
Proof.
  intros Hreg Hsum Ha.
  destruct (simulate_lists _ _ _ _ _ _ _ Hreg Hsum Ha)
    as [-> [-> [-> _]]].
  now rewrite !length_map.
Qed.

Lemma analytics_one_entry_per_stint_monza :
  exists a,
    snd (simulate_strategy monza_ferrari "Monza" "Ferrari" dry_30
                           soft20_hard33) = inr a
    /\ length (stint_times a) = 2%nat
    /\ length (deg_penalties a) = 2%nat
    /\ length (avg_lap_times a) = 2%nat.
Proof.
  eexists. split; [ vm_compute; reflexivity | ].
  match goal with
  | |- length (stint_times ?a) = _ /\ _ =>
      exact (analytics_one_entry_per_stint
               monza_ferrari "Monza" "Ferrari" dry_30 soft20_hard33 53 a
               eq_refl eq_refl eq_refl)
  end.
Defined.

(* ================================================================== *)
(** ** Plans the validation lets through *)

Lemma stint_step_cum_length (track_data : TrackData) (team : string)
    (is_wet : bool) (temp_factor : Q) (s s' : SimState) (st : Stint) :
  stint_step track_data team is_wet temp_factor s st = inr s' ->
  length (s_cum_times s')
  = (length (s_cum_times s) + Z.to_nat (snd st))%nat.
Proof.
  intros Hstep. apply stint_step_inr in Hstep. cbv zeta in Hstep.
  destruct Hstep as [_ [HL [_ Hrest]]].
  destruct (prev_comp s); destruct Hrest as [-> _];
    rewrite ?add_to_last_length, length_app, cum_append_length, HL;
    reflexivity.
Qed.

Lemma run_stints_cum_length (track_data : TrackData) (team : string)
    (is_wet : bool) (temp_factor : Q) (strategy : Strategy)
    (s s' : SimState) :
  run_stints track_data team is_wet temp_factor strategy s = inr s' ->
  length (s_cum_times s')
  = (length (s_cum_times s) + laps_run strategy)%nat.
Proof.
  revert s. induction strategy as [|st rest IH]; intros s; cbn [run_stints].
  - intros H. injection H as <-. cbn. lia.
  - destruct (stint_step track_data team is_wet temp_factor s st)
      as [e | s1] eqn:E; [ discriminate | ].
    intros H. rewrite (IH _ H), (stint_step_cum_length _ _ _ _ _ _ _ E).
    cbn [laps_run fold_right]. fold (laps_run rest). lia.
Qed.

(** The laps run are at least the laps counted by the validation, and
    exactly those when no lap count is negative. *)
Lemma laps_run_sum (strategy : Strategy) :
  (sum_laps strategy <= Z.of_nat (laps_run strategy))%Z
  /\ (sum_laps strategy = Z.of_nat (laps_run strategy)
      <-> Forall (fun st => (0 <= snd st)%Z) strategy).
Proof.
  induction strategy as [|st rest [IHle IHeq]].
  - split; [ cbn; lia | ]. split; [ constructor | reflexivity ].
  - rewrite sum_laps_cons. cbn [laps_run fold_right]. fold (laps_run rest).
    rewrite Nat2Z.inj_add.
    split; [ lia | ]. split.
    + intros H.
      assert (0 <= snd st)%Z by lia.
      constructor; [ assumption | ]. apply IHeq. lia.
    + intros H. inversion H as [|? ? Hst Hrest]; subst.
      apply IHeq in Hrest. lia.
Qed.

(** X3.  The cumulative series has one entry per lap the simulator runs,
    after the initial 0: one plus the sum of the positive lap counts.  The
    validation only compares the sum of the lap counts with the total, so
    a plan with a negative lap count can pass it; its series is then
    longer than [total_laps + 1], and it has [total_laps + 1] entries
    exactly when no lap count is negative. *)
Theorem cum_times_one_entry_per_lap_run (deg_models : DegModels)
    (track team : string) (weather : Weather) (strategy : Strategy)
    (total_laps : Z) (a : Analytics) :
  Dict.get track_laps_dict track = Some total_laps ->
  sum_laps strategy = total_laps ->
  snd (simulate_strategy deg_models track team weather strategy) = inr a ->
  length (cum_times a) = S (laps_run strategy)
  /\ (S (Z.to_nat total_laps) <= length (cum_times a))%nat
  /\ (length (cum_times a) = S (Z.to_nat total_laps)
      <-> Forall (fun st => (0 <= snd st)%Z) strategy).
Proof.
  intros Hreg Hsum Ha.
  destruct (simulate_strategy_inr _ _ _ _ _ _ _ Hreg Hsum Ha)
    as [s [Hrun ->]].
  apply run_stints_cum_length in Hrun. cbn [finish cum_times].
  rewrite Hrun. cbn [init_state s_cum_times length plus].
  destruct (laps_run_sum strategy) as [Hle Heq].
  rewrite Hsum in Hle, Heq.
  pose proof (registry_bounds _ _ Hreg) as Hb.
  split; [ reflexivity | split; [ lia | ] ].
  rewrite <- Heq. lia.
Qed.

(** 60 laps on SOFT and "minus 7" on HARD add up to the 53 laps of Monza:
    the plan is simulated, and its series has 61 entries. *)
Lemma cum_times_one_entry_per_lap_run_monza :
  exists a,
    snd (simulate_strategy flat_monza "Monza" "Ferrari" dry_30
                           [("SOFT"%string, 60%Z); ("HARD"%string, (-7)%Z)])
    = inr a
    /\ length (cum_times a) = 61%nat.
Proof.
  eexists. split; [ vm_compute; reflexivity | ].
  match goal with
  | |- length (cum_times ?a) = _ =>
      destruct (cum_times_one_entry_per_lap_run
                  flat_monza "Monza" "Ferrari" dry_30
                  [("SOFT"%string, 60%Z); ("HARD"%string, (-7)%Z)] 53 a
                  eq_refl eq_refl eq_refl) as [H _]
  end.
  exact H.
Defined.

Lemma run_stints_key_error (track_data : TrackData) (team : string)
    (is_wet : bool) (temp_factor : Q) (strategy : Strategy) (s : SimState)
    (k : string) :
  run_stints track_data team is_wet temp_factor strategy s
  = inl (KeyError k) ->
  Exists (fun st =>
            stint_params track_data team (effective_comp is_wet (fst st))
            = inl (KeyError k)) strategy.
Proof.
  revert s. induction strategy as [|st rest IH]; intros s; cbn [run_stints].
  - discriminate.
  - destruct (stint_step track_data team is_wet temp_factor s st)
      as [e | s1] eqn:E.
    + intros H. injection H as ->. apply Exists_cons_hd.
      unfold stint_step in E.
      destruct (stint_params track_data team
                             (effective_comp is_wet (fst st)))
        as [e' | [b sl]].
      * now injection E as ->.
      * destruct (snd st =? 0)%Z; [ discriminate | ].
        destruct (prev_comp s); discriminate.
    + intros H. apply Exists_cons_tl. eapply IH. eassumption.
Qed.

(** X4.  For a valid plan whose compounds all resolve, the simulator
    raises exactly when a stint has zero laps, and what it raises then is
    [ZeroDivisionError] (from the average lap time). *)
Theorem zero_lap_stint_divides_by_zero (deg_models : DegModels)
    (track team : string) (weather : Weather) (strategy : Strategy)
    (total_laps : Z) :
  Dict.get track_laps_dict track = Some total_laps ->
  sum_laps strategy = total_laps ->
  Forall (fun st =>
            exists p,
              stint_params (snd (resolve_track_data deg_models track team))
                           team (effective_comp (is_wet_of weather) (fst st))
              = inr p) strategy ->
  (snd (simulate_strategy deg_models track team weather strategy)
   = inl ZeroDivisionError
   <-> Exists (fun st => snd st = 0%Z) strategy)
  /\ ((exists a,
          snd (simulate_strategy deg_models track team weather strategy)
          = inr a)
      <-> Forall (fun st => snd st <> 0%Z) strategy).
Proof.
  intros Hreg Hsum Hres.
  rewrite (simulate_strategy_valid _ _ _ _ _ _ Hreg Hsum).
  assert (Hret : (exists a,
                     snd (simulate_valid deg_models track team weather
                                         strategy) = inr a)
                 <-> Forall (fun st => snd st <> 0%Z) strategy).
  { rewrite simulate_valid_runs. rewrite !Forall_forall in *.
    unfold stint_runs. split.
    - intros H st Hin. now destruct (H st Hin).
    - intros H st Hin. split; [ exact (Hres st Hin) | exact (H st Hin) ]. }
  split; [ | exact Hret ].
  split.
  - intros Herr.
    destruct (Exists_dec (fun st : Stint => snd st = 0%Z) strategy)
      as [Hex | Hnex]; [ intros st; apply Z.eq_dec | exact Hex | ].
    exfalso.
    assert (Hall : Forall (fun st : Stint => snd st <> 0%Z) strategy).
    { apply Forall_forall. intros st Hin Hz. apply Hnex.
      apply Exists_exists. eauto. }
    apply Hret in Hall. destruct Hall as [a Ha]. congruence.
  - intros Hex.
    destruct (snd (simulate_valid deg_models track team weather strategy))
      as [e | a] eqn:E.
    + unfold simulate_valid in E. cbn [snd] in E.
      destruct (run_stints _ _ _ _ _ _) as [e' | s] eqn:Hrun;
        [ | discriminate ].
      injection E as ->.
      destruct (run_stints_error _ _ _ _ _ _ _ Hrun) as [[k ->] | ->];
        [ | reflexivity ].
      apply run_stints_key_error in Hrun.
      apply Exists_exists in Hrun. destruct Hrun as [st [Hin Hk]].
      rewrite Forall_forall in Hres. destruct (Hres st Hin) as [p Hp].
      congruence.
    + exfalso.
      assert (Hall : Forall (fun st : Stint => snd st <> 0%Z) strategy)
        by (apply Hret; eauto).
      apply Exists_exists in Hex. destruct Hex as [st [Hin Hz]].
      rewrite Forall_forall in Hall. exact (Hall st Hin Hz).
Qed.

Lemma zero_lap_stint_divides_by_zero_monza :
  snd (simulate_strategy flat_monza "Monza" "Ferrari" dry_30
                         [("SOFT"%string, 53%Z); ("HARD"%string, 0%Z)])
  = inl ZeroDivisionError.
Proof.
  assert (Hres : Forall (fun st : Stint =>
            exists p,
              stint_params (snd (resolve_track_data flat_monza "Monza"
                                                    "Ferrari"))
                           "Ferrari" (effective_comp (is_wet_of dry_30)
                                                     (fst st))
              = inr p)
            [("SOFT"%string, 53%Z); ("HARD"%string, 0%Z)]).
  { repeat constructor; eexists; vm_compute; reflexivity. }
  destruct (zero_lap_stint_divides_by_zero
              flat_monza "Monza" "Ferrari" dry_30
              [("SOFT"%string, 53%Z); ("HARD"%string, 0%Z)] 53
              eq_refl eq_refl Hres) as [[_ H] _].
  apply H. apply Exists_cons_tl, Exists_cons_hd. reflexivity.
Defined.

(** X5.  In a wet race the simulator needs no data: whatever the table
    holds, an empty one included, a valid plan without a zero-lap stint is
    simulated, every stint on the parameters derived for INTERMEDIATE. *)
Theorem wet_race_needs_no_data (deg_models : DegModels)
    (track team : string) (weather : Weather) (strategy : Strategy)
    (total_laps : Z) :
  Dict.get track_laps_dict track = Some total_laps ->
  sum_laps strategy = total_laps ->
  is_wet_of weather = true ->
  Forall (fun st => snd st <> 0%Z) strategy ->
  exists a,
    snd (simulate_strategy deg_models track team weather strategy) = inr a
    /\ stint_times a
       = map (fun st =>
                py_sum (lap_times_of
                          (fst (from_hard (resolved_team deg_models track
                                                         team)))
                          (snd (from_hard (resolved_team deg_models track
                                                         team))
                           * temp_factor_of weather)
                          (snd st)))
             strategy.
Proof.
  intros Hreg Hsum Hwet Hlaps.
  destruct (proj2 (simulate_valid_runs deg_models track team weather
                                       strategy)) as [a Ha].
  { rewrite Hwet. eapply Forall_impl; [ | exact Hlaps ].
    intros st Hl. split; [ | exact Hl ].
    rewrite effective_comp_wet, resolved_intermediate. eauto. }
  rewrite <- (simulate_strategy_valid _ _ _ _ _ _ Hreg Hsum) in Ha.
  exists a. split; [ exact Ha | ].
  destruct (simulate_lists _ _ _ _ _ _ _ Hreg Hsum Ha) as [-> _].
  apply map_ext. intros st.
  unfold stint_time_of, stint_laps_of.
  now rewrite Hwet, effective_comp_wet, resolved_intermediate.
Qed.

Lemma wet_race_needs_no_data_empty_table :
  exists a,
    snd (simulate_strategy [] "Monza" "Ferrari" wet_30 soft20_hard33)
    = inr a.
Proof.
  assert (Hl : Forall (fun st : Stint => snd st <> 0%Z) soft20_hard33).
  { repeat constructor; discriminate. }
  destruct (wet_race_needs_no_data [] "Monza" "Ferrari" wet_30
              soft20_hard33 53 eq_refl eq_refl eq_refl Hl) as [a [Ha _]].
  exists a. exact Ha.
Defined.

(* ================================================================== *)
(** ** Track temperature *)

Lemma py_max0_nonpos (x : Q) : x <= 0 -> py_max0 x = 0.
Proof.
  intros Hx. unfold py_max0.
  apply Qle_bool_iff in Hx. now rewrite Hx.
Qed.

Lemma py_max0_mono (x y : Q) : x <= y -> py_max0 x <= py_max0 y.
Proof.
  intros Hxy. unfold py_max0.
  destruct (Qle_bool x 0) eqn:Ex; destruct (Qle_bool y 0) eqn:Ey.
  - lra.
  - destruct (Qlt_le_dec 0 y) as [H | H]; [ lra | ].
    apply Qle_bool_iff in H. congruence.
  - apply Qle_bool_iff in Ey.
    destruct (Qlt_le_dec 0 x) as [H | H]; [ lra | ].
    apply Qle_bool_iff in H. congruence.
  - exact Hxy.
Qed.

Lemma temp_factor_cool (temp rain : Q) :
  temp <= 30 -> temp_factor_of (mkWeather temp rain) = 1 + 0.
Proof.
  intros Ht. unfold temp_factor_of. cbn [track_temp].
  rewrite py_max0_nonpos; [ reflexivity | ].
  unfold Qdiv. setoid_replace (/ 100) with (1 # 100) by reflexivity. lra.
Qed.

(** X6.  Up to 30 degrees the track temperature has no effect at all: the
    simulation at any such temperature is the simulation at 30 degrees,
    result and table alike. *)
Theorem cool_track_has_no_effect (deg_models : DegModels)
    (track team : string) (temp rain : Q) (strategy : Strategy) :
  temp <= 30 ->
  simulate_strategy deg_models track team (mkWeather temp rain) strategy
  = simulate_strategy deg_models track team (mkWeather 30 rain) strategy.
Proof.
  intros Ht. unfold simulate_strategy.
  rewrite (temp_factor_cool temp rain Ht).
  rewrite (temp_factor_cool 30 rain) by lra.
  reflexivity.
Qed.

Lemma cool_track_has_no_effect_monza :
  simulate_strategy monza_ferrari "Monza" "Ferrari" (mkWeather 12 0)
                    soft20_hard33
  = simulate_strategy monza_ferrari "Monza" "Ferrari" (mkWeather 30 0)
                      soft20_hard33.
Proof.
  apply (cool_track_has_no_effect monza_ferrari "Monza" "Ferrari" 12 0).
  lra.
Defined.

Lemma temp_factor_mono (w1 w2 : Weather) :
  track_temp w1 <= track_temp w2 ->
  temp_factor_of w1 <= temp_factor_of w2.
Proof.
  intros Ht. unfold temp_factor_of.
  assert (H : (track_temp w1 - 30) / 100 <= (track_temp w2 - 30) / 100).
  { unfold Qdiv. setoid_replace (/ 100) with (1 # 100) by reflexivity. lra. }
  pose proof (py_max0_mono _ _ H). lra.
Qed.

Lemma py_sum_map_le {A : Type} (f g : A -> Q) (l : list A) :
  (forall x, In x l -> f x <= g x) -> py_sum (map f l) <= py_sum (map g l).
Proof.
  induction l as [|x l IH]; intros Hfg; [ cbn; lra | ].
  cbn [map]. rewrite !py_sum_cons.
  assert (f x <= g x) by (apply Hfg; now left).
  assert (py_sum (map f l) <= py_sum (map g l))
    by (apply IH; intros y Hy; apply Hfg; now right).
  lra.
Qed.

(** A hotter track does not shorten a stint whose slope is not negative. *)
Lemma stint_time_of_mono (track_data : TrackData) (team : string)
    (is_wet : bool) (tf1 tf2 : Q) (st : Stint) :
  tf1 <= tf2 ->
  nonneg_params track_data team is_wet st ->
  stint_time_of track_data team is_wet tf1 st
  <= stint_time_of track_data team is_wet tf2 st.
Proof.
  intros Htf Hnn. unfold stint_time_of, stint_laps_of.
  unfold nonneg_params in Hnn.
  destruct (stint_params track_data team (effective_comp is_wet (fst st)))
    as [e | [b sl]]; [ lra | ].
  destruct (Hnn b sl eq_refl) as [_ Hsl].
  unfold lap_times_of. apply py_sum_map_le.
  intros j Hj. unfold py_range in Hj.
  apply in_map_iff in Hj. destruct Hj as [k [<- _]].
  assert (Hk : 0 <= inject_Z (Z.of_nat k)).
  { change 0 with (inject_Z 0). rewrite <- Zle_Qle. lia. }
  assert (Hs : sl * tf1 <= sl * tf2) by nra.
  set (x1 := sl * tf1) in *. set (x2 := sl * tf2) in *.
  set (q := inject_Z (Z.of_nat k)) in *. nra.
Qed.

Lemma simulate_total (deg_models : DegModels) (track team : string)
    (weather : Weather) (strategy : Strategy) (total_laps : Z)
    (a : Analytics) :
  Dict.get track_laps_dict track = Some total_laps ->
  sum_laps strategy = total_laps ->
  snd (simulate_strategy deg_models track team weather strategy) = inr a ->
  total_time a
  == (py_sum (map (stint_time_of
                     (snd (resolve_track_data deg_models track team)) team
                     (is_wet_of weather) (temp_factor_of weather)) strategy)
      + inject_Z (Z.of_nat (length strategy - 1)) * pit_time)
     * (if is_wet_of weather then 1.1 else 1).
Proof.
  intros Hreg Hsum Ha.
  destruct (simulate_strategy_inr _ _ _ _ _ _ _ Hreg Hsum Ha)
    as [s [Hrun ->]].
  pose proof (run_stints_total _ _ _ _ _ _ _ Hrun) as Htot.
  change (pitted init_state) with false in Htot.
  change (s_total_time init_state) with 0 in Htot.
  cbn [finish total_time].
  destruct (is_wet_of weather); rewrite Htot; ring.
Qed.

(** X7.  With slopes that are not negative, a hotter track never makes the
    predicted race shorter: the plan is simulated at the higher
    temperature whenever it is at the lower one, and its total time is at
    least as long. *)
Theorem hotter_track_is_not_faster (deg_models : DegModels)
    (track team : string) (temp1 temp2 rain : Q) (strategy : Strategy)
    (total_laps : Z) (a1 : Analytics) :
  Dict.get track_laps_dict track = Some total_laps ->
  sum_laps strategy = total_laps ->
  temp1 <= temp2 ->
  Forall (nonneg_params (snd (resolve_track_data deg_models track team))
                        team (is_wet_of (mkWeather temp1 rain))) strategy ->
  snd (simulate_strategy deg_models track team (mkWeather temp1 rain)
                         strategy) = inr a1 ->
  exists a2,
    snd (simulate_strategy deg_models track team (mkWeather temp2 rain)
                           strategy) = inr a2
    /\ total_time a1 <= total_time a2.
Proof.
  intros Hreg Hsum Ht Hnn Ha1.
  assert (Hruns : exists a2,
             snd (simulate_strategy deg_models track team
                                    (mkWeather temp2 rain) strategy)
             = inr a2).
  { rewrite (simulate_strategy_valid _ _ _ _ _ _ Hreg Hsum).
    apply simulate_valid_runs.
    change (is_wet_of (mkWeather temp2 rain))
      with (is_wet_of (mkWeather temp1 rain)).
    apply simulate_valid_runs.
    rewrite <- (simulate_strategy_valid _ _ _ _ _ _ Hreg Hsum). eauto. }
  destruct Hruns as [a2 Ha2]. exists a2. split; [ exact Ha2 | ].
  rewrite (simulate_total _ _ _ _ _ _ _ Hreg Hsum Ha1).
  rewrite (simulate_total _ _ _ _ _ _ _ Hreg Hsum Ha2).
  change (is_wet_of (mkWeather temp2 rain))
    with (is_wet_of (mkWeather temp1 rain)).
  set (w := is_wet_of (mkWeather temp1 rain)) in *.
  assert (Hsum_le :
    py_sum (map (stint_time_of
                   (snd (resolve_track_data deg_models track team)) team w
                   (temp_factor_of (mkWeather temp1 rain))) strategy)
    <= py_sum (map (stint_time_of
                      (snd (resolve_track_data deg_models track team)) team
                      w (temp_factor_of (mkWeather temp2 rain))) strategy)).
  { apply py_sum_map_le. intros st Hin.
    apply stint_time_of_mono.
    - now apply temp_factor_mono.
    - rewrite Forall_forall in Hnn. now apply Hnn. }
  destruct w; nra.
Qed.

Lemma hotter_track_is_not_faster_monza :
  exists a1 a2,
    snd (simulate_strategy monza_ferrari "Monza" "Ferrari" (mkWeather 30 0)
                           soft20_hard33) = inr a1
    /\ snd (simulate_strategy monza_ferrari "Monza" "Ferrari"
                              (mkWeather 45 0) soft20_hard33) = inr a2
    /\ total_time a1 <= total_time a2.
Proof.
  eexists.
  assert (Hnn : Forall (nonneg_params
                          (snd (resolve_track_data monza_ferrari "Monza"
                                                   "Ferrari"))
                          "Ferrari" (is_wet_of (mkWeather 30 0)))
                       soft20_hard33).
  { apply Forall_cons; [ | apply Forall_cons; [ | apply Forall_nil ] ];
      intros b sl H; vm_compute in H; injection H as <- <-;
      split; discriminate. }
  match goal with
  | |- exists a2, snd ?sim1 = inr ?a1 /\ _ =>
      assert (Ha1 : snd sim1 = inr a1) by (vm_compute; reflexivity);
      destruct (hotter_track_is_not_faster
                  monza_ferrari "Monza" "Ferrari" 30 45 0 soft20_hard33 53
                  a1 eq_refl eq_refl ltac:(lra) Hnn Ha1) as [a2 [Ha2 Hle]]
  end.
  exists a2. split; [ exact Ha1 | split; [ exact Ha2 | exact Hle ] ].
Defined.

(* ================================================================== *)
(** ** What a call leaves for the next one *)

Lemma table_of_keeps_entries (deg_models t : DegModels)
    (track team : string) :
  table_of deg_models track team t ->
  (forall track' team' comp e,
      stored deg_models track' team' comp = Some e ->
      stored t track' team' comp = Some e)
  /\ (forall track', Dict.mem t track' = Dict.mem deg_models track').
Proof.
  intros [-> | ->]; [ split; auto | ].
  unfold resolve_track_data.
  destruct (Dict.get deg_models track) as [track_data|] eqn:Htrack;
    [ | split; auto ].
  destruct (Dict.mem track_data team) eqn:Hteam; [ split; auto | ].
  cbn [fst]. unfold team_fallback. rewrite Hteam.
  apply mem_false_get in Hteam.
  split.
  - intros track' team' comp e. unfold stored.
    destruct (String.eqb_spec track' track) as [-> | Hne].
    + rewrite get_set_same, Htrack.
      destruct (String.eqb_spec team' team) as [-> | Hne'].
      * rewrite Hteam. discriminate.
      * now rewrite get_set_other by exact Hne'.
    + now rewrite get_set_other by exact Hne.
  - intros track'. unfold Dict.mem.
    destruct (String.eqb_spec track' track) as [-> | Hne].
    + now rewrite get_set_same, Htrack.
    + now rewrite get_set_other by exact Hne.
Qed.

Lemma table_of_refl (deg_models : DegModels) (track team : string) :
  table_of deg_models track team deg_models.
Proof. now left. Qed.

Lemma simulate_snd_table_of (deg_models t : DegModels)
    (track team : string) (weather : Weather) (strategy : Strategy) :
  table_of deg_models track team t ->
  snd (simulate_strategy t track team weather strategy)
  = snd (simulate_strategy deg_models track team weather strategy).
Proof.
  intros Ht. unfold simulate_strategy.
  destruct (Dict.get track_laps_dict track) as [total_laps|];
    [ | reflexivity ].
  destruct (negb (sum_laps strategy =? total_laps)%Z); [ reflexivity | ].
  destruct (table_of_resolve _ _ _ _ Ht) as [_ Hsnd].
  destruct (resolve_track_data t track team) as [t' td'].
  destruct (resolve_track_data deg_models track team) as [dm' td].
  cbn [snd] in *. now subst.
Qed.

Lemma try_candidates_snd_table_of (deg_models t1 t2 : DegModels)
    (track team : string) (weather : Weather) (cands : list Strategy)
    (best : Best) :
  table_of deg_models track team t1 ->
  table_of deg_models track team t2 ->
  snd (try_candidates t1 track team weather cands best)
  = snd (try_candidates t2 track team weather cands best).
Proof.
  revert t1 t2 best.
  induction cands as [|strat rest IH]; intros t1 t2 best H1 H2.
  - reflexivity.
  - cbn [try_candidates].
    pose proof (simulate_snd_table_of _ _ _ _ weather strat H1) as E1.
    pose proof (simulate_snd_table_of _ _ _ _ weather strat H2) as E2.
    pose proof (simulate_table_of _ _ _ _ weather strat H1) as T1.
    pose proof (simulate_table_of _ _ _ _ weather strat H2) as T2.
    destruct (simulate_strategy t1 track team weather strat) as [t1' r1].
    destruct (simulate_strategy t2 track team weather strat) as [t2' r2].
    cbn [fst snd] in *. rewrite E1, E2. now apply IH.
Qed.

(** The result of the optimiser, from the choice among the candidates. *)
Lemma optimize_snd (deg_models : DegModels) (track team : string)
    (weather : Weather) :
  snd (optimize_strategy deg_models track team weather)
  = match Dict.get track_laps_dict track with
    | None => inl (KeyError track)
    | Some total_laps =>
        match snd (try_candidates deg_models track team weather
                                  (candidates total_laps) None) with
        | Some (best_strat, best_time, best_analytics) =>
            inr (best_strat, best_time, pit_laps_of best_strat,
                 best_analytics)
        | None =>
            match sim deg_models track team weather
                      [("MEDIUM"%string, total_laps)] with
            | inl e => inl e
            | inr best_analytics =>
                inr ([("MEDIUM"%string, total_laps)],
                     total_time best_analytics,
                     pit_laps_of [("MEDIUM"%string, total_laps)],
                     best_analytics)
            end
        end
    end.
Proof.
  unfold optimize_strategy, sim.
  destruct (Dict.get track_laps_dict track) as [total_laps|];
    [ | reflexivity ].
  pose proof (try_candidates_table_of deg_models deg_models track team
                weather (candidates total_laps) None
                (table_of_refl _ _ _)) as Ht.
  destruct (try_candidates deg_models track team weather
                           (candidates total_laps) None)
    as [t [[[best_strat best_time] best_analytics]|]]; [ reflexivity | ].
  cbn [fst snd] in *.
  rewrite <- (simulate_snd_table_of _ _ _ _ weather
                [("MEDIUM"%string, total_laps)] Ht).
  destruct (simulate_strategy t track team weather
                              [("MEDIUM"%string, total_laps)])
    as [t' [e | a]]; reflexivity.
Qed.

Lemma optimize_table_of (deg_models t : DegModels) (track team : string)
    (weather : Weather) :
  table_of deg_models track team t ->
  table_of deg_models track team
           (fst (optimize_strategy t track team weather)).
Proof.
  intros Ht. unfold optimize_strategy.
  destruct (Dict.get track_laps_dict track) as [total_laps|];
    [ | exact Ht ].
  pose proof (try_candidates_table_of deg_models t track team weather
                (candidates total_laps) None Ht) as Ht'.
  destruct (try_candidates t track team weather (candidates total_laps)
                           None)
    as [t' [[[best_strat best_time] best_analytics]|]]; [ exact Ht' | ].
  cbn [fst] in Ht'.
  pose proof (simulate_table_of _ _ _ _ weather
                [("MEDIUM"%string, total_laps)] Ht') as Ht''.
  destruct (simulate_strategy t' track team weather
                              [("MEDIUM"%string, total_laps)])
    as [t'' [e | a]]; exact Ht''.
Qed.

Lemma optimize_snd_table_of (deg_models t : DegModels)
    (track team : string) (weather : Weather) :
  table_of deg_models track team t ->
  snd (optimize_strategy t track team weather)
  = snd (optimize_strategy deg_models track team weather).
Proof.
  intros Ht. rewrite !optimize_snd.
  destruct (Dict.get track_laps_dict track) as [total_laps|];
    [ | reflexivity ].
  rewrite (try_candidates_snd_table_of deg_models t deg_models track team
             weather _ None Ht (table_of_refl _ _ _)).
  unfold sim. now rewrite (simulate_snd_table_of _ _ _ _ weather _ Ht).
Qed.

(** X8.  Neither the simulator nor the optimiser ever changes or removes
    what the table stores, and the one thing a call can add is the team it
    was asked about, under its track.  The table a call leaves is the
    table it was given, or that table with the team's fallback (the means
    over the teams of the track) written under the track, the team not
    being there before; so the tracks are the same, every team other than
    the one asked about is stored as before, and an entry stored before
    the call is stored, unchanged, after it. *)
Theorem stored_entries_are_kept (deg_models t : DegModels)
    (track team : string) (weather : Weather) (strategy : Strategy) :
  t = fst (simulate_strategy deg_models track team weather strategy)
  \/ t = fst (optimize_strategy deg_models track team weather) ->
  (t = deg_models
   \/ exists track_data,
        Dict.get deg_models track = Some track_data
        /\ Dict.mem track_data team = false
        /\ t = Dict.set deg_models track
                        (Dict.set track_data team
                                  (averaged (Dict.values track_data))))
  /\ (forall other, Dict.mem t other = Dict.mem deg_models other)
  /\ (forall track' team',
         track' <> track \/ team' <> team ->
         stored_team t track' team' = stored_team deg_models track' team')
  /\ (forall track' team' comp e,
         stored deg_models track' team' comp = Some e ->
         stored t track' team' comp = Some e).
Proof.
  intros Ht.
  assert (Htable : table_of deg_models track team t).
  { destruct Ht as [-> | ->].
    - apply simulate_table_of, table_of_refl.
    - apply optimize_table_of, table_of_refl. }
  destruct (table_of_keeps_entries _ _ _ _ Htable) as [Hkept Htracks].
  assert (Hshape :
            t = deg_models
            \/ exists track_data,
                 Dict.get deg_models track = Some track_data
                 /\ Dict.mem track_data team = false
                 /\ t = Dict.set deg_models track
                                 (Dict.set track_data team
                                           (averaged
                                              (Dict.values track_data)))).
  { destruct Htable as [-> | ->]; [ now left | ].
    unfold resolve_track_data.
    destruct (Dict.get deg_models track) as [track_data|] eqn:Htrack;
      [ | now left ].
    destruct (Dict.mem track_data team) eqn:Hteam; [ now left | ].
    right. exists track_data. cbn [fst]. unfold team_fallback.
    rewrite Hteam. auto. }
  split; [ exact Hshape | ].
  split; [ exact Htracks | ].
  split; [ | exact Hkept ].
  intros track' team' Hother.
  destruct Hshape as [-> | [track_data [Htrack [Hteam ->]]]];
    [ reflexivity | ].
  unfold stored_team.
  destruct (String.eqb_spec track' track) as [-> | Hne].
  - rewrite get_set_same, Htrack.
    destruct Hother as [Hne | Hne]; [ congruence | ].
    now rewrite get_set_other by exact Hne.
  - now rewrite get_set_other by exact Hne.
Qed.

Lemma stored_entries_are_kept_monza :
  stored (fst (simulate_strategy monza_two_teams "Monza" "McLaren" dry_30
                                 [("SOFT"%string, 53%Z)]))
         "Monza" "Ferrari" "HARD"
  = Some (mkEntry 82 0.25)
  /\ stored_team (fst (simulate_strategy monza_two_teams "Monza" "McLaren"
                                         dry_30 [("SOFT"%string, 53%Z)]))
                 "Monza" "Mercedes"
     = Some mercedes_soft.
Proof.
  destruct (stored_entries_are_kept
              monza_two_teams _ "Monza" "McLaren" dry_30
              [("SOFT"%string, 53%Z)] (or_introl eq_refl))
    as [_ [_ [Hteams Hkept]]].
  split.
  - apply Hkept. reflexivity.
  - rewrite Hteams; [ reflexivity | right; discriminate ].
Defined.

(** X9.  A call for a track and a team does not change what later calls
    for the same track and team return: simulating or optimising on the
    table an earlier simulation or optimisation has left gives the result
    it gives on the table before it. *)
Theorem same_team_results_are_stable (deg_models : DegModels)
    (track team : string) (w1 w2 : Weather) (s1 s2 : Strategy) :
  snd (simulate_strategy
         (fst (simulate_strategy deg_models track team w1 s1))
         track team w2 s2)
  = snd (simulate_strategy deg_models track team w2 s2)
  /\ snd (simulate_strategy
            (fst (optimize_strategy deg_models track team w1))
            track team w2 s2)
     = snd (simulate_strategy deg_models track team w2 s2)
  /\ snd (optimize_strategy
            (fst (simulate_strategy deg_models track team w1 s1))
            track team w2)
     = snd (optimize_strategy deg_models track team w2)
  /\ snd (optimize_strategy
            (fst (optimize_strategy deg_models track team w1))
            track team w2)
     = snd (optimize_strategy deg_models track team w2).
Proof.
  pose proof (simulate_table_of _ _ _ _ w1 s1
                                (table_of_refl deg_models track team)) as Hs.
  pose proof (optimize_table_of _ _ _ _ w1
                                (table_of_refl deg_models track team)) as Ho.
  repeat split.
  - now apply simulate_snd_table_of.
  - now apply simulate_snd_table_of.
  - now apply optimize_snd_table_of.
  - now apply optimize_snd_table_of.
Qed.

(* ================================================================== *)
(** ** The choice of the optimiser *)

Lemma Qgtb_true (x y : Q) : Qgtb x y = true <-> y < x.
Proof.
  unfold Qgtb. rewrite negb_true_iff. split.
  - intros H. apply Qnot_le_lt. intros Hle.
    apply Qle_bool_iff in Hle. congruence.
  - intros H. destruct (Qle_bool x y) eqn:E; [ | reflexivity ].
    apply Qle_bool_iff in E. lra.
Qed.

Lemma Qgtb_false (x y : Q) : Qgtb x y = false <-> x <= y.
Proof.
  unfold Qgtb. rewrite negb_false_iff. apply Qle_bool_iff.
Qed.

Lemma try_candidates_step (deg_models t : DegModels) (track team : string)
    (weather : Weather) (strat : Strategy) (rest : list Strategy)
    (best : Best) :
  table_of deg_models track team t ->
  exists t',
    table_of deg_models track team t'
    /\ try_candidates t track team weather (strat :: rest) best
       = try_candidates t' track team weather rest
           match sim deg_models track team weather strat with
           | inl _ => best
           | inr sim_result =>
               match best with
               | None => Some (strat, total_time sim_result, sim_result)
               | Some (_, best_time, _) =>
                   if Qgtb best_time (total_time sim_result)
                   then Some (strat, total_time sim_result, sim_result)
                   else best
               end
           end.
Proof.
  intros Ht. cbn [try_candidates]. unfold sim.
  rewrite <- (simulate_snd_table_of _ _ _ _ weather strat Ht).
  pose proof (simulate_table_of _ _ _ _ weather strat Ht) as Ht'.
  destruct (simulate_strategy t track team weather strat) as [t' r].
  exists t'. split; [ exact Ht' | reflexivity ].
Qed.

Lemma try_candidates_none (deg_models t : DegModels) (track team : string)
    (weather : Weather) (cands : list Strategy) (best : Best) :
  table_of deg_models track team t ->
  snd (try_candidates t track team weather cands best) = None ->
  best = None
  /\ forall c, In c cands ->
               exists e, sim deg_models track team weather c = inl e.
Proof.
  revert t best. induction cands as [|strat rest IH]; intros t best Ht H.
  - split; [ exact H | intros c [] ].
  - destruct (try_candidates_step _ _ _ _ weather strat rest best Ht)
      as [t' [Ht' Hstep]].
    rewrite Hstep in H. destruct (IH _ _ Ht' H) as [Hbest Hrest].
    destruct (sim deg_models track team weather strat) as [e | a] eqn:E.
    + split; [ exact Hbest | ].
      intros c [<- | Hin]; [ eauto | now apply Hrest ].
    + destruct best as [[[s0 t0] a0]|]; [ | discriminate ].
      destruct (Qgtb t0 (total_time a)); discriminate.
Qed.

(** The plan the loop ends on: either the best it started with, no
    candidate being strictly faster, or a candidate that is strictly
    faster than every simulated candidate before it and than the best the
    loop started with, and at least as fast as those after it. *)
Lemma try_candidates_choice (deg_models t : DegModels)
    (track team : string) (weather : Weather) (cands : list Strategy)
    (best : Best) (s : Strategy) (time : Q) (a : Analytics) :
  table_of deg_models track team t ->
  snd (try_candidates t track team weather cands best) = Some (s, time, a) ->
  (best = Some (s, time, a)
   /\ forall c a', In c cands ->
                   sim deg_models track team weather c = inr a' ->
                   time <= total_time a')
  \/ (exists pre post,
         cands = pre ++ s :: post
         /\ sim deg_models track team weather s = inr a
         /\ time = total_time a
         /\ (forall c a', In c pre ->
                          sim deg_models track team weather c = inr a' ->
                          time < total_time a')
         /\ (forall c a', In c post ->
                          sim deg_models track team weather c = inr a' ->
                          time <= total_time a')
         /\ (forall s0 t0 a0, best = Some (s0, t0, a0) -> time < t0)).
Proof.
  revert t best. induction cands as [|strat rest IH]; intros t best Ht H.
  - left. split; [ exact H | intros c a' [] ].
  - destruct (try_candidates_step _ _ _ _ weather strat rest best Ht)
      as [t' [Ht' Hstep]].
    rewrite Hstep in H. clear Hstep.
    destruct (sim deg_models track team weather strat) as [e | ac] eqn:E.
    + (* the candidate raised *)
      destruct (IH _ _ Ht' H)
        as [[Hb Hall] | [pre [post [Hc [Hs [Ht0 [Hpre [Hpost Hbest]]]]]]]].
      * left. split; [ exact Hb | ].
        intros c a' [<- | Hin] Hsim; [ congruence | eauto ].
      * right. exists (strat :: pre), post. rewrite Hc.
        repeat split; try assumption.
        intros c a' [<- | Hin] Hsim; [ congruence | eauto ].
    + destruct best as [[[s0 t0] a0]|].
      * destruct (Qgtb t0 (total_time ac)) eqn:Hcmp.
        -- (* the candidate replaces the best *)
           apply Qgtb_true in Hcmp.
           destruct (IH _ _ Ht' H)
             as [[Hb Hall]
                | [pre [post [Hc [Hs [Ht0 [Hpre [Hpost Hbest]]]]]]]].
           ++ injection Hb as <- <- <-.
              right. exists [], rest.
              repeat split; try assumption.
              ** intros c a' [].
              ** intros s1 t1 a1 H1. injection H1 as <- <- <-. exact Hcmp.
           ++ specialize (Hbest _ _ _ eq_refl).
              right. exists (strat :: pre), post. rewrite Hc.
              repeat split; try assumption.
              ** intros c a' [<- | Hin] Hsim; [ | eauto ].
                 rewrite E in Hsim. injection Hsim as <-. exact Hbest.
              ** intros s1 t1 a1 H1. injection H1 as <- <- <-. lra.
        -- (* the best stays *)
           apply Qgtb_false in Hcmp.
           destruct (IH _ _ Ht' H)
             as [[Hb Hall]
                | [pre [post [Hc [Hs [Ht0 [Hpre [Hpost Hbest]]]]]]]].
           ++ left. split; [ exact Hb | ].
              injection Hb as <- <- <-.
              intros c a' [<- | Hin] Hsim; [ | eauto ].
              rewrite E in Hsim. injection Hsim as <-. exact Hcmp.
           ++ pose proof (Hbest _ _ _ eq_refl) as Hlt.
              right. exists (strat :: pre), post. rewrite Hc.
              repeat split; try assumption.
              intros c a' [<- | Hin] Hsim; [ | eauto ].
              rewrite E in Hsim. injection Hsim as <-. lra.
      * (* the first candidate that is simulated *)
        destruct (IH _ _ Ht' H)
          as [[Hb Hall]
             | [pre [post [Hc [Hs [Ht0 [Hpre [Hpost Hbest]]]]]]]].
        -- injection Hb as <- <- <-.
           right. exists [], rest.
           repeat split; try assumption.
           ++ intros c a' [].
           ++ intros s1 t1 a1 H1. discriminate.
        -- specialize (Hbest _ _ _ eq_refl).
           right. exists (strat :: pre), post. rewrite Hc.
           repeat split; try assumption.
           ++ intros c a' [<- | Hin] Hsim; [ | eauto ].
              rewrite E in Hsim. injection Hsim as <-. exact Hbest.
           ++ intros s1 t1 a1 H1. discriminate.
Qed.

Lemma candidates_sum (track : string) (total_laps : Z) (c : Strategy) :
  Dict.get track_laps_dict track = Some total_laps ->
  In c (candidates total_laps) ->
  sum_laps c = total_laps /\ Forall (fun st => (10 <= snd st)%Z) c.
Proof.
  intros Hreg Hin. apply registry_bounds in Hreg.
  pose proof (candidates_well_split total_laps ltac:(lia)) as H.
  rewrite Forall_forall in H. exact (H c Hin).
Qed.

Lemma fallback_sum (total_laps : Z) :
  sum_laps [("MEDIUM"%string, total_laps)] = total_laps.
Proof. unfold sum_laps. cbn [fold_left snd]. lia. Qed.

(** What [optimize_strategy] returns, from the choice of the loop. *)
Lemma optimize_choice (deg_models : DegModels) (track team : string)
    (weather : Weather) (total_laps : Z) (plan : Strategy) (time : Q)
    (pits : list Z) (a : Analytics) :
  Dict.get track_laps_dict track = Some total_laps ->
  snd (optimize_strategy deg_models track team weather)
  = inr (plan, time, pits, a) ->
  sim deg_models track team weather plan = inr a
  /\ time = total_time a
  /\ pits = pit_laps_of plan
  /\ ((exists pre post,
          candidates total_laps = pre ++ plan :: post
          /\ (forall c a', In c pre ->
                           sim deg_models track team weather c = inr a' ->
                           time < total_time a')
          /\ (forall c a', In c post ->
                           sim deg_models track team weather c = inr a' ->
                           time <= total_time a'))
      \/ (plan = [("MEDIUM"%string, total_laps)]
          /\ forall c, In c (candidates total_laps) ->
                       exists e,
                         sim deg_models track team weather c = inl e)).
Proof.
  intros Hreg H. rewrite optimize_snd, Hreg in H.
  destruct (snd (try_candidates deg_models track team weather
                                (candidates total_laps) None))
    as [[[bs bt] ba]|] eqn:E.
  - injection H as <- <- <- <-.
    destruct (try_candidates_choice _ _ _ _ _ _ _ _ _ _
                (table_of_refl deg_models track team) E)
      as [[Hb _] | [pre [post [Hc [Hs [Ht [Hpre [Hpost _]]]]]]]];
      [ discriminate | ].
    repeat split; try assumption.
    left. exists pre, post. repeat split; assumption.
  - destruct (try_candidates_none _ _ _ _ _ _ _
                (table_of_refl deg_models track team) E) as [_ Hall].
    destruct (sim deg_models track team weather
                  [("MEDIUM"%string, total_laps)]) as [e | ba] eqn:Es;
      [ discriminate | ].
    injection H as <- <- <- <-.
    repeat split; try assumption.
    right. split; [ reflexivity | exact Hall ].
Qed.

(** X11.  What the optimiser returns is consistent and optimal over the
    menu: the plan is a plan of the menu or the all-MEDIUM plan, its lap
    counts add up to the total, the analytics are those of simulating it,
    the time is their [total_time], the pit laps are those of the plan, and
    no plan of the menu that can be simulated has a smaller total time. *)
Theorem optimize_returns_fastest_of_menu (deg_models : DegModels)
    (track team : string) (weather : Weather) (total_laps : Z)
    (plan : Strategy) (time : Q) (pits : list Z) (a : Analytics) :
  Dict.get track_laps_dict track = Some total_laps ->
  snd (optimize_strategy deg_models track team weather)
  = inr (plan, time, pits, a) ->
  (In plan (candidates total_laps)
   \/ plan = [("MEDIUM"%string, total_laps)])
  /\ sum_laps plan = total_laps
  /\ snd (simulate_strategy deg_models track team weather plan) = inr a
  /\ time = total_time a
  /\ pits = pit_laps_of plan
  /\ forall c a',
      In c (candidates total_laps) ->
      snd (simulate_strategy deg_models track team weather c) = inr a' ->
      time <= total_time a'.
Proof.
  intros Hreg H.
  destruct (optimize_choice _ _ _ _ _ _ _ _ _ Hreg H)
    as [Hsim [Htime [Hpits Hcase]]].
  assert (Hin : In plan (candidates total_laps)
                \/ plan = [("MEDIUM"%string, total_laps)]).
  { destruct Hcase as [[pre [post [Hc _]]] | [Hp _]].
    - left. rewrite Hc. apply in_or_app. right. now left.
    - now right. }
  split; [ exact Hin | split ].
  - destruct Hin as [Hin | ->].
    + exact (proj1 (candidates_sum _ _ _ Hreg Hin)).
    + apply fallback_sum.
  - repeat split; try assumption.
    intros c a' Hc Ha'.
    destruct Hcase as [[pre [post [Hsplit [Hpre Hpost]]]] | [_ Hall]].
    + rewrite Hsplit in Hc. apply in_app_or in Hc.
      destruct Hc as [Hc | [<- | Hc]].
      * apply Qlt_le_weak. eapply Hpre; eassumption.
      * unfold sim in Hsim. rewrite Hsim in Ha'. injection Ha' as <-.
        rewrite Htime. apply Qle_refl.
      * eapply Hpost; eassumption.
    + destruct (Hall c Hc) as [e He]. unfold sim in He. congruence.
Qed.

Lemma optimize_returns_fastest_of_menu_monza :
  exists plan time pits a,
    snd (optimize_strategy monza_ferrari "Monza" "Ferrari" dry_30)
    = inr (plan, time, pits, a)
    /\ plan = [("SOFT"%string, 15%Z); ("HARD"%string, 21%Z);
               ("HARD"%string, 17%Z)]
    /\ pits = [15%Z; 36%Z]
    /\ sum_laps plan = 53%Z
    /\ time = total_time a.
Proof.
  eexists. eexists. eexists. eexists.
  split; [ vm_compute; reflexivity | ].
  match goal with
  | |- ?plan = _ /\ ?pits = _ /\ _ /\ ?time = total_time ?a =>
      destruct (optimize_returns_fastest_of_menu
                  monza_ferrari "Monza" "Ferrari" dry_30 53 plan time pits a
                  eq_refl)
        as [_ [Hsum [_ [Htime _]]]]
  end.
  - vm_compute. reflexivity.
  - split; [ reflexivity | split; [ reflexivity | split ] ].
    + exact Hsum.
    + exact Htime.
Defined.

(** X12.  Ties go to the plan that comes first in the menu: the plan
    returned is strictly faster than every plan before it in the menu that
    can be simulated.  The all-MEDIUM plan is returned only when no plan of
    the menu can be simulated. *)
Theorem optimize_keeps_first_of_equals (deg_models : DegModels)
    (track team : string) (weather : Weather) (total_laps : Z)
    (plan : Strategy) (time : Q) (pits : list Z) (a : Analytics) :
  Dict.get track_laps_dict track = Some total_laps ->
  snd (optimize_strategy deg_models track team weather)
  = inr (plan, time, pits, a) ->
  (exists pre post,
      candidates total_laps = pre ++ plan :: post
      /\ forall c a',
          In c pre ->
          snd (simulate_strategy deg_models track team weather c) = inr a' ->
          time < total_time a')
  \/ (plan = [("MEDIUM"%string, total_laps)]
      /\ forall c,
          In c (candidates total_laps) ->
          exists e,
            snd (simulate_strategy deg_models track team weather c)
            = inl e).
Proof.
  intros Hreg H.
  destruct (optimize_choice _ _ _ _ _ _ _ _ _ Hreg H)
    as [_ [_ [_ [[pre [post [Hc [Hpre _]]]] | [Hp Hall]]]]].
  - left. exists pre, post. split; [ exact Hc | exact Hpre ].
  - right. split; [ exact Hp | exact Hall ].
Qed.

(** A wet race on flat curves: both one-stop plans of the menu take the
    same time, and the first of them is returned. *)
Lemma optimize_keeps_first_of_equals_monza :
  exists plan time pits a second,
    snd (optimize_strategy flat_monza "Monza" "Ferrari" wet_30)
    = inr (plan, time, pits, a)
    /\ plan = [("SOFT"%string, 15%Z); ("HARD"%string, 38%Z)]
    /\ snd (simulate_strategy flat_monza "Monza" "Ferrari" wet_30
                              [("MEDIUM"%string, 26%Z); ("HARD"%string, 27%Z)])
       = inr second
    /\ total_time second == time
    /\ ((exists pre post,
            candidates 53 = pre ++ plan :: post
            /\ forall c a',
                In c pre ->
                snd (simulate_strategy flat_monza "Monza" "Ferrari" wet_30 c)
                = inr a' ->
                time < total_time a')
        \/ (plan = [("MEDIUM"%string, 53%Z)]
            /\ forall c,
                In c (candidates 53) ->
                exists e,
                  snd (simulate_strategy flat_monza "Monza" "Ferrari"
                                         wet_30 c) = inl e)).
Proof.
  eexists. eexists. eexists. eexists. eexists.
  split; [ vm_compute; reflexivity | ].
  split; [ reflexivity | ].
  split; [ vm_compute; reflexivity | ].
  split; [ reflexivity | ].
  match goal with
  | |- (exists pre post, _ = pre ++ ?plan :: post /\ _) \/ _ =>
      match goal with
      | |- context [ ?time < total_time _ ] =>
          eapply (optimize_keeps_first_of_equals
                    flat_monza "Monza" "Ferrari" wet_30 53 plan time
                    [15%Z] _ eq_refl)
      end
  end.
  vm_compute. reflexivity.
Defined.

(* ================================================================== *)
(** ** Pit laps *)

Lemma menu_shapes (total_laps : Z) (plan : Strategy) :
  In plan (candidates total_laps) ->
  (exists c1 c2 x y, plan = [(c1, x); (c2, y)])
  \/ (exists c1 c2 c3 x y z, plan = [(c1, x); (c2, y); (c3, z)]).
Proof.
  unfold candidates. cbv zeta. cbn [In].
  intros [<- | [<- | [<- | [<- | [<- | [<- | []]]]]]]; eauto 10.
Qed.

(** X13.  The pit laps returned by the optimiser, for a track of the
    registry: one per stint after the first, so none, one or two; each is
    the last lap of a stint, at least 10 and at most [total_laps - 10]; and
    they go up by at least 10 laps. *)
Theorem optimize_pit_laps (deg_models : DegModels) (track team : string)
    (weather : Weather) (total_laps : Z) (plan : Strategy) (time : Q)
    (pits : list Z) (a : Analytics) :
  Dict.get track_laps_dict track = Some total_laps ->
  snd (optimize_strategy deg_models track team weather)
  = inr (plan, time, pits, a) ->
  length pits = (length plan - 1)%nat
  /\ (length pits <= 2)%nat
  /\ (forall k, (k < length pits)%nat ->
                nth k pits 0%Z = sum_laps (firstn (S k) plan))
  /\ Forall (fun p => (10 <= p <= total_laps - 10)%Z) pits
  /\ (forall k, (S k < length pits)%nat ->
                (nth k pits 0 + 10 <= nth (S k) pits 0)%Z).
Proof.
  intros Hreg H.
  destruct (optimize_choice _ _ _ _ _ _ _ _ _ Hreg H)
    as [_ [_ [-> Hcase]]].
  assert (Hin : In plan (candidates total_laps)
                \/ plan = [("MEDIUM"%string, total_laps)]).
  { destruct Hcase as [[pre [post [Hc _]]] | [Hp _]].
    - left. rewrite Hc. apply in_or_app. right. now left.
    - now right. }
  destruct Hin as [Hin | ->].
  - destruct (candidates_sum _ _ _ Hreg Hin) as [Hsum Hmin].
    destruct (menu_shapes _ _ Hin)
      as [[c1 [c2 [x [y ->]]]] | [c1 [c2 [c3 [x [y [z ->]]]]]]].
    + rewrite !sum_laps_cons in Hsum. change (sum_laps []) with 0%Z in Hsum.
      inversion Hmin as [|? ? Hx Hmin']; subst.
      inversion Hmin' as [|? ? Hy _]; subst. cbn [snd] in *.
      unfold pit_laps_of. cbn [length Nat.sub seq map firstn].
      rewrite !sum_laps_cons. change (sum_laps []) with 0%Z. cbn [snd].
      repeat split.
      * lia.
      * intros [|k] Hk; [ | simpl in Hk; lia ].
        cbn [nth firstn]. rewrite !sum_laps_cons.
        change (sum_laps []) with 0%Z. reflexivity.
      * repeat constructor; lia.
      * intros k Hk. simpl in Hk. lia.
    + rewrite !sum_laps_cons in Hsum. change (sum_laps []) with 0%Z in Hsum.
      inversion Hmin as [|? ? Hx Hmin']; subst.
      inversion Hmin' as [|? ? Hy Hmin'']; subst.
      inversion Hmin'' as [|? ? Hz _]; subst. cbn [snd] in *.
      unfold pit_laps_of. cbn [length Nat.sub seq map firstn].
      rewrite !sum_laps_cons. change (sum_laps []) with 0%Z. cbn [snd].
      repeat split.
      * lia.
      * intros [|[|k]] Hk; [ | | simpl in Hk; lia ];
          cbn [nth firstn]; rewrite !sum_laps_cons;
          change (sum_laps []) with 0%Z; reflexivity.
      * repeat constructor; lia.
      * intros [|k] Hk; [ | simpl in Hk; lia ]. cbn [nth]. lia.
  - unfold pit_laps_of. cbn.
    repeat split; try lia; try constructor; intros k Hk; lia.
Qed.

Lemma optimize_pit_laps_monza :
  exists plan time pits a,
    snd (optimize_strategy monza_ferrari "Monza" "Ferrari" dry_30)
    = inr (plan, time, pits, a)
    /\ pits = [15%Z; 36%Z]
    /\ Forall (fun p => (10 <= p <= 53 - 10)%Z) pits.
Proof.
  eexists. eexists. eexists. eexists.
  split; [ vm_compute; reflexivity | ].
  split; [ reflexivity | ].
  match goal with
  | |- Forall _ ?pits =>
      destruct (optimize_pit_laps
                  monza_ferrari "Monza" "Ferrari" dry_30 53 _ _ pits _
                  eq_refl ltac:(vm_compute; reflexivity))
        as [_ [_ [_ [Hb _]]]]
  end.
  exact Hb.
Defined.

(* ================================================================== *)
(** ** Tables without gaps *)

Lemma get_In {V : Type} (d : Dict.t V) (k : string) (v : V) :
  Dict.get d k = Some v -> In (k, v) d.
Proof.
  induction d as [|[k' v'] d IH]; cbn [Dict.get]; [ discriminate | ].
  destruct (String.eqb_spec k k') as [-> | Hne].
  - intros H. injection H as ->. now left.
  - intros H. right. now apply IH.
Qed.

Lemma entries_for_covered (teams : Dict.t TeamData) (comp : string) :
  teams <> [] ->
  Forall (fun tm => Dict.mem (snd tm) comp = true) teams ->
  entries_for (Dict.values teams) comp <> [].
Proof.
  destruct teams as [|[tm v] rest]; [ contradiction | intros _ Hall ].
  inversion Hall as [|? ? Hv _]; subst. cbn [snd] in Hv.
  apply mem_true_get in Hv. destruct Hv as [e He].
  unfold entries_for, Dict.values. cbn [map snd flat_map].
  rewrite He. discriminate.
Qed.

Lemma all_teams_covered (deg_models : DegModels) (comp : string) :
  table_covers deg_models comp ->
  entries_for (all_teams deg_models) comp <> [].
Proof.
  intros [Hne Hall].
  destruct deg_models as [|[t td] rest]; [ contradiction | ].
  inversion Hall as [|? ? [Htd Hteams] _]; subst. cbn [snd] in *.
  destruct td as [|[tm v] td]; [ contradiction | ].
  inversion Hteams as [|? ? Hv _]; subst. cbn [snd] in Hv.
  apply mem_true_get in Hv. destruct Hv as [e He].
  unfold all_teams, entries_for, Dict.values.
  cbn [flat_map map snd app]. rewrite He. discriminate.
Qed.

(** On a table without gaps for a dry compound, the compound resolves for
    every track and every team. *)
Lemma covered_resolves (deg_models : DegModels) (track team comp : string) :
  table_covers deg_models comp ->
  In comp DRY ->
  exists p,
    stint_params (snd (resolve_track_data deg_models track team)) team comp
    = inr p.
Proof.
  intros Hcov Hdry.
  rewrite (stint_params_dry _ _ _ _ (resolve_get_team _ _ _)
                            (dry_not_intermediate _ Hdry)).
  unfold resolved_team.
  destruct (Dict.get deg_models track) as [track_data|] eqn:Htrack.
  - destruct Hcov as [_ Hall]. rewrite Forall_forall in Hall.
    destruct (Hall _ (get_In _ _ _ Htrack)) as [Hne Hteams].
    cbn [snd] in *.
    destruct (Dict.get track_data team) as [team_data|] eqn:Hteam.
    + rewrite Forall_forall in Hteams.
      pose proof (Hteams _ (get_In _ _ _ Hteam)) as Hmem. cbn [snd] in Hmem.
      apply mem_true_get in Hmem. destruct Hmem as [e ->]. eauto.
    + rewrite (averaged_get _ _ Hdry).
      pose proof (entries_for_covered _ _ Hne Hteams) as Hes.
      destruct (entries_for (Dict.values track_data) comp);
        [ contradiction | eauto ].
  - pose proof (all_teams_covered _ _ Hcov) as Hes.
    unfold track_fallback. cbn [Dict.get].
    destruct (String.eqb team "Other").
    + rewrite (averaged_get _ _ Hdry).
      destruct (entries_for (all_teams deg_models) comp);
        [ contradiction | eauto ].
    + unfold Dict.values. cbn [map snd].
      rewrite (averaged_get _ _ Hdry), entries_for_single.
      rewrite (averaged_get _ _ Hdry).
      destruct (entries_for (all_teams deg_models) comp);
        [ contradiction | eauto ].
Qed.

Lemma menu_compounds (total_laps : Z) (plan : Strategy) :
  In plan (candidates total_laps) ->
  Forall (fun st => In (fst st) DRY) plan.
Proof.
  unfold candidates. cbv zeta. cbn [In].
  intros [<- | [<- | [<- | [<- | [<- | [<- | []]]]]]];
    repeat (apply Forall_cons; [ cbn; auto 6 | ]); apply Forall_nil.
Qed.

Lemma resolves_in_any_weather (deg_models : DegModels)
    (track team comp : string) (is_wet : bool) :
  (exists p,
      stint_params (snd (resolve_track_data deg_models track team)) team
                   comp = inr p) ->
  exists p,
    stint_params (snd (resolve_track_data deg_models track team)) team
                 (effective_comp is_wet comp) = inr p.
Proof.
  intros H. destruct is_wet; [ | exact H ].
  rewrite effective_comp_wet, resolved_intermediate. eauto.
Qed.

(** X14.  On a table without gaps (at least one track, at least one team
    under every track, and SOFT, MEDIUM and HARD under every team) the
    optimiser returns a plan for every track of the registry, every team
    and every weather: no plan of the menu is skipped, and the plan
    returned is a plan of the menu, never the all-MEDIUM one. *)
Theorem optimize_on_table_without_gaps (deg_models : DegModels)
    (track team : string) (weather : Weather) (total_laps : Z) :
  (forall comp, In comp DRY -> table_covers deg_models comp) ->
  Dict.get track_laps_dict track = Some total_laps ->
  (forall c, In c (candidates total_laps) ->
             exists a,
               snd (simulate_strategy deg_models track team weather c)
               = inr a)
  /\ exists plan time pits a,
      snd (optimize_strategy deg_models track team weather)
      = inr (plan, time, pits, a)
      /\ In plan (candidates total_laps).
Proof.
  intros Hcov Hreg.
  assert (Hall : forall c, In c (candidates total_laps) ->
                           exists a,
                             sim deg_models track team weather c = inr a).
  { intros c Hc. unfold sim.
    destruct (candidates_sum _ _ _ Hreg Hc) as [Hsum Hmin].
    rewrite (simulate_strategy_valid _ _ _ _ _ _ Hreg Hsum).
    apply simulate_valid_runs.
    pose proof (menu_compounds _ _ Hc) as Hdry.
    rewrite Forall_forall in *. intros st Hin. split.
    - apply resolves_in_any_weather.
      apply covered_resolves; [ apply Hcov | ]; now apply Hdry.
    - pose proof (Hmin st Hin). lia. }
  split; [ exact Hall | ].
  destruct (snd (optimize_strategy deg_models track team weather))
    as [e | [[[plan time] pits] a]] eqn:E.
  - exfalso. rewrite optimize_snd, Hreg in E.
    destruct (snd (try_candidates deg_models track team weather
                                  (candidates total_laps) None))
      as [[[bs bt] ba]|] eqn:Et; [ discriminate | ].
    destruct (try_candidates_none _ _ _ _ _ _ _
                (table_of_refl deg_models track team) Et) as [_ Hfail].
    assert (Hc : In [("SOFT"%string,
                      Z.max 10 (Z.min (int_mul 0.3 total_laps)
                                      (total_laps - 10)));
                     ("HARD"%string,
                      (total_laps
                       - Z.max 10 (Z.min (int_mul 0.3 total_laps)
                                         (total_laps - 10)))%Z)]
                    (candidates total_laps)) by now left.
    destruct (Hfail _ Hc) as [e' He']. destruct (Hall _ Hc) as [a' Ha'].
    congruence.
  - exists plan, time, pits, a. split; [ reflexivity | ].
    destruct (optimize_choice _ _ _ _ _ _ _ _ _ Hreg E)
      as [_ [_ [_ [[pre [post [Hc _]]] | [_ Hfail]]]]].
    + rewrite Hc. apply in_or_app. right. now left.
    + exfalso.
      assert (Hc : In [("SOFT"%string,
                        Z.max 10 (Z.min (int_mul 0.3 total_laps)
                                        (total_laps - 10)));
                       ("HARD"%string,
                        (total_laps
                         - Z.max 10 (Z.min (int_mul 0.3 total_laps)
                                           (total_laps - 10)))%Z)]
                      (candidates total_laps)) by now left.
      destruct (Hfail _ Hc) as [e' He']. destruct (Hall _ Hc) as [a' Ha'].
      congruence.
Qed.

Lemma hardcoded_covers (comp : string) :
  In comp DRY -> table_covers hardcoded comp.
Proof.
  intros [<- | [<- | [<- | []]]]; (split; [ discriminate | ]);
    repeat constructor; discriminate.
Qed.

(** The table [data_prep.py] falls back on has no gaps: Qatar, which it
    does not store, is optimised for Ferrari, which it does not store
    either. *)
Lemma optimize_on_table_without_gaps_hardcoded :
  exists plan time pits a,
    snd (optimize_strategy hardcoded "Qatar" "Ferrari" dry_30)
    = inr (plan, time, pits, a)
    /\ In plan (candidates 57).
Proof.
  exact (proj2 (optimize_on_table_without_gaps
                  hardcoded "Qatar" "Ferrari" dry_30 57
                  hardcoded_covers eq_refl)).
Defined.

(* ================================================================== *)
(** ** What the dashboard does with the result *)

Lemma sum_laps_app (l1 l2 : Strategy) :
  sum_laps (l1 ++ l2) = (sum_laps l1 + sum_laps l2)%Z.
Proof.
  induction l1 as [|st l1 IH].
  - change (sum_laps []) with 0%Z. cbn [app]. lia.
  - cbn [app]. rewrite !sum_laps_cons, IH. lia.
Qed.

Lemma firstn_done (done rest : Strategy) :
  firstn (length done) (done ++ rest) = done.
Proof.
  rewrite <- (Nat.add_0_r (length done)), firstn_app_2.
  cbn [firstn]. apply app_nil_r.
Qed.

Lemma firstn_done_next (done rest : Strategy) (st : Stint) :
  firstn (S (length done)) (done ++ st :: rest) = done ++ [st].
Proof.
  rewrite <- Nat.add_1_r, firstn_app_2. reflexivity.
Qed.

Lemma pit_laps_of_nth_error (full : Strategy) (k : nat) :
  (S k < length full)%nat ->
  nth_error (pit_laps_of full) k = Some (sum_laps (firstn (S k) full)).
Proof.
  intros Hk. unfold pit_laps_of.
  rewrite nth_error_map.
  rewrite (nth_error_nth' _ 0%nat) by (rewrite length_seq; lia).
  rewrite seq_nth by lia. reflexivity.
Qed.

Lemma nth_error_in_range {A : Type} (l : list A) (i : nat) :
  (i < length l)%nat -> exists x, nth_error l i = Some x.
Proof.
  intros Hi. destruct (nth_error l i) as [x|] eqn:E; [ eauto | ].
  apply nth_error_None in E. lia.
Qed.

(** The rows of the table, from stint [length done] on. *)
Lemma breakdown_from_rows (rest done full : Strategy) (a : Analytics) :
  full = done ++ rest ->
  length (stint_times a) = length full ->
  length (avg_lap_times a) = length full ->
  length (deg_penalties a) = length full ->
  exists rows,
    breakdown_from (length done) (sum_laps done) rest (pit_laps_of full) a
    = Some rows
    /\ length rows = length rest
    /\ forall j r,
        nth_error rows j = Some r ->
        let k := (length done + j)%nat in
        row_stint r = (Z.of_nat k + 1)%Z
        /\ row_start_lap r = (sum_laps (firstn k full) + 1)%Z
        /\ row_end_lap r = sum_laps (firstn (S k) full)
        /\ row_pit_lap r = match k with
                           | O => None
                           | S _ => Some (row_start_lap r - 1)%Z
                           end
        /\ nth_error (stint_times a) k = Some (row_stint_time r).
Proof.
  revert done. induction rest as [|[comp stints] rest IH];
    intros done Hfull Ht Hv Hd.
  - exists []. split; [ reflexivity | split; [ reflexivity | ] ].
    intros [|j] r H; discriminate.
  - assert (Hlen : (length done < length full)%nat).
    { rewrite Hfull, length_app. cbn [length]. lia. }
    destruct (nth_error_in_range (stint_times a) (length done)
                                 ltac:(lia)) as [t Et].
    destruct (nth_error_in_range (avg_lap_times a) (length done)
                                 ltac:(lia)) as [v Ev].
    destruct (nth_error_in_range (deg_penalties a) (length done)
                                 ltac:(lia)) as [d Ed].
    assert (Hpit : match length done with
                   | O => Some None
                   | S i' =>
                       option_map Some (nth_error (pit_laps_of full) i')
                   end
                   = Some match length done with
                          | O => None
                          | S _ => Some (sum_laps done)
                          end).
    { destruct (length done) as [|i'] eqn:Ei; [ reflexivity | ].
      rewrite pit_laps_of_nth_error by lia.
      cbn [option_map]. rewrite <- Ei, Hfull, firstn_done. reflexivity. }
    destruct (IH (done ++ [(comp, stints)])) as [rows [Hrows [Hl Hspec]]];
      try assumption.
    { rewrite Hfull, <- app_assoc. reflexivity. }
    rewrite length_app in Hrows. cbn [length] in Hrows.
    rewrite Nat.add_1_r in Hrows.
    rewrite sum_laps_app, sum_laps_cons in Hrows.
    change (sum_laps []) with 0%Z in Hrows. cbn [snd] in Hrows.
    rewrite Z.add_0_r in Hrows.
    cbn [breakdown_from]. rewrite Hpit, Et, Ev, Ed, Hrows.
    eexists. split; [ reflexivity | split; [ cbn [length]; lia | ] ].
    intros [|j] r Hr.
    + cbn [nth_error] in Hr. injection Hr as <-.
      cbv zeta. rewrite Nat.add_0_r.
      cbn [row_stint row_start_lap row_end_lap row_pit_lap row_stint_time].
      rewrite Hfull, firstn_done, firstn_done_next, sum_laps_app,
        sum_laps_cons.
      change (sum_laps []) with 0%Z. cbn [snd].
      repeat split; try lia; try assumption.
      destruct (length done); [ reflexivity | ]. f_equal. lia.
    + cbn [nth_error] in Hr. specialize (Hspec j r Hr). cbv zeta in *.
      rewrite length_app in Hspec. cbn [length] in Hspec.
      replace (length done + 1 + j)%nat with (length done + S j)%nat
        in Hspec by lia.
      exact Hspec.
Qed.

Lemma sum_laps_firstn_S (plan : Strategy) (k : nat) (st : Stint) :
  nth_error plan k = Some st ->
  sum_laps (firstn (S k) plan) = (sum_laps (firstn k plan) + snd st)%Z.
Proof.
  revert k. induction plan as [|st0 plan IH]; intros [|k] H;
    try discriminate.
  - cbn [nth_error] in H. injection H as ->.
    cbn [firstn]. rewrite sum_laps_cons.
    change (sum_laps []) with 0%Z. lia.
  - cbn [nth_error] in H.
    change (firstn (S (S k)) (st0 :: plan))
      with (st0 :: firstn (S k) plan).
    change (firstn (S k) (st0 :: plan)) with (st0 :: firstn k plan).
    rewrite !sum_laps_cons, (IH k H). lia.
Qed.

(** The plan the optimiser returns: its lap counts add up, no stint is
    shorter than 10 laps, and the analytics are those of simulating it. *)
Lemma optimize_plan_shape (deg_models : DegModels) (track team : string)
    (weather : Weather) (total_laps : Z) (plan : Strategy) (time : Q)
    (pits : list Z) (a : Analytics) :
  Dict.get track_laps_dict track = Some total_laps ->
  snd (optimize_strategy deg_models track team weather)
  = inr (plan, time, pits, a) ->
  sum_laps plan = total_laps
  /\ Forall (fun st => (10 <= snd st)%Z) plan
  /\ sim deg_models track team weather plan = inr a
  /\ pits = pit_laps_of plan.
Proof.
  intros Hreg H.
  destruct (optimize_choice _ _ _ _ _ _ _ _ _ Hreg H)
    as [Hsim [_ [Hpits Hcase]]].
  pose proof (registry_bounds _ _ Hreg) as Hb.
  destruct Hcase as [[pre [post [Hc _]]] | [Hp _]].
  - assert (Hin : In plan (candidates total_laps)).
    { rewrite Hc. apply in_or_app. right. now left. }
    destruct (candidates_sum _ _ _ Hreg Hin) as [Hsum Hmin].
    split; [ exact Hsum | split; [ exact Hmin | split; assumption ] ].
  - subst plan.
    split; [ apply fallback_sum | ].
    split; [ | split; assumption ].
    apply Forall_cons; [ cbn [snd]; lia | apply Forall_nil ].
Qed.

(** X15.  The stint table of the dashboard can always be built from what
    the optimiser returns for a track of the registry: none of its
    subscripts is out of range, and it has one row per stint.  Row [k]
    (from 0) is numbered [k + 1], starts on the lap after the laps of the
    stints before it and ends with the laps of its own stint, at least 9
    laps later; the first row has no pit lap, every other row has the lap
    before its first lap; the first row starts on lap 1 and the last row
    ends on the last lap of the race. *)
Theorem breakdown_of_optimizer_output (deg_models : DegModels)
    (track team : string) (weather : Weather) (total_laps : Z)
    (plan : Strategy) (time : Q) (pits : list Z) (a : Analytics) :
  Dict.get track_laps_dict track = Some total_laps ->
  snd (optimize_strategy deg_models track team weather)
  = inr (plan, time, pits, a) ->
  exists rows,
    breakdown plan pits a = Some rows
    /\ length rows = length plan
    /\ (forall k r,
          nth_error rows k = Some r ->
          row_stint r = (Z.of_nat k + 1)%Z
          /\ row_start_lap r = (sum_laps (firstn k plan) + 1)%Z
          /\ row_end_lap r = sum_laps (firstn (S k) plan)
          /\ (row_start_lap r + 9 <= row_end_lap r)%Z
          /\ row_pit_lap r = match k with
                             | O => None
                             | S _ => Some (row_start_lap r - 1)%Z
                             end
          /\ nth_error (stint_times a) k = Some (row_stint_time r))
    /\ (forall r, nth_error rows 0 = Some r -> row_start_lap r = 1%Z)
    /\ (forall r, nth_error rows (length plan - 1) = Some r ->
                  row_end_lap r = total_laps).
Proof.
  intros Hreg H.
  destruct (optimize_plan_shape _ _ _ _ _ _ _ _ _ Hreg H)
    as [Hsum [Hmin [Hsim ->]]].
  unfold sim in Hsim.
  destruct (simulate_lists _ _ _ _ _ _ _ Hreg Hsum Hsim)
    as [Ht [Hd [Hv _]]].
  destruct (breakdown_from_rows plan [] plan a eq_refl)
    as [rows [Hrows [Hlen Hspec]]];
    try (rewrite ?Ht, ?Hd, ?Hv; apply length_map).
  cbn [length] in Hrows. change (sum_laps []) with 0%Z in Hrows.
  exists rows. split; [ exact Hrows | split; [ exact Hlen | ] ].
  assert (Hrow : forall k r,
             nth_error rows k = Some r ->
             row_stint r = (Z.of_nat k + 1)%Z
             /\ row_start_lap r = (sum_laps (firstn k plan) + 1)%Z
             /\ row_end_lap r = sum_laps (firstn (S k) plan)
             /\ (row_start_lap r + 9 <= row_end_lap r)%Z
             /\ row_pit_lap r = match k with
                                | O => None
                                | S _ => Some (row_start_lap r - 1)%Z
                                end
             /\ nth_error (stint_times a) k = Some (row_stint_time r)).
  { intros k r Hr. specialize (Hspec k r Hr). cbv zeta in Hspec.
    cbn [length plus] in Hspec.
    destruct Hspec as [H1 [H2 [H3 [H4 H5]]]].
    assert (Hk : (k < length plan)%nat).
    { rewrite <- Hlen. apply nth_error_Some. congruence. }
    destruct (nth_error_in_range plan k Hk) as [st Hst].
    pose proof (sum_laps_firstn_S plan k st Hst) as Hstep.
    assert (Hten : (10 <= snd st)%Z).
    { rewrite Forall_forall in Hmin. apply Hmin.
      eapply nth_error_In; eassumption. }
    repeat split; try assumption. lia. }
  split; [ exact Hrow | split ].
  - intros r Hr. destruct (Hrow 0%nat r Hr) as [_ [H2 _]].
    rewrite H2. cbn [firstn]. change (sum_laps []) with 0%Z. lia.
  - intros r Hr. destruct (Hrow _ r Hr) as [_ [_ [H3 _]]].
    rewrite H3.
    assert (Hpos : (0 < length plan)%nat).
    { destruct plan; [ | cbn [length]; lia ].
      change (sum_laps []) with 0%Z in Hsum.
      pose proof (registry_bounds _ _ Hreg). lia. }
    replace (S (length plan - 1)) with (length plan) by lia.
    rewrite firstn_all. exact Hsum.
Qed.

Lemma breakdown_of_optimizer_output_monza :
  exists plan time pits a rows,
    snd (optimize_strategy monza_ferrari "Monza" "Ferrari" dry_30)
    = inr (plan, time, pits, a)
    /\ breakdown plan pits a = Some rows
    /\ map (fun r => (row_start_lap r, row_end_lap r, row_pit_lap r)) rows
       = [(1%Z, 15%Z, None); (16%Z, 36%Z, Some 15%Z);
          (37%Z, 53%Z, Some 36%Z)]
    /\ length rows = length plan.
Proof.
  eexists. eexists. eexists. eexists. eexists.
  split; [ vm_compute; reflexivity | ].
  split; [ vm_compute; reflexivity | ].
  split; [ vm_compute; reflexivity | ].
  match goal with
  | |- length ?rows = length ?plan =>
      destruct (breakdown_of_optimizer_output
                  monza_ferrari "Monza" "Ferrari" dry_30 53 plan _ _ _
                  eq_refl ltac:(vm_compute; reflexivity))
        as [rows' [Hrows [Hlen _]]]
  end.
  vm_compute in Hrows. injection Hrows as <-. exact Hlen.
Defined.

Lemma sum_laps_at_least (l : Strategy) :
  Forall (fun st => (10 <= snd st)%Z) l ->
  (10 * Z.of_nat (length l) <= sum_laps l)%Z.
Proof.
  induction 1 as [|st l Hst _ IH].
  - change (sum_laps []) with 0%Z. cbn [length]. lia.
  - rewrite sum_laps_cons. cbn [length]. lia.
Qed.

Lemma laps_run_of_plan (l : Strategy) :
  Forall (fun st => (10 <= snd st)%Z) l ->
  laps_run l = Z.to_nat (sum_laps l).
Proof.
  intros Hmin. destruct (laps_run_sum l) as [_ [_ Heq]].
  rewrite Heq; [ now rewrite Nat2Z.id | ].
  eapply Forall_impl; [ | exact Hmin ]. cbn beta. intros st Hst. lia.
Qed.

Lemma py_range_from_length (a b : Z) :
  length (py_range_from a b) = Z.to_nat (b - a).
Proof. unfold py_range_from. now rewrite length_map, length_seq. Qed.

Lemma py_range_from_In (a b p : Z) :
  In p (py_range_from a b) <-> (a <= p < b)%Z.
Proof.
  unfold py_range_from. rewrite in_map_iff. split.
  - intros [k [<- Hk]]. apply in_seq in Hk. lia.
  - intros Hp. exists (Z.to_nat (p - a)). split; [ lia | ].
    apply in_seq. lia.
Qed.

Lemma pit_laps_inside (plan : Strategy) :
  Forall (fun st => (10 <= snd st)%Z) plan ->
  Forall (fun p => (10 <= p <= sum_laps plan - 10)%Z) (pit_laps_of plan).
Proof.
  intros Hmin. unfold pit_laps_of. rewrite Forall_map, Forall_forall.
  intros k Hk. apply in_seq in Hk.
  rewrite <- (firstn_skipn k plan) in Hmin.
  apply Forall_app in Hmin. destruct Hmin as [Hf Hs].
  pose proof (sum_laps_at_least _ Hf) as H1.
  pose proof (sum_laps_at_least _ Hs) as H2.
  rewrite length_firstn in H1. rewrite length_skipn in H2.
  replace (sum_laps plan)
    with (sum_laps (firstn k plan ++ skipn k plan))
    by now rewrite firstn_skipn.
  rewrite sum_laps_app. lia.
Qed.

(** X16.  The pace curve of the dashboard gets as many cumulative times as
    lap numbers: for a track of the registry, [cum_times[1:]] of what the
    optimiser returns has [total_laps] entries, as [range(1, total_laps +
    1)] has, and every pit lap marked on the curve is one of these lap
    numbers and not the last one. *)
Theorem pace_curve_of_optimizer_output (deg_models : DegModels)
    (track team : string) (weather : Weather) (total_laps : Z)
    (plan : Strategy) (time : Q) (pits : list Z) (a : Analytics) :
  Dict.get track_laps_dict track = Some total_laps ->
  snd (optimize_strategy deg_models track team weather)
  = inr (plan, time, pits, a) ->
  length (tl (cum_times a)) = length (py_range_from 1 (total_laps + 1))
  /\ length (tl (cum_times a)) = Z.to_nat total_laps
  /\ Forall (fun p => In p (py_range_from 1 total_laps)) pits.
Proof.
  intros Hreg H.
  destruct (optimize_plan_shape _ _ _ _ _ _ _ _ _ Hreg H)
    as [Hsum [Hmin [Hsim ->]]].
  unfold sim in Hsim.
  destruct (simulate_strategy_inr _ _ _ _ _ _ _ Hreg Hsum Hsim)
    as [s [Hrun ->]].
  apply run_stints_cum_length in Hrun. cbn [finish cum_times].
  assert (Hlen : length (tl (s_cum_times s)) = Z.to_nat total_laps).
  { destruct (s_cum_times s) as [|c cs];
      cbn [init_state s_cum_times length plus] in Hrun;
      [ discriminate | ].
    cbn [tl length] in *. rewrite (laps_run_of_plan _ Hmin), Hsum in Hrun.
    lia. }
  split; [ | split; [ exact Hlen | ] ].
  - rewrite Hlen, py_range_from_length. f_equal. lia.
  - eapply Forall_impl; [ | apply (pit_laps_inside _ Hmin) ].
    cbn beta. intros p Hp. apply py_range_from_In. lia.
Qed.

Lemma pace_curve_of_optimizer_output_monza :
  exists plan time pits a,
    snd (optimize_strategy monza_ferrari "Monza" "Ferrari" dry_30)
    = inr (plan, time, pits, a)
    /\ length (tl (cum_times a)) = 53%nat.
Proof.
  eexists. eexists. eexists. eexists.
  split; [ vm_compute; reflexivity | ].
  match goal with
  | |- length (tl (cum_times ?a)) = _ =>
      destruct (pace_curve_of_optimizer_output
                  monza_ferrari "Monza" "Ferrari" dry_30 53 _ _ _ a
                  eq_refl ltac:(vm_compute; reflexivity))
        as [_ [Hlen _]]
  end.
  exact Hlen.
Defined.

(* ================================================================== *)
(** ** The weather *)

(** The circuits with coordinates are the circuits of the registry. *)
Lemma same_circuits (track : string) :
  Dict.mem TRACK_COORDS track = Dict.mem track_laps_dict track.
Proof.
  unfold Dict.mem, TRACK_COORDS, track_laps_dict, TRACK_LAPS. simpl.
  repeat (destruct (String.eqb track _); [ reflexivity | ]).
  reflexivity.
Qed.

Lemma py_min1_le (x : Q) : py_min1 x <= 1.
Proof.
  unfold py_min1. destruct (Qgtb 1.0 x) eqn:E.
  - apply Qgtb_true in E. lra.
  - lra.
Qed.

Lemma py_min1_wet (x : Q) : Qgtb (py_min1 x) 0.3 = true <-> 0.3 < x.
Proof.
  rewrite Qgtb_true. unfold py_min1. destruct (Qgtb 1.0 x) eqn:E.
  - reflexivity.
  - apply Qgtb_false in E. lra.
Qed.

(** X17.  [get_weather] raises exactly for a track without coordinates.
    Otherwise it returns a rain probability of at most 1; the weather it
    returns is the default one (30 degrees, 0.1) or has the reported
    temperature plus 10; and it is wet for the simulator (rain probability
    above 0.3) exactly when there is a key, the service answers with code
    200 and a temperature, and reports more than 1.5 of rain in the last
    hour.  Without a key, or when the request fails, the race is dry. *)
Theorem get_weather_result (api_key : option string) (reply : Reply)
    (track : string) :
  match get_weather api_key reply track with
  | inl _ => Dict.mem TRACK_COORDS track = false
  | inr w =>
      Dict.mem TRACK_COORDS track = true
      /\ rain_prob w <= 1
      /\ (w = default_weather
          \/ exists temp rain,
               reply = Json true (Some temp) rain
               /\ track_temp w = temp + 10)
      /\ (is_wet_of w = true
          <-> no_api_key api_key = false
              /\ exists temp rain,
                   reply = Json true (Some temp) (Some rain)
                   /\ 1.5 < rain)
  end.
Proof.
  unfold get_weather, Dict.mem.
  destruct (Dict.get TRACK_COORDS track) as [c|]; [ | reflexivity ].
  assert (Hdry : is_wet_of default_weather = false) by reflexivity.
  destruct (no_api_key api_key) eqn:Ekey.
  { split; [ reflexivity | split; [ cbn; lra | split; [ now left | ] ] ].
    rewrite Hdry. split; [ discriminate | intros [H _]; discriminate ]. }
  destruct reply as [|cod main_temp rain_1h].
  { split; [ reflexivity | split; [ cbn; lra | split; [ now left | ] ] ].
    rewrite Hdry. split; [ discriminate | ].
    intros [_ [temp [rain [H _]]]]. discriminate. }
  destruct cod; cbn [negb].
  2:{ split; [ reflexivity | split; [ cbn; lra | split; [ now left | ] ] ].
      rewrite Hdry. split; [ discriminate | ].
      intros [_ [temp [rain [H _]]]]. discriminate. }
  destruct main_temp as [temp|].
  2:{ split; [ reflexivity | split; [ cbn; lra | split; [ now left | ] ] ].
      rewrite Hdry. split; [ discriminate | ].
      intros [_ [temp [rain [H _]]]]. discriminate. }
  cbv zeta. cbn [rain_prob track_temp].
  split; [ reflexivity | split; [ apply py_min1_le | split ] ].
  - right. exists temp, rain_1h. split; reflexivity.
  - unfold is_wet_of. cbn [rain_prob]. rewrite py_min1_wet.
    destruct rain_1h as [rain|].
    + split.
      * intros H. split; [ reflexivity | ].
        exists temp, rain. split; [ reflexivity | ].
        unfold Qdiv in H. change (/ 5) with (1 # 5) in H. lra.
      * intros [_ [temp' [rain' [H Hr]]]]. injection H as _ <-.
        unfold Qdiv. change (/ 5) with (1 # 5). lra.
    + split.
      * intros H. exfalso. unfold Qdiv in H. lra.
      * intros [_ [temp' [rain' [H _]]]]. discriminate.
Qed.

(** X18.  Called without a weather, the optimiser never fails with the
    "Unknown track" error of [get_weather]: the registry is read first, so
    a track it does not have raises [KeyError] and leaves the table as it
    was, whatever the weather service would have answered, and every track
    it has also has coordinates.  Without a key the call is the call with
    the default weather. *)
Theorem optimize_default_weather (deg_models : DegModels)
    (track team : string) (api_key : option string) (reply : Reply) :
  snd (optimize_strategy_default deg_models track team None api_key reply)
  <> inl (inl UnknownTrack)
  /\ (Dict.mem track_laps_dict track = false ->
      optimize_strategy_default deg_models track team None api_key reply
      = (deg_models, inl (inr (KeyError track))))
  /\ (Dict.mem track_laps_dict track = true ->
      no_api_key api_key = true ->
      optimize_strategy_default deg_models track team None api_key reply
      = optimize_strategy_default deg_models track team
                                  (Some default_weather) api_key reply).
Proof.
  pose proof (same_circuits track) as Hsame.
  unfold optimize_strategy_default, get_weather, Dict.mem in *.
  destruct (Dict.get track_laps_dict track) as [n|];
    destruct (Dict.get TRACK_COORDS track) as [c|]; try discriminate.
  - split; [ | split; [ discriminate | ] ].
    + destruct (no_api_key api_key);
        [ | destruct reply as [|[|] [temp|] rain]; cbn [negb] ];
        match goal with
        | |- context [optimize_strategy ?d ?t ?tm ?w] =>
            destruct (optimize_strategy d t tm w) as [d' [e|r]]
        end; discriminate.
    + intros _ ->. reflexivity.
  - split; [ discriminate | split; [ reflexivity | discriminate ] ].
Qed.

Lemma optimize_default_weather_spa :
  Dict.mem track_laps_dict "Spa" = false
  /\ optimize_strategy_default monza_ferrari "Spa" "Ferrari" None
                               (Some "key"%string) (Json true (Some 21) None)
     = (monza_ferrari, inl (inr (KeyError "Spa"))).
Proof.
  split; [ reflexivity | ].
  apply (proj1 (proj2 (optimize_default_weather
                         monza_ferrari "Spa" "Ferrari" (Some "key"%string)
                         (Json true (Some 21) None)))).
  reflexivity.
Defined.

(* ================================================================== *)
(** ** The win probability *)

Lemma clamp_bounds (x : Q) :
  let p := py_min 95 (py_max 20 x) in
  20 <= p <= 95
  /\ (95 <= x -> p == 95)
  /\ (x <= 20 -> p == 20)
  /\ (20 <= x <= 95 -> p == x).
Proof.
  cbv zeta. unfold py_min, py_max.
  destruct (Qgtb x 20) eqn:E1.
  - apply Qgtb_true in E1. destruct (Qgtb 95 x) eqn:E2.
    + apply Qgtb_true in E2. repeat split; intros; lra.
    + apply Qgtb_false in E2. repeat split; intros; lra.
  - apply Qgtb_false in E1.
    assert (E2 : Qgtb 95 20 = true) by reflexivity. rewrite E2.
    repeat split; intros; lra.
Qed.

Lemma clamp_mono (x y : Q) :
  x <= y -> py_min 95 (py_max 20 x) <= py_min 95 (py_max 20 y).
Proof.
  intros Hxy.
  unfold py_min, py_max.
  destruct (Qgtb x 20) eqn:Ex; destruct (Qgtb y 20) eqn:Ey;
    try apply Qgtb_true in Ex; try apply Qgtb_false in Ex;
    try apply Qgtb_true in Ey; try apply Qgtb_false in Ey;
    try (assert (E2 : Qgtb 95 20 = true) by reflexivity; rewrite ?E2);
    try destruct (Qgtb 95 x) eqn:Fx; try destruct (Qgtb 95 y) eqn:Fy;
    try apply Qgtb_true in Fx; try apply Qgtb_false in Fx;
    try apply Qgtb_true in Fy; try apply Qgtb_false in Fy;
    lra.
Qed.

(** The number that is clamped: a line in the average lap time. *)
Lemma win_prob_line (laps : Z) (t : Q) :
  (0 < laps)%Z ->
  50 + (90 * inject_Z laps / 60 - t / 60) / (90 * inject_Z laps / 60)
       * 100 * 2
  == 250 - (20 # 9) * (t / inject_Z laps).
Proof.
  intros Hpos.
  assert (HL : 0 < inject_Z laps).
  { change 0 with (inject_Z 0). now rewrite <- Zlt_Qlt. }
  field. lra.
Qed.

(** X19.  The win probability shown for a track of the registry is between
    20 and 95, and a longer race time never gives a higher probability.
    It is 95 whenever the average lap [total_time / laps] is 69 s or less
    and 20 whenever it is 104 s or more. *)
Theorem win_prob_is_clamped (track : string) (laps : Z) (total_time : Q) :
  Dict.get track_laps_dict track = Some laps ->
  exists p,
    win_prob track total_time = inr p
    /\ 20 <= p <= 95
    /\ (total_time <= 69 * inject_Z laps -> p == 95)
    /\ (104 * inject_Z laps <= total_time -> p == 20)
    /\ (forall total_time' p',
          total_time <= total_time' ->
          win_prob track total_time' = inr p' ->
          p' <= p).
Proof.
  intros Hreg. pose proof (registry_bounds _ _ Hreg) as Hb.
  assert (Hpos : (0 < laps)%Z) by lia.
  assert (HL : 0 < inject_Z laps).
  { change 0 with (inject_Z 0). now rewrite <- Zlt_Qlt. }
  unfold win_prob. rewrite Hreg. cbv zeta.
  eexists. split; [ reflexivity | ].
  pose proof (win_prob_line laps total_time Hpos) as Hline.
  set (x := 50 + _ * 2) in *.
  destruct (clamp_bounds x) as [Hrange [Hhi [Hlo _]]].
  assert (Havg : total_time == total_time / inject_Z laps * inject_Z laps).
  { field. lra. }
  set (u := total_time / inject_Z laps) in *.
  split; [ exact Hrange | ].
  split; [ | split ].
  - intros Ht. apply Hhi.
    assert (u <= 69).
    { apply (Qmult_le_r _ _ (inject_Z laps) HL). lra. }
    lra.
  - intros Ht. apply Hlo.
    assert (104 <= u).
    { apply (Qmult_le_r _ _ (inject_Z laps) HL). lra. }
    lra.
  - intros t' p' Hle H. injection H as <-.
    apply clamp_mono.
    pose proof (win_prob_line laps t' Hpos) as Hline'.
    set (x' := 50 + _ * 2) in *.
    assert (Havg' : t' == t' / inject_Z laps * inject_Z laps).
    { field. lra. }
    set (u' := t' / inject_Z laps) in *.
    assert (u <= u').
    { apply (Qmult_le_r _ _ (inject_Z laps) HL). lra. }
    lra.
Qed.

Lemma win_prob_is_clamped_monza :
  exists p, win_prob "Monza" 4499 = inr p /\ 20 <= p <= 95.
Proof.
  destruct (win_prob_is_clamped "Monza" 53 4499 eq_refl)
    as [p [Hp [Hrange _]]].
  exists p. split; [ exact Hp | exact Hrange ].
Defined.

(* ================================================================== *)
(** ** A team without HARD data *)

Lemma try_candidates_all_skipped (deg_models t : DegModels)
    (track team : string) (weather : Weather) (cands : list Strategy)
    (best : Best) :
  table_of deg_models track team t ->
  (forall c, In c cands ->
             exists e, sim deg_models track team weather c = inl e) ->
  snd (try_candidates t track team weather cands best) = best.
Proof.
  revert t best. induction cands as [|c cands IH]; intros t best Ht Hall.
  - reflexivity.
  - destruct (try_candidates_step deg_models t track team weather c cands
                                  best Ht) as [t' [Ht' ->]].
    destruct (Hall c (or_introl eq_refl)) as [e ->].
    apply IH; [ exact Ht' | ].
    intros c' Hc'. apply Hall. now right.
Qed.

Lemma menu_ends_on_hard (total_laps : Z) (plan : Strategy) :
  In plan (candidates total_laps) ->
  Exists (fun st => fst st = "HARD"%string) plan.
Proof.
  unfold candidates. cbv zeta. cbn [In].
  intros [<- | [<- | [<- | [<- | [<- | [<- | []]]]]]];
    repeat (first [ apply Exists_cons_hd; reflexivity
                  | apply Exists_cons_tl ]).
Qed.

Lemma menu_skipped_without_hard (deg_models : DegModels)
    (track team : string) (weather : Weather) (total_laps : Z) :
  Dict.get track_laps_dict track = Some total_laps ->
  is_wet_of weather = false ->
  Dict.mem (resolved_team deg_models track team) "HARD" = false ->
  forall c, In c (candidates total_laps) ->
            exists e, sim deg_models track team weather c = inl e.
Proof.
  intros Hreg Hdry Hhard c Hc.
  pose proof (resolve_get_team deg_models track team) as Hteam.
  unfold sim.
  destruct (candidates_sum _ _ _ Hreg Hc) as [Hsum _].
  rewrite (simulate_strategy_valid _ _ _ _ _ _ Hreg Hsum).
  destruct (snd (simulate_valid deg_models track team weather c))
    as [e|a] eqn:E; [ eauto | exfalso ].
  assert (Hruns : Forall (stint_runs
                            (snd (resolve_track_data deg_models track
                                                     team))
                            team (is_wet_of weather)) c).
  { apply simulate_valid_runs. eauto. }
  apply menu_ends_on_hard in Hc. apply Exists_exists in Hc.
  destruct Hc as [[comp n] [Hin Hcomp]]. cbn [fst] in Hcomp. subst comp.
  rewrite Forall_forall in Hruns.
  destruct (Hruns _ Hin) as [[p Hp] _].
  rewrite Hdry, effective_comp_dry in Hp. cbn [fst] in Hp.
  rewrite (stint_params_dry _ _ "HARD" _ Hteam eq_refl) in Hp.
  unfold Dict.mem in Hhard.
  destruct (Dict.get (resolved_team deg_models track team) "HARD");
    discriminate.
Qed.

(** What the optimiser does once every plan of the menu is skipped. *)
Lemma optimize_after_skips (deg_models : DegModels)
    (track team : string) (weather : Weather) (total_laps : Z) :
  Dict.get track_laps_dict track = Some total_laps ->
  is_wet_of weather = false ->
  (forall c, In c (candidates total_laps) ->
             exists e, sim deg_models track team weather c = inl e) ->
  match Dict.get (resolved_team deg_models track team) "MEDIUM" with
  | None =>
      snd (optimize_strategy deg_models track team weather)
      = inl (KeyError "MEDIUM")
  | Some _ =>
      exists a,
        snd (optimize_strategy deg_models track team weather)
        = inr ([("MEDIUM"%string, total_laps)], total_time a, [], a)
        /\ sim deg_models track team weather
               [("MEDIUM"%string, total_laps)] = inr a
  end.
Proof.
  intros Hreg Hdry Hskip.
  pose proof (registry_bounds _ _ Hreg) as Hb.
  pose proof (resolve_get_team deg_models track team) as Hteam.
  rewrite optimize_snd, Hreg.
  rewrite (try_candidates_all_skipped deg_models deg_models track team
             weather _ None (table_of_refl _ _ _) Hskip).
  unfold sim.
  rewrite (simulate_strategy_valid _ _ _ _ _ _ Hreg
             (fallback_sum total_laps)).
  unfold simulate_valid. cbn [snd run_stints]. unfold stint_step.
  cbn [fst snd]. rewrite Hdry, effective_comp_dry.
  rewrite (stint_params_dry _ _ "MEDIUM" _ Hteam eq_refl).
  destruct (Dict.get (resolved_team deg_models track team) "MEDIUM")
    as [e|]; [ | reflexivity ].
  destruct (total_laps =? 0)%Z eqn:E0; [ lia | ].
  cbn [init_state prev_comp]. eexists. split; reflexivity.
Qed.

(** X20.  In dry weather, when the data the team resolves to at a track
    of the registry has no HARD entry, every plan of the menu is skipped
    (each has a HARD stint).  The optimiser then raises [KeyError] for
    MEDIUM when there is no MEDIUM entry either, and otherwise returns the
    all-MEDIUM plan: one stint over the whole race and no pit stop. *)
Theorem optimize_without_hard (deg_models : DegModels)
    (track team : string) (weather : Weather) (total_laps : Z) :
  Dict.get track_laps_dict track = Some total_laps ->
  is_wet_of weather = false ->
  Dict.mem (resolved_team deg_models track team) "HARD" = false ->
  (forall c, In c (candidates total_laps) ->
             exists e, sim deg_models track team weather c = inl e)
  /\ match Dict.get (resolved_team deg_models track team) "MEDIUM" with
     | None =>
         snd (optimize_strategy deg_models track team weather)
         = inl (KeyError "MEDIUM")
     | Some _ =>
         exists a,
           snd (optimize_strategy deg_models track team weather)
           = inr ([("MEDIUM"%string, total_laps)], total_time a, [], a)
           /\ sim deg_models track team weather
                  [("MEDIUM"%string, total_laps)] = inr a
     end.
Proof.
  intros Hreg Hdry Hhard.
  pose proof (menu_skipped_without_hard _ _ _ _ _ Hreg Hdry Hhard)
    as Hskip.
  split; [ exact Hskip | ].
  now apply optimize_after_skips.
Qed.

Lemma optimize_without_hard_sparse_monza :
  snd (optimize_strategy sparse_monza "Monza" "Ferrari" dry_30)
  = inl (KeyError "MEDIUM").
Proof.
  exact (proj2 (optimize_without_hard sparse_monza "Monza" "Ferrari" dry_30
                                      53 eq_refl eq_refl eq_refl)).
Defined.

(* ================================================================== *)
(** ** The table [prepare_data] writes *)

Lemma get_setdefault {V : Type} (d : Dict.t V) (k k' : string) (v : V) :
  Dict.get (setdefault d k v) k'
  = if String.eqb k' k
    then Some match Dict.get d k with Some x => x | None => v end
    else Dict.get d k'.
Proof.
  unfold setdefault, Dict.mem.
  destruct (String.eqb_spec k' k) as [-> | Hne].
  - destruct (Dict.get d k) eqn:E; [ exact E | apply get_set_same ].
  - destruct (Dict.get d k); [ reflexivity | now apply get_set_other ].
Qed.

Lemma get_update_at {V : Type} (d : Dict.t V) (k k' : string)
    (f : V -> V) :
  Dict.get (update_at d k f) k'
  = if String.eqb k' k then option_map f (Dict.get d k) else Dict.get d k'.
Proof.
  unfold update_at. destruct (String.eqb_spec k' k) as [-> | Hne].
  - destruct (Dict.get d k) eqn:E; cbn [option_map];
      [ apply get_set_same | exact E ].
  - destruct (Dict.get d k); [ now apply get_set_other | reflexivity ].
Qed.

Lemma set_set {V : Type} (d : Dict.t V) (k : string) (v w : V) :
  Dict.set (Dict.set d k v) k w = Dict.set d k w.
Proof.
  induction d as [|[k0 v0] d IH]; cbn [Dict.set].
  - now rewrite String.eqb_refl.
  - destruct (String.eqb k k0) eqn:E; cbn [Dict.set].
    + now rewrite String.eqb_refl.
    + now rewrite E, IH.
Qed.

Lemma all_values_set {V : Type} (P : V -> Prop) (d : Dict.t V)
    (k : string) (v : V) :
  all_values P d -> P v -> all_values P (Dict.set d k v).
Proof.
  unfold all_values. intros Hd Hv.
  induction Hd as [|[k0 v0] d H0 Hd IH]; cbn [Dict.set].
  - apply Forall_cons; [ exact Hv | apply Forall_nil ].
  - destruct (String.eqb k k0).
    + apply Forall_cons; assumption.
    + apply Forall_cons; assumption.
Qed.

Lemma all_values_get {V : Type} (P : V -> Prop) (d : Dict.t V)
    (k : string) (v : V) :
  all_values P d -> Dict.get d k = Some v -> P v.
Proof.
  unfold all_values. intros Hd Hget. apply get_In in Hget.
  rewrite Forall_forall in Hd. apply (Hd _ Hget).
Qed.

Lemma all_values_setdefault {V : Type} (P : V -> Prop) (d : Dict.t V)
    (k : string) (v : V) :
  all_values P d -> P v -> all_values P (setdefault d k v).
Proof.
  intros Hd Hv. unfold setdefault.
  destruct (Dict.mem d k); [ exact Hd | now apply all_values_set ].
Qed.

Lemma all_values_update_at {V : Type} (P : V -> Prop) (d : Dict.t V)
    (k : string) (f : V -> V) :
  all_values P d -> (forall v, P v -> P (f v)) ->
  all_values P (update_at d k f).
Proof.
  intros Hd Hf. unfold update_at.
  destruct (Dict.get d k) as [v|] eqn:E; [ | exact Hd ].
  apply all_values_set; [ exact Hd | ].
  apply Hf. eapply all_values_get; eassumption.
Qed.

Lemma all_values_append (comps : Dict.t (list Q * list Q)) (comp : string)
    (b sl : Q) :
  all_values (fun e => fst e <> []) comps ->
  all_values (fun e => fst e <> [])
             (update_at (setdefault comps comp ([], [])) comp
                        (fun d => (fst d ++ [b], snd d ++ [sl]))).
Proof.
  intros Hc.
  assert (Hne : forall l : list Q, l ++ [b] <> []).
  { intros l H. apply app_eq_nil in H. destruct H. discriminate. }
  unfold update_at. rewrite get_setdefault, String.eqb_refl.
  unfold setdefault, Dict.mem.
  destruct (Dict.get comps comp) as [e|] eqn:E.
  - apply all_values_set; [ exact Hc | apply Hne ].
  - rewrite set_set. apply all_values_set; [ exact Hc | apply Hne ].
Qed.

Lemma no_empty_fits_add_fit (temp : Q) (track team comp : string)
    (d : Fits) (fit : option (Q * Q)) :
  no_empty_fits d -> no_empty_fits (add_fit temp track team comp d fit).
Proof.
  intros Hd. unfold add_fit. destruct fit as [[b sl]|]; [ | exact Hd ].
  cbv zeta. apply all_values_update_at; [ exact Hd | ].
  intros teams Ht. apply all_values_update_at; [ exact Ht | ].
  intros comps Hc. now apply all_values_append.
Qed.

(** What [add_fit] does to the lookups, once the team is there. *)
Lemma team_at_add_fit (temp : Q) (track team comp : string) (d : Fits)
    (b sl : Q) (t tm : string) :
  team_at (add_fit temp track team comp d (Some (b, sl))) t tm
  = if String.eqb t track && String.eqb tm team
    then option_map
           (fun comps =>
              update_at (setdefault comps comp ([], [])) comp
                        (fun e =>
                           (fst e ++ [b + py_max0 ((temp - 30) * 0.01)],
                            snd e ++ [sl])))
           (team_at d track team)
    else team_at d t tm.
Proof.
  unfold add_fit, team_at. cbv zeta. rewrite get_update_at.
  destruct (String.eqb_spec t track) as [-> | Hne]; [ | reflexivity ].
  cbn [andb]. destruct (Dict.get d track) as [teams|]; cbn [option_map].
  - rewrite get_update_at.
    destruct (String.eqb tm team); reflexivity.
  - destruct (String.eqb tm team); reflexivity.
Qed.

Lemma fits_at_add_fit (temp : Q) (track team comp : string) (d : Fits)
    (fit : option (Q * Q)) (t tm c : string) :
  team_at d track team <> None ->
  fits_at (add_fit temp track team comp d fit) t tm c
  = match fit with
    | Some (b, sl) =>
        if String.eqb t track && String.eqb tm team && String.eqb c comp
        then
          Some match fits_at d t tm c with
               | Some e => (fst e ++ [b + py_max0 ((temp - 30) * 0.01)],
                            snd e ++ [sl])
               | None => ([b + py_max0 ((temp - 30) * 0.01)], [sl])
               end
        else fits_at d t tm c
    | None => fits_at d t tm c
    end.
Proof.
  intros Hteam. destruct fit as [[b sl]|]; [ | reflexivity ].
  unfold fits_at. rewrite team_at_add_fit.
  destruct (String.eqb_spec t track) as [-> | Hne]; [ | reflexivity ].
  destruct (String.eqb_spec tm team) as [-> | Hne]; [ | reflexivity ].
  cbn [andb]. destruct (team_at d track team) as [comps|];
    [ | congruence ].
  cbn [option_map]. rewrite get_update_at, !get_setdefault.
  destruct (String.eqb_spec c comp) as [-> | Hne]; [ | reflexivity ].
  rewrite String.eqb_refl. cbn [option_map].
  destruct (Dict.get comps comp); reflexivity.
Qed.

Lemma has_team_add_fit (temp : Q) (track team comp : string) (d : Fits)
    (fit : option (Q * Q)) (t tm : string) :
  match team_at (add_fit temp track team comp d fit) t tm with
  | Some _ => true
  | None => false
  end
  = match team_at d t tm with Some _ => true | None => false end.
Proof.
  destruct fit as [[b sl]|]; [ | reflexivity ].
  rewrite team_at_add_fit.
  destruct (String.eqb_spec t track) as [-> | Hne]; [ | reflexivity ].
  destruct (String.eqb_spec tm team) as [-> | Hne]; [ | reflexivity ].
  cbn [andb]. destruct (team_at d track team); reflexivity.
Qed.

(** What entering a driver's track and team does to the lookups. *)
Lemma team_at_enter (track team : string) (d : Fits) (t tm : string) :
  team_at (update_at (setdefault d track [])
                     track (fun teams => setdefault teams team [])) t tm
  = if String.eqb t track && String.eqb tm team
    then Some match team_at d track team with
              | Some comps => comps
              | None => []
              end
    else team_at d t tm.
Proof.
  unfold team_at. rewrite get_update_at, !get_setdefault.
  destruct (String.eqb_spec t track) as [-> | Hne]; [ | reflexivity ].
  rewrite String.eqb_refl. cbn [andb option_map].
  rewrite get_setdefault.
  destruct (Dict.get d track) as [teams|].
  - destruct (String.eqb tm team); reflexivity.
  - destruct (String.eqb tm team); reflexivity.
Qed.

Lemma team_at_add_fit_some (temp : Q) (track team comp : string)
    (d : Fits) (fit : option (Q * Q)) (t tm : string) :
  team_at d t tm <> None ->
  team_at (add_fit temp track team comp d fit) t tm <> None.
Proof.
  intros H. pose proof (has_team_add_fit temp track team comp d fit t tm)
    as Hhas.
  destruct (team_at (add_fit temp track team comp d fit) t tm);
    [ discriminate | ].
  destruct (team_at d t tm); [ discriminate | congruence ].
Qed.

Lemma existsb_eqb_In (c : string) (l : list string) :
  existsb (String.eqb c) l = true <-> In c l.
Proof.
  rewrite existsb_exists. split.
  - intros [x [Hx Heq]]. apply String.eqb_eq in Heq. now subst.
  - intros H. exists c. split; [ exact H | apply String.eqb_refl ].
Qed.

Lemma lists_of_snoc (fs : list (Q * Q)) (b sl : Q) :
  lists_of (fs ++ [(b, sl)])
  = Some match lists_of fs with
         | Some e => (fst e ++ [b], snd e ++ [sl])
         | None => ([b], [sl])
         end.
Proof.
  destruct fs as [|p fs]; [ reflexivity | ].
  cbn [app lists_of fst snd map]. rewrite !map_app. reflexivity.
Qed.

(** The loop over the compounds of one driver. *)
Lemma fits_at_fold_add_fit (temp : Q) (track team : string)
    (fit : string -> option (Q * Q)) (comps : list string) (d : Fits)
    (t tm c : string) :
  NoDup comps ->
  team_at d track team <> None ->
  fits_at (fold_left (fun deg_data comp =>
                        add_fit temp track team comp deg_data (fit comp))
                     comps d) t tm c
  = if String.eqb t track && String.eqb tm team
       && existsb (String.eqb c) comps
    then
      match fit c with
      | Some (b, sl) =>
          Some match fits_at d t tm c with
               | Some e => (fst e ++ [b + py_max0 ((temp - 30) * 0.01)],
                            snd e ++ [sl])
               | None => ([b + py_max0 ((temp - 30) * 0.01)], [sl])
               end
      | None => fits_at d t tm c
      end
    else fits_at d t tm c.
Proof.
  intros Hnd. revert d.
  induction Hnd as [|comp comps Hnotin Hnd IH]; intros d Hteam.
  - cbn [fold_left existsb]. now rewrite andb_false_r.
  - cbn [fold_left existsb].
    rewrite IH by now apply team_at_add_fit_some.
    rewrite (fits_at_add_fit temp track team comp d (fit comp) t tm c Hteam).
    destruct (String.eqb_spec c comp) as [-> | Hne].
    + assert (Hrest : existsb (String.eqb comp) comps = false).
      { destruct (existsb (String.eqb comp) comps) eqn:E;
          [ | reflexivity ].
        apply existsb_eqb_In in E. contradiction. }
      rewrite Hrest. cbn [orb]. rewrite !andb_false_r, !andb_true_r.
      destruct (fit comp) as [[b sl]|]; [ | ].
      * destruct (String.eqb t track && String.eqb tm team); reflexivity.
      * destruct (String.eqb t track && String.eqb tm team); reflexivity.
    + cbn [orb]. rewrite !andb_false_r.
      destruct (fit comp) as [[b sl]|]; reflexivity.
Qed.

Lemma process_driver_filled (evs : list (string * Q * Driver))
    (d : Fits) (track : string) (temp : Q) (driver : Driver) :
  filled_from evs d ->
  filled_from (evs ++ [(track, temp, driver)])
              (process_driver track temp d driver).
Proof.
  intros [Hteam [Hfits Hwf]].
  unfold process_driver. cbv zeta.
  change (removelast COMPOUNDS) with DRY.
  set (team := py_team (team_name driver)).
  set (d2 := update_at (setdefault d track []) track
                       (fun teams => setdefault teams team [])).
  assert (H2 : team_at d2 track team <> None).
  { unfold d2. rewrite team_at_enter, !String.eqb_refl. discriminate. }
  assert (H2f : forall t tm c, fits_at d2 t tm c = fits_at d t tm c).
  { intros t tm c. unfold fits_at, d2. rewrite team_at_enter.
    destruct (String.eqb_spec t track) as [-> | Hne]; [ | reflexivity ].
    destruct (String.eqb_spec tm team) as [-> | Hne]; [ | reflexivity ].
    cbn [andb]. destruct (team_at d track team); reflexivity. }
  assert (Hdry : NoDup DRY).
  { repeat (apply NoDup_cons;
            [ cbn [In]; intros H; repeat destruct H as [H | H];
              try discriminate; exact H | ]).
    apply NoDup_nil. }
  split; [ | split ].
  - intros t tm.
    assert (Hfold : forall comps d0,
               match team_at (fold_left
                                (fun deg_data comp =>
                                   add_fit temp track team comp deg_data
                                           (fit_degradation driver comp))
                                comps d0) t tm with
               | Some _ => true
               | None => false
               end
               = match team_at d0 t tm with
                 | Some _ => true
                 | None => false
                 end).
    { induction comps as [|comp comps IH]; intros d0; [ reflexivity | ].
      cbn [fold_left]. rewrite IH. apply has_team_add_fit. }
    rewrite Hfold. unfold d2. rewrite team_at_enter.
    unfold seen. rewrite existsb_app. fold (seen evs t tm).
    rewrite <- Hteam. cbn [existsb fst snd]. fold team.
    destruct (String.eqb t track), (String.eqb tm team),
      (team_at d t tm); reflexivity.
  - intros t tm c.
    rewrite (fits_at_fold_add_fit temp track team
               (fit_degradation driver) DRY d2 t tm c Hdry H2).
    rewrite H2f, Hfits. unfold fits_for. rewrite flat_map_app.
    cbn [flat_map fst snd]. rewrite app_nil_r. fold team.
    fold (fits_for evs t tm c).
    destruct (String.eqb t track && String.eqb tm team
              && existsb (String.eqb c) DRY);
      [ | now rewrite app_nil_r ].
    destruct (fit_degradation driver c) as [[b sl]|];
      [ | now rewrite app_nil_r ].
    now rewrite lists_of_snoc.
  - assert (Hd2 : no_empty_fits d2).
    { unfold d2, no_empty_fits.
      apply all_values_update_at.
      - apply all_values_setdefault; [ exact Hwf | apply Forall_nil ].
      - intros teams Ht.
        apply all_values_setdefault; [ exact Ht | apply Forall_nil ]. }
    revert Hd2. generalize d2. generalize DRY.
    induction l as [|comp comps IH]; intros d0 Hd0; [ exact Hd0 | ].
    cbn [fold_left]. apply IH. now apply no_empty_fits_add_fit.
Qed.

Lemma fold_left_map_arg {A B C : Type} (f : A -> B -> A) (g : C -> B)
    (l : list C) (a : A) :
  fold_left f (map g l) a = fold_left (fun a x => f a (g x)) l a.
Proof.
  revert a. induction l as [|x l IH]; intros a; [ reflexivity | ].
  cbn [map fold_left]. apply IH.
Qed.

(** The two nested loops go through the processed drivers one by one. *)
Lemma accumulate_processed (load : Z -> string -> option Session) :
  fold_left (process_race load) races []
  = fold_left (fun deg_data ev =>
                 process_driver (fst (fst ev)) (snd (fst ev)) deg_data
                                (snd ev))
              (processed load) [].
Proof.
  unfold processed. generalize ([] : Fits). generalize races.
  induction l as [|r rs IH]; intros d; [ reflexivity | ].
  cbn [fold_left flat_map]. rewrite fold_left_app, IH. f_equal.
  unfold process_race. destruct (load (fst r) (snd r)) as [session|];
    [ | reflexivity ].
  rewrite fold_left_map_arg. reflexivity.
Qed.

Lemma filled_from_fold (evs : list (string * Q * Driver)) :
  filled_from evs
    (fold_left (fun deg_data ev =>
                  process_driver (fst (fst ev)) (snd (fst ev)) deg_data
                                 (snd ev)) evs []).
Proof.
  induction evs as [|[[track temp] driver] evs IH] using rev_ind.
  - split; [ | split ].
    + intros track team. reflexivity.
    + intros track team comp. reflexivity.
    + apply Forall_nil.
  - rewrite fold_left_app. cbn [fold_left fst snd].
    now apply process_driver_filled.
Qed.

Lemma get_map_values {V W : Type} (f : V -> W) (d : Dict.t V)
    (k : string) :
  Dict.get (map (fun kv => (fst kv, f (snd kv))) d) k
  = option_map f (Dict.get d k).
Proof.
  induction d as [|[k0 v0] d IH]; [ reflexivity | ].
  cbn [map Dict.get fst snd]. destruct (String.eqb k k0); [ reflexivity | ].
  exact IH.
Qed.

Lemma get_averaged_fits (comps : Dict.t (list Q * list Q)) (c : string) :
  all_values (fun e => fst e <> []) comps ->
  Dict.get (flat_map (fun c =>
                        match fst (snd c) with
                        | [] => []
                        | _ :: _ =>
                            [(fst c,
                              mkEntry (np_mean (fst (snd c)))
                                      (np_mean (snd (snd c))))]
                        end) comps) c
  = option_map (fun e => mkEntry (np_mean (fst e)) (np_mean (snd e)))
               (Dict.get comps c).
Proof.
  unfold all_values.
  induction 1 as [|[k [bs ss]] comps Hne _ IH]; [ reflexivity | ].
  cbn [flat_map fst snd] in *.
  destruct bs as [|b bs]; [ congruence | ].
  cbn [app Dict.get]. destruct (String.eqb c k); [ reflexivity | ].
  exact IH.
Qed.

Lemma stored_team_average (d : Fits) (track team : string) :
  stored_team (average_fits d) track team
  = option_map
      (flat_map (fun c =>
                   match fst (snd c) with
                   | [] => []
                   | _ :: _ =>
                       [(fst c,
                         mkEntry (np_mean (fst (snd c)))
                                 (np_mean (snd (snd c))))]
                   end))
      (team_at d track team).
Proof.
  unfold stored_team, average_fits, team_at.
  rewrite get_map_values.
  set (avg := flat_map _).
  assert (H : forall o : option (Dict.t (Dict.t (list Q * list Q))),
             match option_map (map (fun tm => (fst tm, avg (snd tm)))) o
             with
             | Some teams => Dict.get teams team
             | None => None
             end
             = option_map avg match o with
                              | Some teams => Dict.get teams team
                              | None => None
                              end).
  { intros [teams|]; cbn [option_map];
      [ apply get_map_values | reflexivity ]. }
  apply H.
Qed.

Lemma stored_is_stored_team (deg_models : DegModels)
    (track team comp : string) :
  stored deg_models track team comp
  = match stored_team deg_models track team with
    | Some team_data => Dict.get team_data comp
    | None => None
    end.
Proof.
  unfold stored, stored_team.
  destruct (Dict.get deg_models track); reflexivity.
Qed.

Lemma stored_average (d : Fits) (track team comp : string) :
  no_empty_fits d ->
  stored (average_fits d) track team comp
  = option_map (fun e => mkEntry (np_mean (fst e)) (np_mean (snd e)))
               (fits_at d track team comp).
Proof.
  intros Hwf. rewrite stored_is_stored_team, stored_team_average.
  unfold fits_at. unfold team_at.
  destruct (Dict.get d track) as [teams|] eqn:Et; [ | reflexivity ].
  destruct (Dict.get teams team) as [comps|] eqn:Etm; [ | reflexivity ].
  cbn [option_map]. apply get_averaged_fits.
  eapply all_values_get; [ | exact Etm ].
  eapply all_values_get; [ exact Hwf | exact Et ].
Qed.

Lemma seen_nonempty (evs : list (string * Q * Driver)) :
  evs <> [] -> exists track team, seen evs track team = true.
Proof.
  destruct evs as [|[[track temp] driver] evs]; [ congruence | ].
  intros _. exists track, (py_team (team_name driver)).
  unfold seen. cbn [existsb fst snd]. now rewrite !String.eqb_refl.
Qed.

(** The table that is saved, when a driver was gone through. *)
Lemma prepare_data_processed (load : Z -> string -> option Session) :
  processed load <> [] ->
  prepare_data load
  = average_fits
      (fold_left (fun deg_data ev =>
                    process_driver (fst (fst ev)) (snd (fst ev)) deg_data
                                   (snd ev))
                 (processed load) []).
Proof.
  intros Hne. unfold prepare_data. rewrite accumulate_processed.
  destruct (filled_from_fold (processed load)) as [Hteam _].
  destruct (seen_nonempty _ Hne) as [track [team Hseen]].
  specialize (Hteam track team). rewrite Hseen in Hteam.
  match goal with
  | |- context [average_fits ?x] => set (d := x) in *
  end.
  clearbody d.
  destruct d as [|t d]; [ discriminate | reflexivity ].
Qed.

Lemma In_mem {V : Type} (d : Dict.t V) (k : string) (v : V) :
  In (k, v) d -> Dict.mem d k = true.
Proof.
  unfold Dict.mem. induction d as [|[k0 v0] d IH]; [ intros [] | ].
  intros [H | H]; cbn [Dict.get].
  - injection H as -> ->. now rewrite String.eqb_refl.
  - destruct (String.eqb k k0); [ reflexivity | now apply IH ].
Qed.

(** Every processed driver belongs to a race of the registry. *)
Lemma processed_track (load : Z -> string -> option Session)
    (ev : string * Q * Driver) :
  In ev (processed load) ->
  Dict.mem track_laps_dict (fst (fst ev)) = true.
Proof.
  unfold processed. rewrite in_flat_map.
  intros [[year track] [Hrace Hev]]. cbn [fst snd] in Hev.
  destruct (load year track) as [session|]; [ | destruct Hev ].
  apply in_map_iff in Hev. destruct Hev as [driver [<- _]].
  cbn [fst]. unfold races in Hrace. apply in_flat_map in Hrace.
  destruct Hrace as [y [_ Hrace]]. apply in_map_iff in Hrace.
  destruct Hrace as [[k n] [Heq Hin]]. cbn [fst] in Heq.
  injection Heq as _ <-. apply (In_mem _ _ _ Hin).
Qed.

Lemma seen_event (evs : list (string * Q * Driver)) (track team : string) :
  seen evs track team = true ->
  exists ev, In ev evs /\ fst (fst ev) = track.
Proof.
  unfold seen. rewrite existsb_exists.
  intros [ev [Hin Hev]]. apply andb_true_iff in Hev.
  destruct Hev as [Ht _]. apply String.eqb_eq in Ht.
  exists ev. split; [ exact Hin | now symmetry ].
Qed.

Lemma fits_for_event (evs : list (string * Q * Driver))
    (track team comp : string) :
  fits_for evs track team comp <> [] ->
  exists ev,
    In ev evs
    /\ fst (fst ev) = track
    /\ py_team (team_name (snd ev)) = team
    /\ In comp DRY.
Proof.
  unfold fits_for. intros Hne.
  destruct (flat_map _ evs) as [|p l] eqn:E; [ congruence | ].
  assert (Hin : In p (p :: l)) by now left.
  rewrite <- E in Hin. apply in_flat_map in Hin.
  destruct Hin as [ev [Hev Hp]]. exists ev. split; [ exact Hev | ].
  destruct (String.eqb_spec track (fst (fst ev))) as [-> | _];
    [ | destruct Hp ].
  destruct (String.eqb_spec team (py_team (team_name (snd ev))))
    as [-> | _]; [ | destruct Hp ].
  cbn [andb] in Hp.
  destruct (existsb (String.eqb comp) DRY) eqn:Ec; [ | destruct Hp ].
  apply existsb_eqb_In in Ec. repeat split; assumption.
Qed.

Lemma py_team_names (name : string) : In (py_team name) ("Other"%string :: TEAMS).
Proof.
  unfold py_team. destruct (existsb (String.eqb name) TEAMS) eqn:E.
  - right. now apply existsb_eqb_In.
  - now left.
Qed.

(** X21.  Once a driver has been gone through, the entry [prepare_data]
    saves for a compound of a team at a track is the mean of the fits that
    succeeded for the drivers of that team (its own name, or "Other" for a
    team outside [TEAMS]) in the races of that track that were processed,
    the base of each fit raised by 0.01 s per degree of mean track
    temperature above 30;
    there is no entry when no fit succeeded. *)
Theorem prepare_data_entries_are_means
    (load : Z -> string -> option Session) (track team comp : string) :
  processed load <> [] ->
  stored (prepare_data load) track team comp
  = match fits_for (processed load) track team comp with
    | [] => None
    | fs => Some (mkEntry (np_mean (map fst fs)) (np_mean (map snd fs)))
    end.
Proof.
  intros Hne. rewrite (prepare_data_processed load Hne).
  destruct (filled_from_fold (processed load)) as [_ [Hfits Hwf]].
  rewrite (stored_average _ _ _ _ Hwf), Hfits.
  destruct (fits_for (processed load) track team comp); reflexivity.
Qed.

Lemma prepare_data_entries_are_means_monza_2021 :
  exists e,
    stored (prepare_data monza_2021) "Monza" "Ferrari" "SOFT" = Some e
    /\ base e == 81.1 /\ slope e == 0.4.
Proof.
  eexists. split.
  - rewrite (prepare_data_entries_are_means monza_2021 "Monza" "Ferrari"
               "SOFT" ltac:(vm_compute; discriminate)).
    vm_compute. reflexivity.
  - split; vm_compute; reflexivity.
Defined.

Lemma prepare_data_unprocessed (load : Z -> string -> option Session) :
  processed load = [] -> prepare_data load = hardcoded.
Proof.
  intros H. unfold prepare_data. now rewrite accumulate_processed, H.
Qed.

Lemma hardcoded_keys (track team comp : string) (e : DegEntry) :
  stored hardcoded track team comp = Some e ->
  Dict.mem track_laps_dict track = true
  /\ In team ("Other"%string :: TEAMS)
  /\ In comp DRY.
Proof.
  unfold stored.
  destruct (Dict.get hardcoded track) as [teams|] eqn:Et;
    [ | discriminate ].
  destruct (Dict.get teams team) as [comps|] eqn:Etm; [ | discriminate ].
  intros Hc. apply get_In in Et, Etm, Hc.
  unfold hardcoded in Et. cbn [In] in Et.
  repeat (destruct Et as [Et | Et];
          [ injection Et as <- <-; cbn [In] in Etm;
            destruct Etm as [Etm | []]; injection Etm as <- <-;
            cbn [In] in Hc;
            repeat (destruct Hc as [Hc | Hc];
                    [ injection Hc as <- _;
                      split; [ reflexivity | split; cbn; auto ] | ]);
            destruct Hc | ]).
  destruct Et.
Qed.

(** X22.  The keys of the table [prepare_data] saves.  When no driver is
    gone through at all (no race loads, or every race that does is wet or
    has no top drivers), the table is the hard-coded one.  In every case an entry is saved only under a track
    of the registry, under one of the five teams of [TEAMS] or "Other", and
    under SOFT, MEDIUM or HARD: the table never has an INTERMEDIATE
    entry. *)
Theorem prepare_data_keys (load : Z -> string -> option Session) :
  (processed load = [] -> prepare_data load = hardcoded)
  /\ forall track team comp e,
       stored (prepare_data load) track team comp = Some e ->
       Dict.mem track_laps_dict track = true
       /\ In team ("Other"%string :: TEAMS)
       /\ In comp DRY.
Proof.
  split; [ apply prepare_data_unprocessed | ].
  intros track team comp e He.
  destruct (processed load) as [|ev0 evs] eqn:Eevs.
  - rewrite (prepare_data_unprocessed load Eevs) in He.
    now apply hardcoded_keys in He.
  - assert (Hne : processed load <> []) by (rewrite Eevs; discriminate).
    rewrite (prepare_data_processed load Hne) in He.
    destruct (filled_from_fold (processed load)) as [_ [Hfits Hwf]].
    rewrite (stored_average _ _ _ _ Hwf), Hfits in He.
    destruct (fits_for_event (processed load) track team comp)
      as [ev [Hin [<- [<- Hcomp]]]].
    { intros Hnil. rewrite Hnil in He. discriminate. }
    split; [ exact (processed_track load ev Hin) | ].
    split; [ apply py_team_names | exact Hcomp ].
Qed.

Lemma prepare_data_keys_monza_2021 :
  exists e,
    stored (prepare_data monza_2021) "Monza" "Ferrari" "HARD" = Some e
    /\ Dict.mem track_laps_dict "Monza" = true.
Proof.
  eexists. split; [ vm_compute; reflexivity | ].
  match goal with
  | |- Dict.mem _ _ = true =>
      destruct (proj2 (prepare_data_keys monza_2021)
                      "Monza"%string "Ferrari"%string "HARD"%string _
                      ltac:(vm_compute; reflexivity)) as [H _]
  end.
  exact H.
Defined.

Lemma resolved_team_stored (deg_models : DegModels) (track team : string)
    (team_data : TeamData) :
  stored_team deg_models track team = Some team_data ->
  resolved_team deg_models track team = team_data.
Proof.
  unfold stored_team, resolved_team.
  destruct (Dict.get deg_models track) as [teams|]; [ | discriminate ].
  intros ->. reflexivity.
Qed.

(** X23.  From the data to the optimiser.  When a driver of a team was
    gone through at a track, the team is saved under that track even if no
    fit succeeded; the optimiser then uses the team's own entries and never
    the average of the other teams.  So if no MEDIUM and no HARD fit
    succeeded for the team at that track, the optimiser raises [KeyError]
    for MEDIUM in dry weather, whatever the other teams have. *)
Theorem unfitted_team_makes_optimizer_raise
    (load : Z -> string -> option Session) (track team : string)
    (weather : Weather) :
  seen (processed load) track team = true ->
  fits_for (processed load) track team "MEDIUM" = [] ->
  fits_for (processed load) track team "HARD" = [] ->
  is_wet_of weather = false ->
  (exists team_data,
      stored_team (prepare_data load) track team = Some team_data)
  /\ snd (optimize_strategy (prepare_data load) track team weather)
     = inl (KeyError "MEDIUM").
Proof.
  intros Hseen Hmed Hhard Hdry.
  destruct (seen_event _ _ _ Hseen) as [ev [Hin Htrack]].
  assert (Hne : processed load <> []).
  { intros Hnil. rewrite Hnil in Hin. destruct Hin. }
  pose proof (processed_track load ev Hin) as Hreg.
  rewrite Htrack in Hreg. unfold Dict.mem in Hreg.
  destruct (Dict.get track_laps_dict track) as [total_laps|] eqn:Elaps;
    [ clear Hreg | discriminate ].
  destruct (filled_from_fold (processed load)) as [Hteam [Hfits Hwf]].
  specialize (Hteam track team). rewrite Hseen in Hteam.
  pose proof (stored_team_average
                (fold_left (fun deg_data ev =>
                              process_driver (fst (fst ev)) (snd (fst ev))
                                             deg_data (snd ev))
                           (processed load) []) track team) as Hstored.
  rewrite <- (prepare_data_processed load Hne) in Hstored.
  destruct (team_at _ track team) as [comps|]; [ | discriminate ].
  cbn [option_map] in Hstored.
  split; [ eauto | ].
  assert (Hget : forall comp,
             fits_for (processed load) track team comp = [] ->
             Dict.get (resolved_team (prepare_data load) track team) comp
             = None).
  { intros comp Hnone.
    rewrite (resolved_team_stored _ _ _ _ Hstored).
    pose proof (stored_is_stored_team (prepare_data load) track team comp)
      as Hs.
    rewrite Hstored in Hs. rewrite <- Hs.
    rewrite (prepare_data_processed load Hne).
    rewrite (stored_average _ _ _ _ Hwf), Hfits, Hnone. reflexivity. }
  pose proof (optimize_after_skips (prepare_data load) track team weather
                                   total_laps Elaps Hdry) as Hopt.
  rewrite (Hget "MEDIUM"%string Hmed) in Hopt. apply Hopt.
  apply (menu_skipped_without_hard _ _ _ _ _ Elaps Hdry).
  unfold Dict.mem. now rewrite (Hget "HARD"%string Hhard).
Qed.

Lemma unfitted_team_makes_optimizer_raise_monza_2021 :
  seen (processed monza_2021) "Monza" "Other" = true
  /\ snd (optimize_strategy (prepare_data monza_2021) "Monza" "Other"
                            dry_30)
     = inl (KeyError "MEDIUM").
Proof.
  split; [ vm_compute; reflexivity | ].
  apply (unfitted_team_makes_optimizer_raise monza_2021 "Monza" "Other"
                                             dry_30);
    vm_compute; reflexivity.
Defined.

(* ================================================================== *)
(** ** The cumulative series in binary64 *)













